(** * memm: an allocation-tracking layer over malloc/calloc/realloc/free

    Shallow embedding of [memm.c] / [memm.h] and verification of the
    registry, its counters, the tracked allocation API and the three
    bounded report functions.

    Conventions of the embedding
    - [size_t] is the 64-bit unsigned type of an LP64 target: a value is a
      [Z] in [0, 2^64) and every arithmetic operation of the source on
      [size_t] is written with its wrap-around ([size_add], [size_sub],
      [size_mul]).
    - a [void*] is its numeric value, a [Z]; [NULL] is [0].
    - a bucket chain (a singly linked list of heap nodes threaded through
      [next]) is the list of its nodes, head first; each node remembers the
      address [malloc] returned for it, since that address is what
      [free(to_free)] receives.
    - [int] is the 32-bit signed type of an LP64 target: a value is a [Z]
      in [[-2^31, 2^31)], and additions in [int] and conversions to [int]
      are written with their wrap-around ([int_add], [int_wrap]).  Signed
      overflow is undefined in ISO C and the conversion of a value that
      does not fit is implementation-defined; the wrap-around is what the
      usual compilers do.  The values of type [int] that the report
      functions compute do not wrap when the capacity is at most
      [INT_MAX], and no statement about a value returned is made beyond
      that.
    - the C library underneath ([malloc], [calloc], [realloc], [free],
      [time], the rendering of [%p], what a failing [snprintf] has stored)
      is a parameter: a record [Libc] of
      state-passing functions over an abstract allocator state.  Every
      call that reaches the library is also appended to a call log, so
      that statements can speak about which calls were forwarded and in
      which order. *)

From Stdlib Require Import ZArith Lia String Ascii List DecimalString HexadecimalString.
From stdpp Require Import base list.
Import ListNotations.

Local Open Scope Z_scope.

(** ** Machine integers *)

Definition SIZE_BITS : Z := 64.
Definition SIZE_MOD : Z := 2 ^ SIZE_BITS.

Definition size_add (a b : Z) : Z := (a + b) mod SIZE_MOD.
Definition size_sub (a b : Z) : Z := (a - b) mod SIZE_MOD.
Definition size_mul (a b : Z) : Z := (a * b) mod SIZE_MOD.

(** A value of type [size_t]. *)
Definition is_size_t (z : Z) : Prop := 0 <= z < SIZE_MOD.

Definition NULL : Z := 0.

(** [INT_MAX] of [<limits.h>]. *)
Definition INT_MAX : Z := 2 ^ 31 - 1.

(** The value of type [int] congruent to [z] modulo [2^32]: a conversion
    to [int], or the result of arithmetic in [int]. *)
Definition int_wrap (z : Z) : Z := (z + 2 ^ 31) mod 2 ^ 32 - 2 ^ 31.
Definition int_add (a b : Z) : Z := int_wrap (a + b).

(** ** Configuration (memm.h) *)

Definition MEMM_HASH_TABLE_SIZE : Z := 2048.

(** [sizeof(memm_allocation_t)] on LP64: five 8-byte members and an [int]
    padded to 8. *)
Definition sizeof_memm_allocation : Z := 48.

(** ** Data model *)

(** [memm_allocation_t].  The [next] member is the tail of the chain the
    node sits in; [alloc_node] is the address of the node itself. *)
Record memm_allocation := mk_allocation {
  alloc_node : Z;
  alloc_ptr : Z;
  alloc_size : Z;
  alloc_file : string;
  alloc_line : Z;
  alloc_timestamp : Z
}.

(** [memm_t]. *)
Record memm_t := mk_memm {
  hash_table : list (list memm_allocation);
  total_allocated : Z;
  total_freed : Z;
  peak_memory : Z;
  allocation_count : Z;
  free_count : Z
}.

(** [static memm_t g_memm = { 0 }], also what [memm_init] stores. *)
Definition memm_zero : memm_t :=
  mk_memm (replicate (Z.to_nat MEMM_HASH_TABLE_SIZE) []) 0 0 0 0 0.

(** [g_memm.hash_table[i]]. *)
Definition bucket (g : memm_t) (i : Z) : list memm_allocation :=
  default [] (hash_table g !! Z.to_nat i).

(** [g_memm.hash_table[i] = chain]. *)
Definition set_bucket (g : memm_t) (i : Z) (chain : list memm_allocation) : memm_t :=
  mk_memm (<[Z.to_nat i := chain]> (hash_table g))
          (total_allocated g) (total_freed g) (peak_memory g)
          (allocation_count g) (free_count g).

(** The records in the order every traversal of the source visits them
    (the nested loops of [memm_shutdown] and of the two listing reports):
    buckets by increasing index, each chain from its head. *)
Definition iterate (g : memm_t) : list memm_allocation := concat (hash_table g).

(** ** The C library underneath *)

Inductive libc_call :=
| CallMalloc (size ret : Z)
| CallCalloc (num size ret : Z)
| CallRealloc (ptr size ret : Z)
| CallFree (ptr : Z).

Record Libc := mk_libc {
  libc_state : Type;
  real_malloc : Z -> libc_state -> Z * libc_state;
  real_calloc : Z -> Z -> libc_state -> Z * libc_state;
  real_realloc : Z -> Z -> libc_state -> Z * libc_state;
  real_free : Z -> libc_state -> libc_state;
  real_time : libc_state -> Z * libc_state;
  print_ptr : Z -> list ascii;
  snprintf_overflow : Z -> list ascii -> list ascii
}.

(** [memm_hash_ptr]. *)
Definition memm_hash_ptr (ptr : Z) : Z :=
  Z.land ptr (MEMM_HASH_TABLE_SIZE - 1).

(** The scan of [memm_unregister_allocation] (lines 86-98): the first node
    of the chain whose [ptr] member equals [ptr] is unlinked; the result is
    that node and the chain without it. *)
Fixpoint unlink (ptr : Z) (chain : list memm_allocation)
  : option (memm_allocation * list memm_allocation) :=
  match chain with
  | [] => None
  | current :: next =>
      if alloc_ptr current =? ptr then Some (current, next)
      else match unlink ptr next with
           | Some (to_free, next') => Some (to_free, current :: next')
           | None => None
           end
  end.

(** ** Formatted output *)

Definition NUL : ascii := Ascii.zero.
Definition nl : list ascii := [ascii_of_nat 10].
Definition lit (s : string) : list ascii := list_ascii_of_string s.

(** [%zu]. *)
Definition fmt_zu (z : Z) : list ascii :=
  lit (DecimalString.NilZero.string_of_uint (N.to_uint (Z.to_N z))).

(** [%6zu]: right-justified in a field of six characters. *)
Definition fmt_6zu (z : Z) : list ascii :=
  let digits := fmt_zu z in
  replicate (6 - length digits)%nat " "%char ++ digits.

(** [%d]. *)
Definition fmt_d (z : Z) : list ascii :=
  lit (DecimalString.NilZero.string_of_int (Z.to_int z)).

(** A rendering whose length an [int] can hold. *)
Definition renders (out : list ascii) : bool :=
  Z.of_nat (length out) <=? INT_MAX.

(** [snprintf(buffer + cursor, n, ...)], where [out] is the rendering of the
    format with its arguments.  As ISO C defines it: when [n] is zero
    nothing is stored; otherwise the first [n - 1] characters of [out] are
    stored followed by a terminating null; the value returned is the length
    of [out]; no limit is put on [n].  The value returned is an [int]:
    when [out] is longer than [INT_MAX] the call fails and returns [-1]
    (glibc and POSIX, [EOVERFLOW]).  What a failing call has stored by
    then is not specified; it is at most [n] bytes at the cursor, the
    bytes that [snprintf_overflow] of the library gives. *)
Definition snprintf (L : Libc) (buffer : list ascii) (cursor : Z) (n : Z)
    (out : list ascii) : list ascii * Z :=
  if renders out then
    if n =? 0 then (buffer, Z.of_nat (length out))
    else (list_inserts (Z.to_nat cursor) (take (Z.to_nat (n - 1)) out ++ [NUL]) buffer,
          Z.of_nat (length out))
  else
    (list_inserts (Z.to_nat cursor)
                  (take (Z.to_nat n) (snprintf_overflow L n out)) buffer,
     -1).

(** [buffer[i] = '\0']. *)
Definition store_nul (buffer : list ascii) (i : Z) : list ascii :=
  <[Z.to_nat i := NUL]> buffer.

(** The four texts in which [memm_get_allocations_string] and
    [memm_get_leaks_string] differ; the two functions are otherwise the
    same statement for statement. *)
Record listing := mk_listing {
  lst_header : list ascii;
  lst_line : memm_allocation -> list ascii;
  lst_none : list ascii;
  lst_total : Z -> Z -> list ascii
}.

(** The local variables of a listing report. *)
Record lstate := mk_lstate {
  ls_buffer : list ascii;
  ls_cursor : Z;
  ls_remaining : Z;
  ls_total_written : Z;
  ls_total_count : Z;
  ls_total_bytes : Z
}.

(** The inner [while (current && remaining > 1)] loop (lines 287-299).
    [if (written < 0) break;] leaves this loop only: the rest of the chain
    is skipped and the outer loop goes on with the next bucket. *)
Fixpoint listing_chain (L : Libc) (T : listing) (current : list memm_allocation)
    (s : lstate) : lstate :=
  match current with
  | [] => s
  | a :: next =>
      if ls_remaining s >? 1 then
        let (buffer, written) :=
          snprintf L (ls_buffer s) (ls_cursor s) (ls_remaining s) (lst_line T a) in
        if written <? 0 then
          mk_lstate buffer (ls_cursor s) (ls_remaining s) (ls_total_written s)
                    (ls_total_count s) (ls_total_bytes s)
        else
          let written :=
            if written >=? ls_remaining s then int_wrap (ls_remaining s - 1)
            else written in
          listing_chain L T next
            (mk_lstate buffer
                       (ls_cursor s + written)
                       (size_sub (ls_remaining s) written)
                       (int_add (ls_total_written s) written)
                       (size_add (ls_total_count s) 1)
                       (size_add (ls_total_bytes s) (alloc_size a)))
      else s
  end.

(** The outer [for (i = 0; i < MEMM_HASH_TABLE_SIZE && remaining > 1; i++)]
    loop (lines 285-300) over the buckets. *)
Fixpoint listing_table (L : Libc) (T : listing)
    (table : list (list memm_allocation)) (s : lstate) : lstate :=
  match table with
  | [] => s
  | chain :: rest =>
      if ls_remaining s >? 1
      then listing_table L T rest (listing_chain L T chain s)
      else s
  end.

(** The closing line (lines 302-320): written at the cursor, counted into
    [total_written], the cursor itself is not advanced. *)
Definition listing_summary (L : Libc) (out : list ascii) (s : lstate) : lstate :=
  let (buffer, written) :=
    snprintf L (ls_buffer s) (ls_cursor s) (ls_remaining s) out in
  if written >? 0 then
    let written :=
      if written >=? ls_remaining s then int_wrap (ls_remaining s - 1)
      else written in
    mk_lstate buffer (ls_cursor s) (ls_remaining s)
              (int_add (ls_total_written s) written)
              (ls_total_count s) (ls_total_bytes s)
  else
    mk_lstate buffer (ls_cursor s) (ls_remaining s) (ls_total_written s)
              (ls_total_count s) (ls_total_bytes s).

(** The body shared by [memm_get_allocations_string] and
    [memm_get_leaks_string].  A null [buffer] is [None]; the result is the
    buffer after the call and the [int] returned. *)
Definition listing_report (L : Libc) (T : listing) (g : memm_t)
    (buffer : option (list ascii)) (buffer_size : Z) : option (list ascii) * Z :=
  match buffer with
  | None => (None, -1)
  | Some buffer =>
      if buffer_size =? 0 then (Some buffer, -1)
      else
        let (buffer, written) := snprintf L buffer 0 buffer_size (lst_header T) in
        if written <? 0 then (Some (store_nul buffer 0), -1)
        else if written >=? buffer_size then
          (Some (store_nul buffer (buffer_size - 1)), int_wrap (buffer_size - 1))
        else
          let s := mk_lstate buffer written (size_sub buffer_size written)
                             (int_add 0 written) 0 0 in
          let s := listing_table L T (hash_table g) s in
          let s :=
            if (ls_total_count s =? 0) && (ls_remaining s >? 1) then
              listing_summary L (lst_none T) s
            else if ls_remaining s >? 1 then
              listing_summary L (lst_total T (ls_total_count s) (ls_total_bytes s)) s
            else s in
          let buffer :=
            if (ls_remaining s =? 0) && (buffer_size >? 0)
            then store_nul (ls_buffer s) (buffer_size - 1)
            else ls_buffer s in
          (Some buffer, ls_total_written s)
  end.

(** The records a listing report lists when the capacity is no limit:
    in each chain, the records before the first one whose line
    [snprintf] cannot render (at that one the inner loop is left). *)
Fixpoint listed_chain (T : listing) (chain : list memm_allocation)
  : list memm_allocation :=
  match chain with
  | [] => []
  | a :: next =>
      if renders (lst_line T a) then a :: listed_chain T next else []
  end.
Definition listed (T : listing) (g : memm_t) : list memm_allocation :=
  concat (map (listed_chain T) (hash_table g)).

(** Every record has a line that [snprintf] renders. *)
Definition all_render (T : listing) (g : memm_t) : bool :=
  forallb (fun a => renders (lst_line T a)) (concat (hash_table g)).

(** The whole text a listing report renders when nothing is cut: header,
    one line per listed record in traversal order, closing line. *)
Definition listing_count (records : list memm_allocation) : Z :=
  fold_left (fun n _ => size_add n 1) records 0.
Definition listing_bytes (records : list memm_allocation) : Z :=
  fold_left (fun n a => size_add n (alloc_size a)) records 0.
Definition listing_of (T : listing) (records : list memm_allocation)
  : list ascii :=
  lst_header T ++ concat (map (lst_line T) records) ++
  (if listing_count records =? 0 then lst_none T
   else lst_total T (listing_count records) (listing_bytes records)).
Definition listing_text (T : listing) (g : memm_t) : list ascii :=
  listing_of T (listed T g).

(** The texts of a listing other than the lines of the records are
    rendered by [snprintf]. *)
Definition frame_renders (T : listing) : Prop :=
  renders (lst_header T) = true /\
  renders (lst_none T) = true /\
  forall n b, is_size_t n -> is_size_t b -> renders (lst_total T n b) = true.

(** The listing as the specification describes it (section 4.3): header,
    one line per live record in iteration order, closing line. *)
Definition full_listing_text (T : listing) (g : memm_t) : list ascii :=
  listing_of T (concat (hash_table g)).

Section Memm.

Context (L : Libc).

(** The program state: the global [g_memm], the allocator underneath, and
    the log of the calls made to it. *)
Record world := mk_world {
  g_memm : memm_t;
  heap : libc_state L;
  calls : list libc_call
}.

Definition with_memm (w : world) (g : memm_t) : world :=
  mk_world g (heap w) (calls w).

Definition malloc (size : Z) (w : world) : Z * world :=
  let (p, h) := real_malloc L size (heap w) in
  (p, mk_world (g_memm w) h (calls w ++ [CallMalloc size p])).

Definition calloc (num size : Z) (w : world) : Z * world :=
  let (p, h) := real_calloc L num size (heap w) in
  (p, mk_world (g_memm w) h (calls w ++ [CallCalloc num size p])).

Definition realloc (ptr size : Z) (w : world) : Z * world :=
  let (p, h) := real_realloc L ptr size (heap w) in
  (p, mk_world (g_memm w) h (calls w ++ [CallRealloc ptr size p])).

Definition free (ptr : Z) (w : world) : world :=
  mk_world (g_memm w) (real_free L ptr (heap w)) (calls w ++ [CallFree ptr]).

Definition time (w : world) : Z * world :=
  let (t, h) := real_time L (heap w) in
  (t, mk_world (g_memm w) h (calls w)).

(** ** Registry *)

(** [memm_register_allocation]. *)
Definition memm_register_allocation
    (ptr size : Z) (file : string) (line : Z) (w : world) : world :=
  if ptr =? NULL then w
  else
    let hash := memm_hash_ptr ptr in
    let (alloc, w1) := malloc sizeof_memm_allocation w in
    if alloc =? NULL then w1
    else
      let (now, w2) := time w1 in
      let g := g_memm w2 in
      let node := mk_allocation alloc ptr size file line now in
      let g := set_bucket g hash (node :: bucket g hash) in
      let total_allocated' := size_add (total_allocated g) size in
      let allocation_count' := size_add (allocation_count g) 1 in
      let current_usage := size_sub total_allocated' (total_freed g) in
      let peak_memory' :=
        if current_usage >? peak_memory g then current_usage
        else peak_memory g in
      with_memm w2
        (mk_memm (hash_table g) total_allocated' (total_freed g)
                 peak_memory' allocation_count' (free_count g)).

(** [memm_unregister_allocation]. *)
Definition memm_unregister_allocation
    (ptr : Z) (file : string) (line : Z) (w : world) : bool * world :=
  if ptr =? NULL then (true, w)
  else
    let hash := memm_hash_ptr ptr in
    let g := g_memm w in
    match unlink ptr (bucket g hash) with
    | Some (to_free, chain') =>
        let g := set_bucket g hash chain' in
        let g := mk_memm (hash_table g) (total_allocated g)
                         (size_add (total_freed g) (alloc_size to_free))
                         (peak_memory g) (allocation_count g)
                         (size_add (free_count g) 1) in
        (true, free (alloc_node to_free) (with_memm w g))
    | None => (false, w)
    end.

(** ** Tracked allocation API *)

(** [memm_init]. *)
Definition memm_init (w : world) : world := with_memm w memm_zero.

(** [memm_shutdown]: every node is released, bucket after bucket, and
    every bucket is reset; the counters are left as they are. *)
Definition memm_shutdown (w : world) : world :=
  let w1 := fold_left (fun w' current => free (alloc_node current) w')
                      (iterate (g_memm w)) w in
  let g := g_memm w1 in
  with_memm w1
    (mk_memm (map (fun _ => []) (hash_table g))
             (total_allocated g) (total_freed g) (peak_memory g)
             (allocation_count g) (free_count g)).

(** [memm_malloc]. *)
Definition memm_malloc (size : Z) (file : string) (line : Z) (w : world)
  : Z * world :=
  let (ptr, w1) := malloc size w in
  if ptr =? NULL then (ptr, w1)
  else (ptr, memm_register_allocation ptr size file line w1).

(** [memm_calloc]. *)
Definition memm_calloc (num size : Z) (file : string) (line : Z) (w : world)
  : Z * world :=
  let (ptr, w1) := calloc num size w in
  if ptr =? NULL then (ptr, w1)
  else (ptr, memm_register_allocation ptr (size_mul num size) file line w1).

(** [memm_realloc]. *)
Definition memm_realloc (ptr size : Z) (file : string) (line : Z) (w : world)
  : Z * world :=
  let w1 :=
    if ptr =? NULL then w
    else snd (memm_unregister_allocation ptr file line w) in
  let (new_ptr, w2) := realloc ptr size w1 in
  if new_ptr =? NULL then (new_ptr, w2)
  else (new_ptr, memm_register_allocation new_ptr size file line w2).

(** [memm_free]: both branches of the source forward the release. *)
Definition memm_free (ptr : Z) (file : string) (line : Z) (w : world) : world :=
  let (found, w1) := memm_unregister_allocation ptr file line w in
  if found then free ptr w1 else free ptr w1.

(** [memm_get_current_usage] and the other getters. *)
Definition memm_get_current_usage (g : memm_t) : Z :=
  size_sub (total_allocated g) (total_freed g).
Definition memm_get_peak_usage (g : memm_t) : Z := peak_memory g.
Definition memm_get_allocation_count (g : memm_t) : Z := allocation_count g.
Definition memm_get_free_count (g : memm_t) : Z := free_count g.

(** ** Report formatter *)

(** The rendering of the format of [memm_get_stats_string] with its eight
    arguments. *)
Definition stats_text (g : memm_t) : list ascii :=
  lit "=== MEMORY STATISTICS ===" ++ nl ++
  lit "Total allocated:      " ++ fmt_zu (total_allocated g) ++ lit " bytes" ++ nl ++
  lit "Total freed:          " ++ fmt_zu (total_freed g) ++ lit " bytes" ++ nl ++
  lit "Current usage:        " ++ fmt_zu (memm_get_current_usage g) ++ lit " bytes" ++ nl ++
  lit "Peak memory usage:    " ++ fmt_zu (memm_get_peak_usage g) ++ lit " bytes" ++ nl ++
  lit "Allocation calls:     " ++ fmt_zu (memm_get_allocation_count g) ++ nl ++
  lit "Free calls:           " ++ fmt_zu (memm_get_free_count g) ++ nl ++
  lit "Potential leaks:      " ++
    fmt_zu (size_sub (memm_get_allocation_count g) (memm_get_free_count g)) ++
    lit " objects" ++ nl ++
  lit "Hash table size:      " ++ fmt_d MEMM_HASH_TABLE_SIZE ++ lit " buckets" ++ nl.

(** [memm_get_stats_string]. *)
Definition memm_get_stats_string (g : memm_t)
    (buffer : option (list ascii)) (buffer_size : Z) : option (list ascii) * Z :=
  match buffer with
  | None => (None, -1)
  | Some buffer =>
      if buffer_size <=? 0 then (Some buffer, -1)
      else
        let (buffer, written) := snprintf L buffer 0 buffer_size (stats_text g) in
        if written <? 0 then (Some (store_nul buffer 0), -1)
        else if written >=? buffer_size then
          (Some (store_nul buffer (buffer_size - 1)), int_wrap (buffer_size - 1))
        else (Some buffer, written)
  end.

Definition allocations_listing : listing :=
  mk_listing
    (lit "=== CURRENT ALLOCATIONS ===" ++ nl)
    (fun current =>
       lit "  " ++ print_ptr L (alloc_ptr current) ++ lit ": " ++
       fmt_6zu (alloc_size current) ++ lit " bytes @ " ++
       lit (alloc_file current) ++ lit ":" ++ fmt_d (alloc_line current) ++ nl)
    (lit "  No active allocations" ++ nl)
    (fun total_count total_bytes =>
       lit "  Total: " ++ fmt_zu total_count ++ lit " allocations, " ++
       fmt_zu total_bytes ++ lit " bytes" ++ nl).

Definition leaks_listing : listing :=
  mk_listing
    (lit "=== MEMORY LEAK REPORT ===" ++ nl)
    (fun current =>
       lit "  LEAK: " ++ fmt_6zu (alloc_size current) ++ lit " bytes at " ++
       print_ptr L (alloc_ptr current) ++ lit " (" ++
       lit (alloc_file current) ++ lit ":" ++ fmt_d (alloc_line current) ++
       lit ")" ++ nl)
    (lit "  No memory leaks detected!" ++ nl)
    (fun leak_count leak_bytes =>
       lit "  TOTAL LEAKS: " ++ fmt_zu leak_count ++ lit " allocations, " ++
       fmt_zu leak_bytes ++ lit " bytes" ++ nl).

(** [memm_get_allocations_string]. *)
Definition memm_get_allocations_string := listing_report L allocations_listing.

(** [memm_get_leaks_string]. *)
Definition memm_get_leaks_string := listing_report L leaks_listing.

(** ** Sequences of tracked calls *)

Inductive call :=
| Malloc (size : Z) (file : string) (line : Z)
| Calloc (num size : Z) (file : string) (line : Z)
| Realloc (ptr size : Z) (file : string) (line : Z)
| Free (ptr : Z) (file : string) (line : Z).

Definition step (c : call) (w : world) : world :=
  match c with
  | Malloc size file line => snd (memm_malloc size file line w)
  | Calloc num size file line => snd (memm_calloc num size file line w)
  | Realloc ptr size file line => snd (memm_realloc ptr size file line w)
  | Free ptr file line => memm_free ptr file line w
  end.

Fixpoint run (cs : list call) (w : world) : world :=
  match cs with
  | [] => w
  | c :: cs' => run cs' (step c w)
  end.

(** The size arguments of a call are [size_t] values. *)
Definition is_size_tb (z : Z) : bool := (0 <=? z) && (z <? SIZE_MOD).
Definition call_sizes_ok (c : call) : bool :=
  match c with
  | Malloc size _ _ => is_size_tb size
  | Calloc num size _ _ => is_size_tb num && is_size_tb size
  | Realloc _ size _ _ => is_size_tb size
  | Free _ _ _ => true
  end.

(** Along the run of [cs] from [w], [total_allocated] never wraps around:
    no call leaves it smaller than it found it. *)
Fixpoint allocated_never_wraps (cs : list call) (w : world) : bool :=
  match cs with
  | [] => true
  | c :: cs' =>
      (total_allocated (g_memm w) <=? total_allocated (g_memm (step c w)))
      && allocated_never_wraps cs' (step c w)
  end.

End Memm.

Arguments g_memm {L} w.
Arguments heap {L} w.
Arguments calls {L} w.
Arguments mk_world {L} g_memm heap calls.

(** ** A C library for examples

    The allocator state is a script: the list of the addresses the next
    allocation requests will return ([malloc], [calloc] and [realloc]
    alike, the requests the registry makes for its own nodes included);
    once the script is used up every request fails.  [%p] is rendered the
    way glibc does, and a failing [snprintf] has stored what glibc stores:
    the rendering cut to the bound, and a null. *)

Definition glibc_print_ptr (p : Z) : list ascii :=
  if p =? NULL then lit "(nil)"
  else lit "0x" ++
       lit (HexadecimalString.NilZero.string_of_uint (N.to_hex_uint (Z.to_N p))).

Definition scripted : Libc :=
  mk_libc (list Z)
    (fun _ script => (hd NULL script, tl script))
    (fun _ _ script => (hd NULL script, tl script))
    (fun _ _ script => (hd NULL script, tl script))
    (fun _ script => script)
    (fun script => (1700000000, script))
    glibc_print_ptr
    (fun n out => take (Z.to_nat (n - 1)) out ++ [NUL]).

(** The zeroed program started on a script. *)
Definition boot (script : list Z) : world scripted :=
  @mk_world scripted memm_zero script [].

(** ** Predicates used by the statements *)

(** The representation invariant of the table: it has
    [MEMM_HASH_TABLE_SIZE] buckets and every node sits in the bucket its
    address hashes to. *)
Definition table_ok (g : memm_t) : Prop :=
  length (hash_table g) = Z.to_nat MEMM_HASH_TABLE_SIZE /\
  forall (i : nat) (chain : list memm_allocation) (r : memm_allocation),
    hash_table g !! i = Some chain -> In r chain ->
    memm_hash_ptr (alloc_ptr r) = Z.of_nat i.

(** [ptr] has a live record: some traversal of the table meets a node
    for it. *)
Definition tracked (g : memm_t) (ptr : Z) : bool :=
  existsb (fun r => alloc_ptr r =? ptr) (iterate g).

(** The bytes the registry believes live: the sizes of all records, as an
    unbounded integer. *)
Definition sum_sizes (records : list memm_allocation) : Z :=
  fold_right (fun r acc => alloc_size r + acc) 0 records.
Definition live_bytes (g : memm_t) : Z := sum_sizes (iterate g).

(** At every state the run of [cs] from [w] goes through, the sizes of the
    live records add up to less than [2^64]: the tracked blocks fit in the
    address space. *)
Fixpoint live_bytes_fit {L : Libc} (cs : list call) (w : world L) : bool :=
  (live_bytes (g_memm w) <? SIZE_MOD) &&
  match cs with
  | [] => true
  | c :: cs' => live_bytes_fit cs' (step L c w)
  end.

(** What the counters always satisfy: they are [size_t] values, every
    recorded size is one, and [total_allocated - total_freed], computed
    in [size_t], is the number of live bytes modulo [2^64]. *)
Record counters_ok (g : memm_t) : Prop := mk_counters_ok {
  co_table : table_ok g;
  co_sizes : Forall (fun r => is_size_t (alloc_size r)) (iterate g);
  co_allocated : is_size_t (total_allocated g);
  co_freed : is_size_t (total_freed g);
  co_usage : size_sub (total_allocated g) (total_freed g) = live_bytes g mod SIZE_MOD
}.

(** ** Buffers *)

(** The buffer is null-terminated within its capacity. *)
Definition null_terminated (buffer : list ascii) (buffer_size : Z) : Prop :=
  exists i : nat, Z.of_nat i < buffer_size /\ buffer !! i = Some NUL.

(** What a report that renders [text] leaves in a buffer [b0] of capacity
    [cap]: the first [cap - 1] characters of [text], a terminating null,
    and behind it the bytes that were there before. *)
Definition rendered (text : list ascii) (cap : Z) (b0 : list ascii) : list ascii :=
  let cut := take (Z.to_nat (cap - 1)) text in
  cut ++ NUL :: drop (S (length cut)) b0.

(** A buffer [b] in which a report that had [b0] to write into has left
    [text] cut to the capacity: its first characters are those of [text],
    then comes a null, and the buffer has kept its length and its bytes
    behind the capacity. *)
Definition holds_text (text : list ascii) (cap : Z) (b0 b : list ascii) : Prop :=
  let cut := take (Z.to_nat (cap - 1)) text in
  take (length cut) b = cut /\
  b !! length cut = Some NUL /\
  length b = length b0 /\
  drop (Z.to_nat cap) b = drop (Z.to_nat cap) b0.

(** The loop invariant of a listing report writing into [b0]: after the
    text [E] has been sent to the buffer, the buffer starts with [E] cut
    to the capacity, the cursor is behind it, and [remaining] and
    [total_written] agree with the cursor.  At the cursor there is the
    terminating null, unless a call of [snprintf] has failed there, in
    which case there is room left and the next call will store one.
    [clean] says that no call has failed so far: then the bytes behind
    the null are still those of [b0]. *)
Definition lstate_holds (clean : bool) (b0 : list ascii) (cap : Z)
    (E : list ascii) (s : lstate) : Prop :=
  let cut := take (Z.to_nat (cap - 1)) E in
  take (length cut) (ls_buffer s) = cut /\
  length (ls_buffer s) = length b0 /\
  drop (Z.to_nat cap) (ls_buffer s) = drop (Z.to_nat cap) b0 /\
  (ls_buffer s !! length cut = Some NUL \/ ls_remaining s > 1) /\
  (clean = true -> ls_buffer s = cut ++ NUL :: drop (S (length cut)) b0) /\
  ls_cursor s = Z.of_nat (length cut) /\
  ls_remaining s = cap - Z.of_nat (length cut) /\
  ls_total_written s = int_wrap (Z.of_nat (length cut)).

(** The type of a report function: the registry, the buffer ([None] for a
    null pointer) and its capacity to the buffer afterwards and the [int]
    returned. *)
Definition report_fn : Type :=
  memm_t -> option (list ascii) -> Z -> option (list ascii) * Z.

(** [report] leaves a buffer of capacity [buffer_size] null-terminated:
    there is a null within the capacity, the buffer keeps its length and
    nothing behind the capacity is touched.  When the capacity is a value
    of type [int], the null is at the index that is returned, or at the
    start of the buffer when [-1] is returned. *)
Definition leaves_terminated (report : report_fn) (g : memm_t)
    (buffer : list ascii) (buffer_size : Z) : Prop :=
  exists buffer',
    fst (report g (Some buffer) buffer_size) = Some buffer' /\
    null_terminated buffer' buffer_size /\
    length buffer' = length buffer /\
    drop (Z.to_nat buffer_size) buffer' = drop (Z.to_nat buffer_size) buffer /\
    (buffer_size <= INT_MAX ->
     let returned := snd (report g (Some buffer) buffer_size) in
     (returned = -1 /\ buffer' !! 0%nat = Some NUL) \/
     (0 <= returned < buffer_size /\
      buffer' !! Z.to_nat returned = Some NUL)).

(** [report] answers a null buffer, and a capacity of zero, with the
    negative sentinel [-1] and stores nothing. *)
Definition refuses (report : report_fn) (g : memm_t) (buffer : list ascii) : Prop :=
  (forall n, report g None n = (None, -1)) /\
  report g (Some buffer) 0 = (Some buffer, -1).

(** [report] cuts [text] to the capacity: it returns the capacity minus
    one, and the buffer holds that many characters of [text] and then a
    null. *)
Definition truncates (report : report_fn) (text : list ascii) (g : memm_t)
    (buffer : list ascii) (buffer_size : Z) : Prop :=
  exists buffer',
    report g (Some buffer) buffer_size = (Some buffer', buffer_size - 1) /\
    take (Z.to_nat (buffer_size - 1)) buffer' =
      take (Z.to_nat (buffer_size - 1)) text /\
    buffer' !! Z.to_nat (buffer_size - 1) = Some NUL.

(** The five counters are [size_t] values, as the members of [memm_t]
    are declared. *)
Definition counters_in_range (g : memm_t) : Prop :=
  is_size_t (total_allocated g) /\ is_size_t (total_freed g) /\
  is_size_t (peak_memory g) /\ is_size_t (allocation_count g) /\
  is_size_t (free_count g).

(** ** Example runs on the scripted library *)

(** The scenario of the specification: three blocks of 10, 20 and 30 bytes
    from three call sites, the second one released. *)
Definition example_script : list Z :=
  [4096; 100000; 8192; 100048; 12288; 100096].
Definition example_calls : list call :=
  [Malloc 10 "a.c" 1; Malloc 20 "b.c" 2; Malloc 30 "c.c" 3; Free 8192 "d.c" 4].
Definition example_world : world scripted :=
  run scripted example_calls (boot example_script).

(** One block of 100 bytes at address 4096; the script has one more
    address to hand out, so that a resize succeeds and the request for the
    node of the new record fails. *)
Definition one_block_world : world scripted :=
  run scripted [Malloc 100 "a.c" 1] (boot [4096; 65536; 8192]).
Definition one_block_record : memm_allocation :=
  mk_allocation 65536 4096 100 "a.c" 1 1700000000.

(** The same block, with a script that also has a node for the resized
    block. *)
Definition resizable_world : world scripted :=
  run scripted [Malloc 100 "a.c" 1] (boot [4096; 65536; 8192; 65600]).

(** Blocks of [2^62] bytes allocated and released in turn, each at the
    address the previous one had: by the fourth allocation
    [total_allocated] has gone round. *)
Definition churn_script : list Z :=
  [4096; 65536; 4096; 65536; 4096; 65536; 4096; 65536].
Definition churn_calls : list call :=
  [Malloc (2 ^ 62) "big.c" 1; Free 4096 "big.c" 2;
   Malloc (2 ^ 62) "big.c" 1; Free 4096 "big.c" 2;
   Malloc (2 ^ 62) "big.c" 1; Free 4096 "big.c" 2;
   Malloc (2 ^ 62) "big.c" 1].

(** Three rounds of the same, then a block of [2^62 - 1] bytes:
    [total_allocated] is [2^64 - 1]. *)
Definition brim_world : world scripted :=
  run scripted
    [Malloc (2 ^ 62) "big.c" 1; Free 4096 "big.c" 2;
     Malloc (2 ^ 62) "big.c" 1; Free 4096 "big.c" 2;
     Malloc (2 ^ 62) "big.c" 1; Free 4096 "big.c" 2;
     Malloc (2 ^ 62 - 1) "big.c" 1]
    (boot [4096; 65536; 4096; 65536; 4096; 65536; 4096; 65536; 8192; 65600]).

(** Two live records whose sizes add up to [2^64], then the first one
    released. *)
Definition overlap_script : list Z := [4096; 65536; 8192; 65600].
Definition overlap_calls : list call :=
  [Malloc (2 ^ 62) "big.c" 1; Malloc (3 * 2 ^ 62) "big.c" 2; Free 4096 "big.c" 3].

(** A registry that holds a record for address 4096 while the library is
    about to hand that address out again (the block was released behind
    the registry's back), with and without a node for the new record. *)
Definition stale_world : world scripted :=
  run scripted [Malloc 16 "a.c" 1] (boot [4096; 65536; 4096; 65600]).
Definition stale_world_no_node : world scripted :=
  run scripted [Malloc 16 "a.c" 1] (boot [4096; 65536; 4096]).

(** Two records for address 4096, and a library that has nothing left to
    hand out. *)
Definition shadowed_world : world scripted :=
  run scripted [Malloc 16 "a.c" 1; Malloc 32 "b.c" 2]
      (boot [4096; 65536; 4096; 65600]).

Definition sixty_four_bytes : list ascii := replicate 64 "x"%char.

(** The name of a file that has [2^31] characters, one more than
    [INT_MAX]. *)
Definition overlong_file : string :=
  string_of_list_ascii (replicate (Z.to_nat (2 ^ 31)) "x"%char).

(** ** Further definitions: records of an address, C strings, the print
    macros *)

From Stdlib Require DecimalFacts DecimalPos DecimalN.

(** The live records for [ptr], in traversal order. *)
Definition records_of (g : memm_t) (ptr : Z) : list memm_allocation :=
  List.filter (fun r => alloc_ptr r =? ptr) (iterate g).

(** The five counters of a state. *)
Definition counters (g : memm_t) : Z * Z * Z * Z * Z :=
  (total_allocated g, total_freed g, peak_memory g,
   allocation_count g, free_count g).

(** The C string a buffer holds: its bytes up to the first null. *)
Fixpoint c_string (buffer : list ascii) : list ascii :=
  match buffer with
  | [] => []
  | c :: rest => if Ascii.eqb c NUL then [] else c :: c_string rest
  end.

(** [MEMM_MAX_STRING_LENGTH] (memm.h), the size of the local buffer of the
    print macros. *)
Definition MEMM_MAX_STRING_LENGTH : Z := 2048.

(** The body shared by the macros [memm_print_stats],
    [memm_print_allocations] and [memm_print_leaks] (memm.h):
    [char _buf[MEMM_MAX_STRING_LENGTH]; if (report(_buf, sizeof(_buf)) > 0)
    printf("%s", _buf);].  [_buf] is the content the uninitialised local
    array happens to have; the result is the text sent to the standard
    output. *)
Definition print_report (report : report_fn) (g : memm_t) (_buf : list ascii)
  : list ascii :=
  let (buffer, written) := report g (Some _buf) (Z.of_nat (length _buf)) in
  if written >? 0 then
    match buffer with
    | Some buffer => c_string buffer
    | None => []
    end
  else [].

Definition memm_print_stats (L : Libc) (g : memm_t) (_buf : list ascii)
  : list ascii :=
  print_report (memm_get_stats_string L) g _buf.
Definition memm_print_allocations (L : Libc) (g : memm_t) (_buf : list ascii)
  : list ascii :=
  print_report (memm_get_allocations_string L) g _buf.
Definition memm_print_leaks (L : Libc) (g : memm_t) (_buf : list ascii)
  : list ascii :=
  print_report (memm_get_leaks_string L) g _buf.


(** [text] holds no null character, as every C string does. *)
Definition no_nul (text : list ascii) : bool :=
  forallb (fun c => negb (Ascii.eqb c NUL)) text.

(** [report] has stored the whole [text] and its terminating null in a
    buffer of capacity [buffer_size] and returned the length of [text];
    the buffer has kept its length and its bytes behind the capacity. *)
Definition stores_whole (report : report_fn) (text : list ascii) (g : memm_t)
    (buffer : list ascii) (buffer_size : Z) : Prop :=
  exists buffer',
    report g (Some buffer) buffer_size =
      (Some buffer', Z.of_nat (length text)) /\
    take (S (length text)) buffer' = text ++ [NUL] /\
    length buffer' = length buffer /\
    drop (Z.to_nat buffer_size) buffer' = drop (Z.to_nat buffer_size) buffer.

(** A registry that holds a record of 50 bytes for address 8192 and one
    of 100 bytes for address 4096, while the library is about to hand
    out 8192 again (the block there was released behind the registry's
    back). *)
Definition stale_target_world : world scripted :=
  run scripted [Malloc 50 "s.c" 1; Malloc 100 "a.c" 2]
      (boot [8192; 65536; 4096; 65600; 8192; 65664]).
Definition stale_target_old : memm_allocation :=
  mk_allocation 65600 4096 100 "a.c" 2 1700000000.

(** * Verification *)

(** ** Machine arithmetic *)

Lemma SIZE_MOD_pos : 0 < SIZE_MOD.
Proof. reflexivity. Qed.

Lemma size_add_range a b : is_size_t (size_add a b).
Proof. apply Z.mod_pos_bound, SIZE_MOD_pos. Qed.

Lemma size_sub_range a b : is_size_t (size_sub a b).
Proof. apply Z.mod_pos_bound, SIZE_MOD_pos. Qed.

Lemma size_mul_range a b : is_size_t (size_mul a b).
Proof. apply Z.mod_pos_bound, SIZE_MOD_pos. Qed.

(** Masking with [N - 1] is the remainder modulo [N] for every power of
    two [N]; the table size of the default configuration is [2^11]. *)
Lemma mask_is_mod (k ptr : Z) :
  0 <= k -> Z.land ptr (2 ^ k - 1) = ptr mod 2 ^ k.
Proof.
  intros Hk. rewrite <- Z.land_ones by exact Hk. f_equal.
  rewrite Z.ones_equiv. lia.
Qed.

Lemma memm_hash_ptr_mod ptr : memm_hash_ptr ptr = ptr mod MEMM_HASH_TABLE_SIZE.
Proof.
  unfold memm_hash_ptr.
  change MEMM_HASH_TABLE_SIZE with (2 ^ 11).
  apply mask_is_mod. lia.
Qed.

Lemma memm_hash_ptr_range ptr : 0 <= memm_hash_ptr ptr < MEMM_HASH_TABLE_SIZE.
Proof. rewrite memm_hash_ptr_mod. apply Z.mod_pos_bound. reflexivity. Qed.

(** ** Chains *)

(** What [unlink] finds is the first node for [ptr], and what it leaves is
    the chain without that node. *)
Lemma unlink_Some ptr chain to_free chain' :
  unlink ptr chain = Some (to_free, chain') ->
  exists before after,
    chain = before ++ to_free :: after /\
    chain' = before ++ after /\
    alloc_ptr to_free = ptr /\
    Forall (fun r => alloc_ptr r <> ptr) before.
Proof.
  revert to_free chain'.
  induction chain as [|current next IH]; intros to_free chain' H; simpl in H.
  - discriminate.
  - destruct (alloc_ptr current =? ptr) eqn:E.
    + inversion H; subst. exists [], chain'.
      apply Z.eqb_eq in E. repeat split; auto.
    + destruct (unlink ptr next) as [[r rest]|] eqn:U; [|discriminate].
      inversion H; subst.
      destruct (IH _ _ eq_refl) as (before & after & -> & -> & Hp & Hb).
      exists (current :: before), after. repeat split; auto.
      constructor; auto. apply Z.eqb_neq in E. exact E.
Qed.

Lemma unlink_None ptr chain :
  unlink ptr chain = None <-> Forall (fun r => alloc_ptr r <> ptr) chain.
Proof.
  induction chain as [|current next IH]; simpl.
  - split; auto.
  - destruct (alloc_ptr current =? ptr) eqn:E.
    + apply Z.eqb_eq in E. split; [discriminate|].
      intros H. inversion H; subst. contradiction.
    + apply Z.eqb_neq in E.
      destruct (unlink ptr next) as [[r rest]|].
      * split; [discriminate|]. intros H. inversion H; subst.
        destruct IH as [_ IH]. specialize (IH ltac:(assumption)). discriminate.
      * split; auto. intros _. constructor; auto. apply IH. reflexivity.
Qed.

Lemma bucket_in_iterate g i r : In r (bucket g i) -> In r (iterate g).
Proof.
  unfold bucket, iterate. intros H.
  destruct (hash_table g !! Z.to_nat i) as [chain|] eqn:E; simpl in H; [|contradiction].
  apply in_concat. exists chain. split; auto.
  apply list_elem_of_In. eapply list_elem_of_lookup_2; eauto.
Qed.

Lemma tracked_false g ptr :
  tracked g ptr = false <-> Forall (fun r => alloc_ptr r <> ptr) (iterate g).
Proof.
  unfold tracked. rewrite List.Forall_forall. split.
  - intros H r Hr Hp.
    assert (E : existsb (fun r => alloc_ptr r =? ptr) (iterate g) = true).
    { apply existsb_exists. exists r. split; auto. apply Z.eqb_eq, Hp. }
    congruence.
  - intros H.
    destruct (existsb (fun r => alloc_ptr r =? ptr) (iterate g)) eqn:E; auto.
    apply existsb_exists in E. destruct E as (r & Hr & Hp).
    apply Z.eqb_eq in Hp. exfalso. eapply H; eauto.
Qed.

Lemma untracked_unlink g ptr :
  tracked g ptr = false -> unlink ptr (bucket g (memm_hash_ptr ptr)) = None.
Proof.
  intros H. apply unlink_None, List.Forall_forall. intros r Hr.
  apply tracked_false in H. rewrite List.Forall_forall in H.
  apply H. eapply bucket_in_iterate; eauto.
Qed.

(** ** Release of an address the registry does not know *)

(** C4.  For a non-null address without a live record, the internal
    unregister returns false and changes nothing; the tracked release
    leaves the five counters and every bucket chain as they were, and the
    library receives exactly one call, [free(ptr)]. *)
Theorem release_untracked_forwards_once
    (L : Libc) (w : world L) (ptr : Z) (file : string) (line : Z) :
  ptr <> NULL ->
  tracked (g_memm w) ptr = false ->
  memm_unregister_allocation L ptr file line w = (false, w) /\
  let w' := memm_free L ptr file line w in
  total_allocated (g_memm w') = total_allocated (g_memm w) /\
  total_freed (g_memm w') = total_freed (g_memm w) /\
  peak_memory (g_memm w') = peak_memory (g_memm w) /\
  allocation_count (g_memm w') = allocation_count (g_memm w) /\
  free_count (g_memm w') = free_count (g_memm w) /\
  hash_table (g_memm w') = hash_table (g_memm w) /\
  calls w' = calls w ++ [CallFree ptr] /\
  heap w' = real_free L ptr (heap w).
Proof.
  intros Hnull Hun.
  assert (U : memm_unregister_allocation L ptr file line w = (false, w)).
  { unfold memm_unregister_allocation.
    apply Z.eqb_neq in Hnull. rewrite Hnull.
    rewrite (untracked_unlink _ _ Hun). reflexivity. }
  split; [exact U|].
  unfold memm_free. rewrite U. simpl. repeat split; reflexivity.
Qed.

(** C10.  For the null address the internal unregister answers true
    without touching anything; the tracked release leaves the registry and
    the five counters as they were ([free_count] included) and the library
    receives exactly one call, [free(NULL)]. *)
Theorem release_null_is_forwarded
    (L : Libc) (w : world L) (file : string) (line : Z) :
  memm_unregister_allocation L NULL file line w = (true, w) /\
  g_memm (memm_free L NULL file line w) = g_memm w /\
  free_count (g_memm (memm_free L NULL file line w)) = free_count (g_memm w) /\
  calls (memm_free L NULL file line w) = calls w ++ [CallFree NULL] /\
  heap (memm_free L NULL file line w) = real_free L NULL (heap w).
Proof.
  repeat split; reflexivity.
Qed.

(** C6.  When the library's [malloc] fails, [memm_malloc] returns null,
    the registry and all counters are unchanged, and the failed request is
    the only call made (no node is requested, nothing is registered). *)
Theorem allocate_failure_registers_nothing
    (L : Libc) (w : world L) (size : Z) (file : string) (line : Z) :
  fst (real_malloc L size (heap w)) = NULL ->
  fst (memm_malloc L size file line w) = NULL /\
  g_memm (snd (memm_malloc L size file line w)) = g_memm w /\
  iterate (g_memm (snd (memm_malloc L size file line w))) = iterate (g_memm w) /\
  calls (snd (memm_malloc L size file line w)) = calls w ++ [CallMalloc size NULL].
Proof.
  intros H. unfold memm_malloc, malloc.
  destruct (real_malloc L size (heap w)) as [p h]. simpl in H. subst p.
  simpl. repeat split; reflexivity.
Qed.

(** ** What register and unregister do *)

Lemma register_cases (L : Libc) (w : world L) ptr size file line :
  let w' := memm_register_allocation L ptr size file line w in
  let g := g_memm w in
  let g' := g_memm w' in
  let h := memm_hash_ptr ptr in
  let node_addr := fst (real_malloc L sizeof_memm_allocation (heap w)) in
  (ptr = NULL /\ w' = w) \/
  (ptr <> NULL /\ node_addr = NULL /\ g' = g /\
   calls w' = calls w ++ [CallMalloc sizeof_memm_allocation NULL]) \/
  (ptr <> NULL /\ node_addr <> NULL /\
   exists now,
     hash_table g' =
       <[Z.to_nat h := mk_allocation node_addr ptr size file line now :: bucket g h]>
         (hash_table g) /\
     total_allocated g' = size_add (total_allocated g) size /\
     total_freed g' = total_freed g /\
     peak_memory g' =
       Z.max (peak_memory g) (size_sub (total_allocated g') (total_freed g)) /\
     allocation_count g' = size_add (allocation_count g) 1 /\
     free_count g' = free_count g /\
     calls w' = calls w ++ [CallMalloc sizeof_memm_allocation node_addr]).
Proof.
  unfold memm_register_allocation, malloc, time. simpl.
  destruct (ptr =? NULL) eqn:Hp.
  - left. apply Z.eqb_eq in Hp. auto.
  - apply Z.eqb_neq in Hp. right.
    destruct (real_malloc L sizeof_memm_allocation (heap w)) as [alloc h1]. simpl.
    destruct (alloc =? NULL) eqn:Ha.
    + left. apply Z.eqb_eq in Ha. subst alloc. simpl. auto.
    + right. apply Z.eqb_neq in Ha.
      destruct (real_time L h1) as [now h2]. simpl.
      split; [exact Hp|]. split; [exact Ha|]. exists now.
      repeat split; try reflexivity.
      destruct (Z.gtb_spec (size_sub (size_add (total_allocated (g_memm w)) size)
                                     (total_freed (g_memm w)))
                           (peak_memory (g_memm w))); lia.
Qed.

Lemma unregister_cases (L : Libc) (w : world L) ptr file line :
  let found := fst (memm_unregister_allocation L ptr file line w) in
  let w' := snd (memm_unregister_allocation L ptr file line w) in
  let g := g_memm w in
  let g' := g_memm w' in
  let h := memm_hash_ptr ptr in
  (ptr = NULL /\ found = true /\ w' = w) \/
  (ptr <> NULL /\ unlink ptr (bucket g h) = None /\ found = false /\ w' = w) \/
  (ptr <> NULL /\
   exists to_free chain',
     unlink ptr (bucket g h) = Some (to_free, chain') /\
     found = true /\
     hash_table g' = <[Z.to_nat h := chain']> (hash_table g) /\
     total_allocated g' = total_allocated g /\
     total_freed g' = size_add (total_freed g) (alloc_size to_free) /\
     peak_memory g' = peak_memory g /\
     allocation_count g' = allocation_count g /\
     free_count g' = size_add (free_count g) 1 /\
     calls w' = calls w ++ [CallFree (alloc_node to_free)] /\
     heap w' = real_free L (alloc_node to_free) (heap w)).
Proof.
  unfold memm_unregister_allocation. simpl.
  destruct (ptr =? NULL) eqn:Hp.
  - left. apply Z.eqb_eq in Hp. auto.
  - apply Z.eqb_neq in Hp. right.
    destruct (unlink ptr (bucket (g_memm w) (memm_hash_ptr ptr)))
      as [[to_free chain']|] eqn:U.
    + right. split; [exact Hp|]. exists to_free, chain'. simpl.
      repeat split; reflexivity.
    + left. auto.
Qed.

(** ** The bucket invariant *)

Lemma hash_index_lt g ptr :
  length (hash_table g) = Z.to_nat MEMM_HASH_TABLE_SIZE ->
  (Z.to_nat (memm_hash_ptr ptr) < length (hash_table g))%nat.
Proof.
  intros ->. pose proof (memm_hash_ptr_range ptr). lia.
Qed.

Lemma bucket_lookup g (i : nat) chain :
  hash_table g !! i = Some chain -> bucket g (Z.of_nat i) = chain.
Proof. unfold bucket. rewrite Nat2Z.id. intros ->. reflexivity. Qed.

Lemma table_ok_zero : table_ok memm_zero.
Proof.
  split.
  - unfold memm_zero. cbn [hash_table]. apply length_replicate.
  - intros i chain r H Hin. unfold memm_zero in H. cbn [hash_table] in H.
    apply lookup_replicate_1 in H. destruct H as [-> _]. contradiction.
Qed.

Lemma table_ok_insert g (i : nat) chain counters_of :
  table_ok g ->
  (forall r, In r chain -> memm_hash_ptr (alloc_ptr r) = Z.of_nat i) ->
  hash_table counters_of = <[i := chain]> (hash_table g) ->
  table_ok counters_of.
Proof.
  intros [Hlen Hin] Hchain Ht. split.
  - rewrite Ht, length_insert. exact Hlen.
  - intros j chain_j r Hj Hr. rewrite Ht in Hj.
    destruct (decide (i = j)) as [->|Hne].
    + destruct (decide (j < length (hash_table g))%nat) as [Hlt|Hge].
      * rewrite list_lookup_insert_eq in Hj by exact Hlt.
        inversion Hj; subst. apply Hchain, Hr.
      * rewrite list_insert_ge in Hj by lia. eapply Hin; eauto.
    + rewrite list_lookup_insert_ne in Hj by exact Hne. eapply Hin; eauto.
Qed.

Lemma bucket_members_hash g ptr r :
  table_ok g -> In r (bucket g (memm_hash_ptr ptr)) ->
  memm_hash_ptr (alloc_ptr r) = memm_hash_ptr ptr.
Proof.
  intros [Hlen Hin] Hr. unfold bucket in Hr.
  destruct (hash_table g !! Z.to_nat (memm_hash_ptr ptr)) as [chain|] eqn:E;
    simpl in Hr; [|contradiction].
  rewrite (Hin _ _ _ E Hr). pose proof (memm_hash_ptr_range ptr). lia.
Qed.

Lemma register_table_ok (L : Libc) (w : world L) ptr size file line :
  table_ok (g_memm w) ->
  table_ok (g_memm (memm_register_allocation L ptr size file line w)).
Proof.
  intros Hok.
  destruct (register_cases L w ptr size file line)
    as [[_ ->]|[(_ & _ & -> & _)|(_ & _ & now & Ht & _)]]; auto.
  eapply table_ok_insert; [exact Hok| |exact Ht].
  intros r [<-|Hr]; simpl.
  - pose proof (memm_hash_ptr_range ptr). lia.
  - rewrite (bucket_members_hash _ _ _ Hok Hr).
    pose proof (memm_hash_ptr_range ptr). lia.
Qed.

Lemma unregister_table_ok (L : Libc) (w : world L) ptr file line :
  table_ok (g_memm w) ->
  table_ok (g_memm (snd (memm_unregister_allocation L ptr file line w))).
Proof.
  intros Hok.
  destruct (unregister_cases L w ptr file line)
    as [(_ & _ & ->)|[(_ & _ & _ & ->)|(_ & r & chain' & U & _ & Ht & _)]]; auto.
  eapply table_ok_insert; [exact Hok| |exact Ht].
  intros x Hx.
  destruct (unlink_Some _ _ _ _ U) as (before & after & Hc & -> & _ & _).
  assert (Hx' : In x (bucket (g_memm w) (memm_hash_ptr ptr))).
  { rewrite Hc. apply in_app_iff. apply in_app_iff in Hx.
    destruct Hx; [left|right; right]; auto. }
  rewrite (bucket_members_hash _ _ _ Hok Hx').
  pose proof (memm_hash_ptr_range ptr). lia.
Qed.

(** C8.  The zeroed table satisfies the bucket invariant, and from a table
    that satisfies it register and unregister both leave a table that
    satisfies it, so that after every register and unregister every live record
    with address [a] sits in bucket [hash(a)], where [hash(a)] is [a]
    masked with [N - 1], which is [a mod N].  Register changes only the
    bucket [hash(ptr)], putting the new node at its head; unregister
    searches only that bucket (its answer is the outcome of the scan of
    that chain) and changes only that bucket, leaving the chain without
    the node it found. *)
Theorem records_reside_in_their_hash_bucket
    (L : Libc) (w : world L) (ptr size : Z) (file : string) (line : Z) :
  table_ok (g_memm w) ->
  let registered := memm_register_allocation L ptr size file line w in
  let unregistered := memm_unregister_allocation L ptr file line w in
  table_ok memm_zero /\
  memm_hash_ptr ptr = Z.land ptr (MEMM_HASH_TABLE_SIZE - 1) /\
  memm_hash_ptr ptr = ptr mod MEMM_HASH_TABLE_SIZE /\
  MEMM_HASH_TABLE_SIZE = 2 ^ 11 /\
  table_ok (g_memm registered) /\
  table_ok (g_memm (snd unregistered)) /\
  (forall i : nat, Z.of_nat i <> memm_hash_ptr ptr ->
     hash_table (g_memm registered) !! i = hash_table (g_memm w) !! i /\
     hash_table (g_memm (snd unregistered)) !! i = hash_table (g_memm w) !! i) /\
  (ptr <> NULL ->
   fst (real_malloc L sizeof_memm_allocation (heap w)) <> NULL ->
   exists node,
     alloc_ptr node = ptr /\ alloc_size node = size /\
     bucket (g_memm registered) (memm_hash_ptr ptr) =
       node :: bucket (g_memm w) (memm_hash_ptr ptr)) /\
  (ptr <> NULL ->
   match unlink ptr (bucket (g_memm w) (memm_hash_ptr ptr)) with
   | Some (to_free, chain') =>
       fst unregistered = true /\
       bucket (g_memm (snd unregistered)) (memm_hash_ptr ptr) = chain'
   | None =>
       unregistered = (false, w)
   end).
Proof.
  intros Hok registered unregistered.
  pose proof (hash_index_lt (g_memm w) ptr (proj1 Hok)) as Hlt.
  pose proof (memm_hash_ptr_range ptr) as Hrange.
  split; [apply table_ok_zero|].
  split; [reflexivity|]. split; [apply memm_hash_ptr_mod|].
  split; [reflexivity|].
  split; [apply register_table_ok, Hok|].
  split; [apply unregister_table_ok, Hok|].
  split; [|split].
  - intros i Hi.
    assert (Hne : Z.to_nat (memm_hash_ptr ptr) <> i) by lia.
    split.
    + destruct (register_cases L w ptr size file line)
        as [[_ E]|[(_ & _ & E & _)|(_ & _ & now & Ht & _)]];
        fold registered in E || fold registered in Ht.
      * rewrite E. reflexivity.
      * rewrite E. reflexivity.
      * rewrite Ht. apply list_lookup_insert_ne, Hne.
    + destruct (unregister_cases L w ptr file line)
        as [(_ & _ & E)|[(_ & _ & _ & E)|(_ & r & chain' & _ & _ & Ht & _)]];
        fold unregistered in E || fold unregistered in Ht.
      * rewrite E. reflexivity.
      * rewrite E. reflexivity.
      * rewrite Ht. apply list_lookup_insert_ne, Hne.
  - intros Hp Hnode.
    destruct (register_cases L w ptr size file line)
      as [[E _]|[(_ & E & _)|(_ & _ & now & Ht & _)]]; try contradiction.
    fold registered in Ht.
    eexists. split; [|split]; [| |unfold bucket at 1; rewrite Ht;
      rewrite list_lookup_insert_eq by exact Hlt; reflexivity]; reflexivity.
  - intros Hp.
    destruct (unregister_cases L w ptr file line)
      as [(E & _)|[(_ & U & Hf & E)|(_ & r & chain' & U & Hf & Ht & _)]];
      try contradiction.
    + rewrite U. fold unregistered in Hf, E.
      destruct unregistered as [b w1]. simpl in *. congruence.
    + rewrite U. fold unregistered in Hf, Ht. split; [exact Hf|].
      unfold bucket at 1. rewrite Ht.
      rewrite list_lookup_insert_eq by exact Hlt. reflexivity.
Qed.

(** ** The records after a bucket is replaced *)

Lemma iterate_insert g g' (i : nat) chain chain' :
  hash_table g !! i = Some chain ->
  hash_table g' = <[i := chain']> (hash_table g) ->
  exists pre post,
    iterate g = pre ++ chain ++ post /\ iterate g' = pre ++ chain' ++ post.
Proof.
  intros Hi Ht.
  exists (concat (take i (hash_table g))), (concat (drop (S i) (hash_table g))).
  unfold iterate. split.
  - rewrite <- (take_drop_middle _ _ _ Hi) at 1.
    rewrite concat_app. reflexivity.
  - rewrite Ht, insert_take_drop by (eapply lookup_lt_Some; eauto).
    rewrite concat_app. reflexivity.
Qed.

Lemma bucket_Some g ptr :
  length (hash_table g) = Z.to_nat MEMM_HASH_TABLE_SIZE ->
  hash_table g !! Z.to_nat (memm_hash_ptr ptr) = Some (bucket g (memm_hash_ptr ptr)).
Proof.
  intros Hlen. unfold bucket.
  destruct (hash_table g !! Z.to_nat (memm_hash_ptr ptr)) eqn:E; [reflexivity|].
  apply lookup_ge_None in E. pose proof (hash_index_lt g ptr Hlen). lia.
Qed.

Lemma bucket_unlink_Some g ptr to_free chain' :
  unlink ptr (bucket g (memm_hash_ptr ptr)) = Some (to_free, chain') ->
  hash_table g !! Z.to_nat (memm_hash_ptr ptr) = Some (bucket g (memm_hash_ptr ptr)).
Proof.
  unfold bucket.
  destruct (hash_table g !! Z.to_nat (memm_hash_ptr ptr)); [reflexivity|].
  simpl. discriminate.
Qed.

Lemma sum_sizes_app l1 l2 : sum_sizes (l1 ++ l2) = sum_sizes l1 + sum_sizes l2.
Proof.
  induction l1 as [|r l1 IH]; simpl; [reflexivity|].
  unfold sum_sizes in *. simpl. rewrite IH. lia.
Qed.

Lemma sum_sizes_cons r l : sum_sizes (r :: l) = alloc_size r + sum_sizes l.
Proof. reflexivity. Qed.

Lemma sum_sizes_nonneg l :
  Forall (fun r => is_size_t (alloc_size r)) l -> 0 <= sum_sizes l.
Proof.
  induction 1 as [|r l Hr _ IH]; [reflexivity|].
  rewrite sum_sizes_cons. unfold is_size_t in Hr. lia.
Qed.

(** The records after a successful registration: the new node, at the
    head of its bucket. *)
Lemma register_iterate g g' ptr node :
  length (hash_table g) = Z.to_nat MEMM_HASH_TABLE_SIZE ->
  hash_table g' =
    <[Z.to_nat (memm_hash_ptr ptr) := node :: bucket g (memm_hash_ptr ptr)]>
      (hash_table g) ->
  exists pre post,
    iterate g = pre ++ post /\ iterate g' = pre ++ node :: post.
Proof.
  intros Hlen Ht.
  destruct (iterate_insert g g' _ _ _ (bucket_Some g ptr Hlen) Ht)
    as (pre & post & E & E').
  exists pre, (bucket g (memm_hash_ptr ptr) ++ post). split; assumption.
Qed.

(** The records after a successful unregistration: the first node for
    [ptr] in its bucket is gone, the others stay in order. *)
Lemma unregister_iterate g g' ptr to_free chain' :
  unlink ptr (bucket g (memm_hash_ptr ptr)) = Some (to_free, chain') ->
  hash_table g' = <[Z.to_nat (memm_hash_ptr ptr) := chain']> (hash_table g) ->
  exists pre post,
    iterate g = pre ++ to_free :: post /\ iterate g' = pre ++ post /\
    alloc_ptr to_free = ptr.
Proof.
  intros U Ht.
  destruct (iterate_insert g g' _ _ _ (bucket_unlink_Some g ptr _ _ U) Ht)
    as (pre & post & E & E').
  destruct (unlink_Some _ _ _ _ U) as (before & after & Hc & Hc' & Hp & _).
  exists (pre ++ before), (after ++ post).
  rewrite E, E', Hc, Hc'. rewrite <- !app_assoc. simpl. auto.
Qed.

(** ** Modular arithmetic of the counters *)

Lemma size_sub_add_l a b s :
  size_sub (size_add a s) b = (size_sub a b + s) mod SIZE_MOD.
Proof.
  unfold size_sub, size_add.
  rewrite Zminus_mod_idemp_l, Zplus_mod_idemp_l. f_equal. lia.
Qed.

Lemma size_sub_add_r a b s :
  size_sub a (size_add b s) = (size_sub a b - s) mod SIZE_MOD.
Proof.
  unfold size_sub, size_add.
  rewrite Zminus_mod_idemp_r, Zminus_mod_idemp_l. f_equal. lia.
Qed.

Lemma size_add_small a s :
  is_size_t a -> is_size_t s -> a <= size_add a s -> size_add a s = a + s.
Proof.
  unfold is_size_t, size_add. intros Ha Hs Hle.
  destruct (Z_lt_le_dec (a + s) SIZE_MOD) as [Hlt|Hge].
  - apply Z.mod_small. lia.
  - exfalso.
    assert (E : (a + s) mod SIZE_MOD = a + s - SIZE_MOD).
    { symmetry. apply Z.mod_unique with (q := 1); lia. }
    lia.
Qed.

Lemma is_size_tb_true z : is_size_tb z = true <-> is_size_t z.
Proof. unfold is_size_tb, is_size_t. lia. Qed.

(** ** The counter invariant *)

Lemma counters_ok_zero : counters_ok memm_zero.
Proof.
  assert (E : iterate memm_zero = []) by (vm_compute; reflexivity).
  split.
  - apply table_ok_zero.
  - rewrite E. constructor.
  - simpl. unfold is_size_t. split; [lia|reflexivity].
  - simpl. unfold is_size_t. split; [lia|reflexivity].
  - unfold live_bytes. rewrite E. reflexivity.
Qed.

Lemma register_counters_ok (L : Libc) (w : world L) ptr size file line :
  is_size_t size ->
  counters_ok (g_memm w) ->
  counters_ok (g_memm (memm_register_allocation L ptr size file line w)).
Proof.
  intros Hs Hok.
  pose proof (register_table_ok L w ptr size file line (co_table _ Hok)) as Htab.
  destruct (register_cases L w ptr size file line)
    as [[_ ->]|[(_ & _ & -> & _)|(_ & _ & now & Ht & Ha & Hf & _)]]; auto.
  destruct (register_iterate _ _ _ _ (proj1 (co_table _ Hok)) Ht)
    as (pre & post & E & E').
  pose proof (co_sizes _ Hok) as Hsz. rewrite E in Hsz.
  apply Forall_app in Hsz. destruct Hsz as [Hpre Hpost].
  split.
  - exact Htab.
  - rewrite E'. apply Forall_app. split; [exact Hpre|].
    constructor; [exact Hs|exact Hpost].
  - rewrite Ha. apply size_add_range.
  - rewrite Hf. apply (co_freed _ Hok).
  - rewrite Ha, Hf, size_sub_add_l, (co_usage _ Hok).
    unfold live_bytes. rewrite E, E', !sum_sizes_app, sum_sizes_cons. simpl.
    rewrite Zplus_mod_idemp_l. f_equal. lia.
Qed.

Lemma unregister_counters_ok (L : Libc) (w : world L) ptr file line :
  counters_ok (g_memm w) ->
  counters_ok (g_memm (snd (memm_unregister_allocation L ptr file line w))).
Proof.
  intros Hok.
  pose proof (unregister_table_ok L w ptr file line (co_table _ Hok)) as Htab.
  destruct (unregister_cases L w ptr file line)
    as [(_ & _ & ->)|[(_ & _ & _ & ->)
       |(_ & r & chain' & U & _ & Ht & Ha & Hf & _)]]; auto.
  destruct (unregister_iterate _ _ _ _ _ U Ht) as (pre & post & E & E' & _).
  pose proof (co_sizes _ Hok) as Hsz. rewrite E in Hsz.
  apply Forall_app in Hsz. destruct Hsz as [Hpre Hpost].
  inversion Hpost as [|? ? Hr Hpost']; subst.
  split.
  - exact Htab.
  - rewrite E'. apply Forall_app. split; assumption.
  - rewrite Ha. apply (co_allocated _ Hok).
  - rewrite Hf. apply size_add_range.
  - rewrite Ha, Hf, size_sub_add_r, (co_usage _ Hok).
    unfold live_bytes. rewrite E, E', !sum_sizes_app, sum_sizes_cons.
    rewrite Zminus_mod_idemp_l. f_equal. lia.
Qed.

(** ** The shape of a tracked call

    Every tracked call is: at most one unregister on the state it finds,
    then calls to the library that leave [g_memm] alone, then at most one
    register. *)

Lemma malloc_g_memm (L : Libc) (w : world L) size :
  g_memm (snd (malloc L size w)) = g_memm w.
Proof. unfold malloc. destruct (real_malloc L size (heap w)). reflexivity. Qed.

Lemma calloc_g_memm (L : Libc) (w : world L) num size :
  g_memm (snd (calloc L num size w)) = g_memm w.
Proof. unfold calloc. destruct (real_calloc L num size (heap w)). reflexivity. Qed.

Lemma realloc_g_memm (L : Libc) (w : world L) ptr size :
  g_memm (snd (realloc L ptr size w)) = g_memm w.
Proof. unfold realloc. destruct (real_realloc L ptr size (heap w)). reflexivity. Qed.

Lemma step_shape (L : Libc) (c : call) (w : world L) :
  exists w1 w2 : world L,
    (w1 = w \/
     exists ptr file line, w1 = snd (memm_unregister_allocation L ptr file line w)) /\
    g_memm w2 = g_memm w1 /\
    (g_memm (step L c w) = g_memm w2 \/
     exists ptr size file line,
       (call_sizes_ok c = true -> is_size_t size) /\
       step L c w = memm_register_allocation L ptr size file line w2).
Proof.
  destruct c as [size file line|num size file line
                |ptr size file line|ptr file line]; simpl in *.
  - exists w, (snd (malloc L size w)). split; [auto|].
    split; [apply malloc_g_memm|].
    unfold memm_malloc. destruct (malloc L size w) as [p w1]. simpl.
    destruct (p =? NULL); simpl; [auto|]. right. exists p, size, file, line.
    split; [apply is_size_tb_true|reflexivity].
  - exists w, (snd (calloc L num size w)). split; [auto|].
    split; [apply calloc_g_memm|].
    unfold memm_calloc. destruct (calloc L num size w) as [p w1]. simpl.
    destruct (p =? NULL); simpl; [auto|]. right.
    exists p, (size_mul num size), file, line.
    split; [intros _; apply size_mul_range|auto].
  - unfold memm_realloc.
    set (w1 := if ptr =? NULL then w
               else snd (memm_unregister_allocation L ptr file line w)).
    exists w1, (snd (realloc L ptr size w1)). split.
    { subst w1. destruct (ptr =? NULL); [auto|]. right. eauto. }
    split; [apply realloc_g_memm|].
    destruct (realloc L ptr size w1) as [p w2]. simpl.
    destruct (p =? NULL); simpl; [auto|]. right. exists p, size, file, line.
    split; [apply is_size_tb_true|reflexivity].
  - exists (snd (memm_unregister_allocation L ptr file line w)),
           (snd (memm_unregister_allocation L ptr file line w)).
    split; [right; eauto|]. split; [reflexivity|]. left.
    unfold memm_free.
    destruct (memm_unregister_allocation L ptr file line w) as [[|] w1];
      reflexivity.
Qed.

Lemma step_counters_ok (L : Libc) (c : call) (w : world L) :
  call_sizes_ok c = true ->
  counters_ok (g_memm w) -> counters_ok (g_memm (step L c w)).
Proof.
  intros Hc Hok.
  destruct (step_shape L c w) as (w1 & w2 & H1 & H2 & H3).
  assert (Hok1 : counters_ok (g_memm w1)).
  { destruct H1 as [->|(ptr & file & line & ->)]; auto.
    apply unregister_counters_ok, Hok. }
  rewrite <- H2 in Hok1.
  destruct H3 as [->|(ptr & size & file & line & Hs & ->)]; auto.
  apply register_counters_ok; auto.
Qed.

(** ** Peak memory *)

Lemma register_peak_monotone (L : Libc) (w : world L) ptr size file line :
  peak_memory (g_memm w) <=
  peak_memory (g_memm (memm_register_allocation L ptr size file line w)).
Proof.
  destruct (register_cases L w ptr size file line)
    as [[_ ->]|[(_ & _ & -> & _)|(_ & _ & now & _ & _ & _ & Hp & _)]];
    [lia|lia|].
  rewrite Hp. lia.
Qed.

Lemma unregister_peak_same (L : Libc) (w : world L) ptr file line :
  peak_memory (g_memm (snd (memm_unregister_allocation L ptr file line w))) =
  peak_memory (g_memm w).
Proof.
  destruct (unregister_cases L w ptr file line)
    as [(_ & _ & ->)|[(_ & _ & _ & ->)|(_ & r & chain' & _ & _ & _ & _ & _ & Hp & _)]];
    auto.
Qed.

Lemma step_peak_monotone (L : Libc) (c : call) (w : world L) :
  peak_memory (g_memm w) <= peak_memory (g_memm (step L c w)).
Proof.
  destruct (step_shape L c w) as (w1 & w2 & H1 & H2 & H3).
  assert (E1 : peak_memory (g_memm w1) = peak_memory (g_memm w)).
  { destruct H1 as [->|(ptr & file & line & ->)]; auto.
    apply unregister_peak_same. }
  rewrite <- E1, <- H2.
  destruct H3 as [->|(ptr & size & file & line & _ & ->)]; [lia|].
  apply register_peak_monotone.
Qed.

Lemma run_peak_monotone (L : Libc) (cs : list call) (w : world L) :
  peak_memory (g_memm w) <= peak_memory (g_memm (run L cs w)).
Proof.
  revert w. induction cs as [|c cs IH]; intros w; simpl; [lia|].
  pose proof (step_peak_monotone L c w). specialize (IH (step L c w)). lia.
Qed.

Lemma register_peak_covers (L : Libc) (w : world L) ptr size file line :
  memm_get_current_usage (g_memm w) <= peak_memory (g_memm w) ->
  let g' := g_memm (memm_register_allocation L ptr size file line w) in
  memm_get_current_usage g' <= peak_memory g'.
Proof.
  intros H.
  destruct (register_cases L w ptr size file line)
    as [[_ ->]|[(_ & _ & -> & _)|(_ & _ & now & _ & Ha & Hf & Hp & _)]]; auto.
  cbv zeta. unfold memm_get_current_usage. rewrite Hp, Hf. lia.
Qed.

Lemma unregister_peak_covers (L : Libc) (w : world L) ptr file line :
  counters_ok (g_memm w) ->
  live_bytes (g_memm w) < SIZE_MOD ->
  memm_get_current_usage (g_memm w) <= peak_memory (g_memm w) ->
  let g' := g_memm (snd (memm_unregister_allocation L ptr file line w)) in
  memm_get_current_usage g' <= peak_memory g'.
Proof.
  intros Hok Hfit H.
  destruct (unregister_cases L w ptr file line)
    as [(_ & _ & ->)|[(_ & _ & _ & ->)
       |(_ & r & chain' & U & _ & Ht & Ha & Hf & Hp & _)]]; auto.
  cbv zeta. unfold memm_get_current_usage in *.
  rewrite Hp, Ha, Hf, size_sub_add_r.
  destruct (unregister_iterate _ _ _ _ _ U Ht) as (pre & post & E & _ & _).
  pose proof (co_sizes _ Hok) as Hsz. rewrite E in Hsz.
  apply Forall_app in Hsz. destruct Hsz as [Hpre Hpost].
  inversion Hpost as [|? ? Hr Hpost']; subst.
  apply sum_sizes_nonneg in Hpre, Hpost'.
  pose proof (co_usage _ Hok) as Hu.
  unfold live_bytes in Hu, Hfit. rewrite E, sum_sizes_app, sum_sizes_cons in Hu, Hfit.
  unfold is_size_t in Hr.
  rewrite Z.mod_small in Hu by lia.
  rewrite Hu in *. rewrite Z.mod_small by lia. lia.
Qed.

Lemma live_bytes_fit_head (L : Libc) (cs : list call) (w : world L) :
  live_bytes_fit cs w = true -> live_bytes (g_memm w) < SIZE_MOD.
Proof. destruct cs; simpl; lia. Qed.

Lemma run_peak_covers (L : Libc) (cs : list call) (w : world L) :
  forallb call_sizes_ok cs = true ->
  live_bytes_fit cs w = true ->
  counters_ok (g_memm w) ->
  memm_get_current_usage (g_memm w) <= peak_memory (g_memm w) ->
  memm_get_current_usage (g_memm (run L cs w)) <= peak_memory (g_memm (run L cs w)).
Proof.
  revert w. induction cs as [|c cs IH]; intros w Hcs Hfit Hok H; simpl; [exact H|].
  simpl in Hcs. apply andb_prop in Hcs. destruct Hcs as [Hc Hcs].
  simpl in Hfit. apply andb_prop in Hfit. destruct Hfit as [Hw Hfit].
  apply Z.ltb_lt in Hw.
  apply IH; auto.
  - apply step_counters_ok; assumption.
  - destruct (step_shape L c w) as (w1 & w2 & H1 & H2 & H3).
    assert (P1 : memm_get_current_usage (g_memm w1) <= peak_memory (g_memm w1)).
    { destruct H1 as [->|(ptr & file & line & ->)]; auto.
      apply unregister_peak_covers; assumption. }
    rewrite <- H2 in P1.
    destruct H3 as [->|(ptr & size & file & line & _ & ->)]; auto.
    apply register_peak_covers, P1.
Qed.

Lemma run_app (L : Libc) (cs1 cs2 : list call) (w : world L) :
  run L (cs1 ++ cs2) w = run L cs2 (run L cs1 w).
Proof.
  revert w. induction cs1 as [|c cs1 IH]; intros w; simpl; auto.
Qed.

Lemma call_sizes_ok_prefix (cs1 cs2 : list call) :
  forallb call_sizes_ok (cs1 ++ cs2) = true -> forallb call_sizes_ok cs1 = true.
Proof.
  rewrite forallb_app. intros H. apply andb_prop in H. apply H.
Qed.

Lemma live_bytes_fit_prefix (L : Libc) (cs1 cs2 : list call) (w : world L) :
  live_bytes_fit (cs1 ++ cs2) w = true -> live_bytes_fit cs1 w = true.
Proof.
  revert w. induction cs1 as [|c cs1 IH]; intros w H.
  - apply live_bytes_fit_head in H. simpl. lia.
  - simpl in *. apply andb_prop in H. destruct H as [H1 H2].
    rewrite H1. simpl. apply IH, H2.
Qed.

(** C2, amended.  From the zeroed state, along every sequence of tracked
    calls: no call ever decreases [peak_memory], so it is non-decreasing
    from every point of the sequence to every later one; and after every
    call of the sequence [peak_memory] is at least
    [current_usage = total_allocated - total_freed] whenever, at every
    state on the way, the sizes of the live records add up to less than
    [2^64]. *)
Theorem peak_memory_monotone_and_covers_usage
    (L : Libc) (w0 : world L) (cs : list call) :
  g_memm w0 = memm_zero ->
  forallb call_sizes_ok cs = true ->
  (forall c : call,
     peak_memory (g_memm (run L cs w0)) <=
     peak_memory (g_memm (step L c (run L cs w0)))) /\
  (forall cs1 cs2 : list call, cs = cs1 ++ cs2 ->
     peak_memory (g_memm (run L cs1 w0)) <= peak_memory (g_memm (run L cs w0))) /\
  (live_bytes_fit cs w0 = true ->
   forall cs1 cs2 : list call, cs = cs1 ++ cs2 ->
     memm_get_current_usage (g_memm (run L cs1 w0)) <=
     peak_memory (g_memm (run L cs1 w0))).
Proof.
  intros H0 Hcs. split; [|split].
  - intros c. apply step_peak_monotone.
  - intros cs1 cs2 ->. rewrite run_app. apply run_peak_monotone.
  - intros Hfit cs1 cs2 ->. apply run_peak_covers.
    + eapply call_sizes_ok_prefix, Hcs.
    + eapply live_bytes_fit_prefix, Hfit.
    + rewrite H0. apply counters_ok_zero.
    + rewrite H0. vm_compute. discriminate.
Qed.

(** ** Freed bytes never exceed allocated bytes, short of wrap-around *)

Lemma register_exact (L : Libc) (w : world L) ptr size file line :
  is_size_t size ->
  counters_ok (g_memm w) ->
  total_allocated (g_memm w) = total_freed (g_memm w) + live_bytes (g_memm w) ->
  let g' := g_memm (memm_register_allocation L ptr size file line w) in
  total_allocated (g_memm w) <= total_allocated g' ->
  total_allocated g' = total_freed g' + live_bytes g'.
Proof.
  intros Hs Hok H.
  destruct (register_cases L w ptr size file line)
    as [[_ ->]|[(_ & _ & -> & _)|(_ & _ & now & Ht & Ha & Hf & _)]]; auto.
  cbv zeta. intros Hle.
  destruct (register_iterate _ _ _ _ (proj1 (co_table _ Hok)) Ht)
    as (pre & post & E & E').
  rewrite Ha in Hle |- *. rewrite Hf.
  rewrite (size_add_small _ _ (co_allocated _ Hok) Hs Hle).
  unfold live_bytes in *. rewrite E', sum_sizes_app, sum_sizes_cons. simpl.
  rewrite E, sum_sizes_app in H. lia.
Qed.

Lemma unregister_exact (L : Libc) (w : world L) ptr file line :
  counters_ok (g_memm w) ->
  total_allocated (g_memm w) = total_freed (g_memm w) + live_bytes (g_memm w) ->
  let g' := g_memm (snd (memm_unregister_allocation L ptr file line w)) in
  total_allocated g' = total_allocated (g_memm w) /\
  total_allocated g' = total_freed g' + live_bytes g'.
Proof.
  intros Hok H.
  destruct (unregister_cases L w ptr file line)
    as [(_ & _ & ->)|[(_ & _ & _ & ->)
       |(_ & r & chain' & U & _ & Ht & Ha & Hf & _)]]; auto.
  cbv zeta. split; [exact Ha|].
  destruct (unregister_iterate _ _ _ _ _ U Ht) as (pre & post & E & E' & _).
  pose proof (co_sizes _ Hok) as Hsz. rewrite E in Hsz.
  apply Forall_app in Hsz. destruct Hsz as [Hpre Hpost].
  inversion Hpost as [|? ? Hr Hpost']; subst.
  apply sum_sizes_nonneg in Hpre, Hpost'.
  pose proof (co_allocated _ Hok) as Hta. pose proof (co_freed _ Hok) as Htf.
  unfold live_bytes in *. rewrite E, sum_sizes_app, sum_sizes_cons in H.
  rewrite E', sum_sizes_app, Ha, Hf.
  unfold is_size_t in *. unfold size_add. rewrite Z.mod_small by lia. lia.
Qed.

Lemma run_exact (L : Libc) (cs : list call) (w : world L) :
  forallb call_sizes_ok cs = true ->
  allocated_never_wraps L cs w = true ->
  counters_ok (g_memm w) ->
  total_allocated (g_memm w) = total_freed (g_memm w) + live_bytes (g_memm w) ->
  let g := g_memm (run L cs w) in
  counters_ok g /\ total_allocated g = total_freed g + live_bytes g.
Proof.
  revert w. induction cs as [|c cs IH]; intros w Hcs Hnw Hok H; simpl; [auto|].
  simpl in Hcs. apply andb_prop in Hcs. destruct Hcs as [Hc Hcs].
  simpl in Hnw. apply andb_prop in Hnw. destruct Hnw as [Hle Hnw].
  apply Z.leb_le in Hle.
  apply IH; auto.
  - apply step_counters_ok; assumption.
  - destruct (step_shape L c w) as (w1 & w2 & H1 & H2 & H3).
    assert (P1 : counters_ok (g_memm w1) /\
                 total_allocated (g_memm w1) = total_allocated (g_memm w) /\
                 total_allocated (g_memm w1) =
                   total_freed (g_memm w1) + live_bytes (g_memm w1)).
    { destruct H1 as [->|(ptr & file & line & ->)]; auto.
      split; [apply unregister_counters_ok, Hok|].
      apply unregister_exact; assumption. }
    rewrite <- H2 in P1. destruct P1 as (Hok2 & Ha2 & Hex2).
    destruct H3 as [->|(ptr & size & file & line & Hs & E)]; auto.
    rewrite E in Hle |- *.
    apply register_exact; auto. lia.
Qed.

Lemma allocated_never_wraps_prefix (L : Libc) (cs1 cs2 : list call) (w : world L) :
  allocated_never_wraps L (cs1 ++ cs2) w = true ->
  allocated_never_wraps L cs1 w = true.
Proof.
  revert w. induction cs1 as [|c cs1 IH]; intros w H; [reflexivity|].
  simpl in *. apply andb_prop in H. destruct H as [H1 H2].
  rewrite H1. simpl. apply IH, H2.
Qed.

(** C9, amended.  From the zeroed state, along every sequence of tracked
    calls during which [total_allocated] never wraps around (no call
    leaves it smaller than it found it), [total_freed <= total_allocated]
    holds after every call of the sequence, and the [size_t] subtraction
    that defines the current usage does not underflow: it is the integer
    difference, which is the number of live bytes. *)
Theorem freed_never_exceeds_allocated_without_wrap
    (L : Libc) (w0 : world L) (cs : list call) :
  g_memm w0 = memm_zero ->
  forallb call_sizes_ok cs = true ->
  allocated_never_wraps L cs w0 = true ->
  forall cs1 cs2 : list call, cs = cs1 ++ cs2 ->
    let g := g_memm (run L cs1 w0) in
    total_freed g <= total_allocated g /\
    memm_get_current_usage g = total_allocated g - total_freed g /\
    memm_get_current_usage g = live_bytes g.
Proof.
  intros H0 Hcs Hnw cs1 cs2 ->.
  apply call_sizes_ok_prefix in Hcs. apply allocated_never_wraps_prefix in Hnw.
  destruct (run_exact L cs1 w0 Hcs Hnw) as [Hok Hex].
  - rewrite H0. apply counters_ok_zero.
  - rewrite H0. vm_compute. reflexivity.
  - cbv zeta.
    pose proof (sum_sizes_nonneg _ (co_sizes _ Hok)) as Hlive.
    fold (live_bytes (g_memm (run L cs1 w0))) in Hlive.
    pose proof (co_allocated _ Hok) as Hta. pose proof (co_freed _ Hok) as Htf.
    unfold is_size_t in *.
    assert (E : memm_get_current_usage (g_memm (run L cs1 w0)) =
                total_allocated (g_memm (run L cs1 w0)) -
                total_freed (g_memm (run L cs1 w0))).
    { unfold memm_get_current_usage, size_sub. apply Z.mod_small. lia. }
    split; [lia|]. split; [exact E|]. lia.
Qed.

(** ** Looking an address up *)

Lemma tracked_true g ptr :
  tracked g ptr = true <-> exists r, In r (iterate g) /\ alloc_ptr r = ptr.
Proof.
  unfold tracked. rewrite existsb_exists.
  split; intros (r & Hr & Hp); exists r; split; auto; apply Z.eqb_eq; auto.
Qed.

Lemma tracked_in_bucket g ptr r :
  table_ok g -> In r (iterate g) -> alloc_ptr r = ptr ->
  In r (bucket g (memm_hash_ptr ptr)).
Proof.
  intros [_ Hin] Hr Hp. unfold iterate in Hr.
  apply in_concat in Hr. destruct Hr as (chain & Hchain & Hr).
  apply list_elem_of_In, list_elem_of_lookup in Hchain.
  destruct Hchain as [i Hi].
  rewrite <- Hp, (Hin _ _ _ Hi Hr), (bucket_lookup _ _ _ Hi). exact Hr.
Qed.

Lemma filter_nil_existsb {A} (f : A -> bool) l :
  List.filter f l = [] <-> existsb f l = false.
Proof.
  induction l as [|x l IH]; simpl; [tauto|].
  destruct (f x); simpl; [split; discriminate|exact IH].
Qed.

Lemma filter_single {A} (f : A -> bool) pre x post y :
  List.filter f (pre ++ x :: post) = [y] -> f x = true ->
  List.filter f pre = [] /\ List.filter f post = [] /\ x = y.
Proof.
  intros H Hx. rewrite List.filter_app in H. simpl in H. rewrite Hx in H.
  destruct (List.filter f pre) as [|a l].
  - simpl in H. inversion H. auto.
  - simpl in H. inversion H as [[Ha Hl]].
    destruct l; discriminate.
Qed.

(** ** Allocate, then release *)

(** C5, amended.  For every registry state (a table of
    [MEMM_HASH_TABLE_SIZE] chains) and every size, when [memm_malloc]
    succeeds and the address it returns had no live record before,
    releasing that address at once leaves [allocation_count - free_count]
    (the potential-leak figure, a [size_t] difference) as it was before
    the pair, the address is not met by a traversal of the registry, and
    the traversal is what it was before the pair. *)
Theorem allocate_then_release_round_trip
    (L : Libc) (w : world L) (size : Z) (file : string) (line : Z)
    (file' : string) (line' : Z) :
  length (hash_table (g_memm w)) = Z.to_nat MEMM_HASH_TABLE_SIZE ->
  fst (memm_malloc L size file line w) <> NULL ->
  tracked (g_memm w) (fst (memm_malloc L size file line w)) = false ->
  let ptr := fst (memm_malloc L size file line w) in
  let w' := memm_free L ptr file' line' (snd (memm_malloc L size file line w)) in
  size_sub (allocation_count (g_memm w')) (free_count (g_memm w')) =
    size_sub (allocation_count (g_memm w)) (free_count (g_memm w)) /\
  tracked (g_memm w') ptr = false /\
  iterate (g_memm w') = iterate (g_memm w).
Proof.
  intros Hok Hnn Hfresh. cbv zeta.
  unfold memm_malloc in *.
  pose proof (malloc_g_memm L w size) as Hg.
  destruct (malloc L size w) as [p w1]. simpl in Hg.
  destruct (p =? NULL) eqn:Hp; simpl in *.
  { apply Z.eqb_eq in Hp. contradiction. }
  rewrite <- Hg in Hok, Hfresh |- *. clear Hg Hp.
  set (w2 := memm_register_allocation L p size file line w1).
  assert (Hfree : forall w3 : world L,
            g_memm (memm_free L p file' line' w3) =
            g_memm (snd (memm_unregister_allocation L p file' line' w3))).
  { intros w3. unfold memm_free.
    destruct (memm_unregister_allocation L p file' line' w3) as [[|] w4];
      reflexivity. }
  rewrite Hfree.
  destruct (register_cases L w1 p size file line)
    as [[E _]|[(_ & _ & Eg & _)|(_ & _ & now & Ht & _ & _ & _ & Hac & Hfc & _)]];
    fold w2 in Eg || fold w2 in Ht, Hac, Hfc || idtac.
  - contradiction.
  - (* the registry could not get a node: nothing was registered *)
    assert (U : memm_unregister_allocation L p file' line' w2 = (false, w2)).
    { unfold memm_unregister_allocation.
      rewrite (proj2 (Z.eqb_neq _ _) Hnn), Eg.
      rewrite (untracked_unlink _ _ Hfresh). reflexivity. }
    rewrite U. simpl. rewrite Eg. auto.
  - (* the new node is the head of its bucket, and is the one unlinked *)
    pose proof (bucket_Some _ p Hok) as Hb.
    pose proof (hash_index_lt _ p Hok) as Hlt.
    set (node := mk_allocation
                   (fst (real_malloc L sizeof_memm_allocation (heap w1)))
                   p size file line now) in *.
    assert (Hb2 : bucket (g_memm w2) (memm_hash_ptr p) =
                  node :: bucket (g_memm w1) (memm_hash_ptr p)).
    { unfold bucket at 1. rewrite Ht, list_lookup_insert_eq by exact Hlt.
      reflexivity. }
    destruct (unregister_cases L w2 p file' line')
      as [(E & _)|[(_ & U & _)
         |(_ & r & chain' & U & _ & Ht' & _ & _ & _ & Hac' & Hfc' & _)]].
    + contradiction.
    + rewrite Hb2 in U. simpl in U. rewrite Z.eqb_refl in U. discriminate.
    + rewrite Hb2 in U. simpl in U. rewrite Z.eqb_refl in U.
      inversion U; subst r chain'. clear U.
      assert (Htab : hash_table (g_memm (snd (memm_unregister_allocation
                                                L p file' line' w2))) =
                     hash_table (g_memm w1)).
      { rewrite Ht', Ht, list_insert_insert_eq. apply list_insert_id, Hb. }
      unfold tracked, iterate. rewrite Htab, Hac', Hfc', Hac, Hfc.
      split; [|split; [exact Hfresh|reflexivity]].
      unfold size_sub, size_add.
      rewrite Zminus_mod_idemp_l, Zminus_mod_idemp_r. f_equal. lia.
Qed.

(** ** Resize *)

(** C3, amended.  For a non-null address for which a well-formed registry
    holds exactly one record [old], [memm_realloc] first unregisters that
    record (its node is released, [total_freed] grows by the old size and
    [free_count] by one, in [size_t] arithmetic) and only then asks the
    library to resize, returning what the library returns.  When the
    library succeeds and the registry obtains a node for the new record,
    the returned address is registered with the new size at the head of
    its bucket, and [total_allocated] grows by the new size and
    [allocation_count] by one (one unregister, one register; the
    increments are exact integers whenever the sums fit in [size_t]).
    When the library fails the result is null, nothing is registered,
    and the registry holds no record for the old address and none for any
    address it did not hold before. *)
Theorem resize_unregisters_then_registers
    (L : Libc) (w : world L) (ptr new_size : Z) (file : string) (line : Z)
    (old : memm_allocation) :
  ptr <> NULL ->
  table_ok (g_memm w) ->
  List.filter (fun r => alloc_ptr r =? ptr) (iterate (g_memm w)) = [old] ->
  let g := g_memm w in
  let result := memm_realloc L ptr new_size file line w in
  let g' := g_memm (snd result) in
  let resized :=
    real_realloc L ptr new_size (real_free L (alloc_node old) (heap w)) in
  let node := fst (real_malloc L sizeof_memm_allocation (snd resized)) in
  fst result = fst resized /\
  total_freed g' = size_add (total_freed g) (alloc_size old) /\
  free_count g' = size_add (free_count g) 1 /\
  (0 <= total_freed g + alloc_size old < SIZE_MOD ->
   total_freed g' = total_freed g + alloc_size old) /\
  (fst resized <> NULL -> node <> NULL ->
   calls (snd result) =
     calls w ++ [CallFree (alloc_node old);
                 CallRealloc ptr new_size (fst resized);
                 CallMalloc sizeof_memm_allocation node] /\
   total_allocated g' = size_add (total_allocated g) new_size /\
   (0 <= total_allocated g + new_size < SIZE_MOD ->
    total_allocated g' = total_allocated g + new_size) /\
   allocation_count g' = size_add (allocation_count g) 1 /\
   exists new tail,
     alloc_ptr new = fst resized /\ alloc_size new = new_size /\
     bucket g' (memm_hash_ptr (fst resized)) = new :: tail) /\
  (fst resized = NULL ->
   fst result = NULL /\
   calls (snd result) =
     calls w ++ [CallFree (alloc_node old); CallRealloc ptr new_size NULL] /\
   total_allocated g' = total_allocated g /\
   allocation_count g' = allocation_count g /\
   tracked g' ptr = false /\
   forall q, tracked g q = false -> tracked g' q = false).
Proof.
  intros Hp Hok Hold g result g' resized node. subst g.
  assert (Hin : In old (iterate (g_memm w)) /\ alloc_ptr old = ptr).
  { assert (H : In old (List.filter (fun r => alloc_ptr r =? ptr)
                                    (iterate (g_memm w)))).
    { rewrite Hold. left. reflexivity. }
    apply filter_In in H. destruct H as [H1 H2]. apply Z.eqb_eq in H2. auto. }
  destruct Hin as [Hin Hptr].
  destruct (unregister_cases L w ptr file line)
    as [(E & _)|[(_ & U & _)
       |(_ & r & chain' & U & _ & Ht & Ha & Hf & _ & Hac & Hfc & Hcalls & Hheap)]].
  - contradiction.
  - exfalso. apply unlink_None in U. rewrite List.Forall_forall in U.
    apply (U old); auto. apply tracked_in_bucket; auto.
  - destruct (unregister_iterate _ _ _ _ _ U Ht) as (pre & post & E & E' & Hr).
    rewrite E in Hold.
    destruct (filter_single _ _ _ _ _ Hold) as (Fpre & Fpost & ->).
    { apply Z.eqb_eq, Hr. }
    set (w1 := snd (memm_unregister_allocation L ptr file line w)) in *.
    assert (Hquiet : tracked (g_memm w1) ptr = false /\
                     forall q, tracked (g_memm w) q = false ->
                               tracked (g_memm w1) q = false).
    { unfold tracked. rewrite E'. split.
      - apply filter_nil_existsb. rewrite List.filter_app, Fpre, Fpost. reflexivity.
      - intros q. rewrite E. rewrite !existsb_app. simpl.
        intros H. apply orb_false_iff in H. destruct H as [H1 H2].
        apply orb_false_iff in H2. destruct H2 as [_ H2]. rewrite H1, H2.
        reflexivity. }
    assert (R : result =
                let (new_ptr, w2) := realloc L ptr new_size w1 in
                if new_ptr =? NULL then (new_ptr, w2)
                else (new_ptr, memm_register_allocation L new_ptr new_size file line w2)).
    { subst result. unfold memm_realloc.
      rewrite (proj2 (Z.eqb_neq _ _) Hp). reflexivity. }
    unfold realloc in R. rewrite Hheap in R. fold resized in R.
    assert (Hadd : forall a b, 0 <= a + b < SIZE_MOD -> size_add a b = a + b).
    { intros a b H. apply Z.mod_small, H. }
    destruct resized as [new_ptr h2] eqn:Hres. simpl in node |- *.
    set (w2 := mk_world (g_memm w1) h2
                        (calls w1 ++ [CallRealloc ptr new_size new_ptr])) in *.
    destruct (new_ptr =? NULL) eqn:Hnew.
    + (* the library failed *)
      apply Z.eqb_eq in Hnew. subst g'. rewrite R. simpl.
      split; [reflexivity|]. split; [exact Hf|]. split; [exact Hfc|].
      split; [intros H; rewrite Hf; apply Hadd, H|].
      split; [intros H; contradiction|]. intros _.
      split; [exact Hnew|]. split.
      { rewrite Hcalls, <- app_assoc, Hnew. reflexivity. }
      split; [exact Ha|]. split; [exact Hac|]. exact Hquiet.
    + (* the library succeeded *)
      apply Z.eqb_neq in Hnew. subst g'. rewrite R. simpl.
      destruct (register_cases L w2 new_ptr new_size file line)
        as [[E0 _]|[(_ & Hnode & Eg & _)
           |(_ & Hnode & now & Ht2 & Ha2 & Hf2 & _ & Hac2 & Hfc2 & Hcalls2)]];
        [contradiction| |].
      * (* no node for the new record *)
        simpl in Hnode.
        split; [reflexivity|]. rewrite Eg. simpl.
        split; [exact Hf|]. split; [exact Hfc|].
        split; [intros H; rewrite Hf; apply Hadd, H|].
        split; [intros _ H; contradiction|]. intros H. contradiction.
      * simpl in Hnode, Ht2, Ha2, Hf2, Hac2, Hfc2, Hcalls2.
        split; [reflexivity|].
        split; [rewrite Hf2; exact Hf|]. split; [rewrite Hfc2; exact Hfc|].
        split; [intros H; rewrite Hf2, Hf; apply Hadd, H|].
        split; [|intros H; contradiction]. intros _ _.
        split.
        { rewrite Hcalls2, Hcalls, <- !app_assoc. reflexivity. }
        split; [rewrite Ha2, Ha; reflexivity|].
        split; [intros H; rewrite Ha2, Ha; apply Hadd, H|].
        split; [rewrite Hac2, Hac; reflexivity|].
        eexists; eexists. split; [|split]; [| |unfold bucket at 1; rewrite Ht2;
          rewrite list_lookup_insert_eq; [reflexivity|]]; [reflexivity..|].
        apply hash_index_lt.
        apply (unregister_table_ok L w ptr file line Hok).
Qed.


(** ** Decimal renderings *)

Local Open Scope N_scope.

Lemma usize_nzhead d :
  DecimalPos.Unsigned.usize (Decimal.nzhead d) <= DecimalPos.Unsigned.usize d.
Proof.
  induction d; simpl; try lia.
Qed.

Lemma revapp_value d d0 :
  DecimalPos.Unsigned.of_lu d0 <> 0 ->
  10 ^ DecimalPos.Unsigned.usize d <=
  DecimalPos.Unsigned.of_lu (Decimal.revapp d d0).
Proof.
  intros E. rewrite DecimalPos.Unsigned.of_lu_revapp.
  assert (10 ^ DecimalPos.Unsigned.usize d <=
          DecimalPos.Unsigned.of_lu d0 * 10 ^ DecimalPos.Unsigned.usize d).
  { rewrite <- (N.mul_1_l (10 ^ _)) at 1.
    apply N.mul_le_mono_r. lia. }
  lia.
Qed.

(** The decimal rendering of [n] is ["0"], or has a first digit that is
    not zero, so that [n] is at least ten to the number of the other
    digits. *)
Lemma to_uint_shape (n : N) :
  N.to_uint n = Decimal.D0 Decimal.Nil \/
  exists d', 10 ^ DecimalPos.Unsigned.usize d' <= n /\
             DecimalPos.Unsigned.usize (N.to_uint n) =
               N.succ (DecimalPos.Unsigned.usize d').
Proof.
  pose proof (DecimalN.Unsigned.of_to n) as Hof.
  pose proof (DecimalN.Unsigned.to_of (N.to_uint n)) as Hnorm.
  rewrite Hof in Hnorm.
  unfold N.of_uint in Hof. rewrite DecimalPos.Unsigned.of_uint_alt in Hof.
  unfold Decimal.rev in Hof.
  destruct (N.to_uint n) as [|d'|d'|d'|d'|d'|d'|d'|d'|d'|d'] eqn:E.
  - exfalso. simpl in Hnorm. discriminate.
  - left. unfold Decimal.unorm in Hnorm. simpl in Hnorm.
    pose proof (usize_nzhead d') as Hsz.
    destruct (Decimal.nzhead d') eqn:En; try discriminate Hnorm.
    + exact Hnorm.
    + injection Hnorm as ->. simpl in Hsz. lia.
  - right. exists d'. split; [|reflexivity]. simpl in Hof.
    rewrite <- Hof. apply revapp_value. discriminate.
  - right. exists d'. split; [|reflexivity]. simpl in Hof.
    rewrite <- Hof. apply revapp_value. discriminate.
  - right. exists d'. split; [|reflexivity]. simpl in Hof.
    rewrite <- Hof. apply revapp_value. discriminate.
  - right. exists d'. split; [|reflexivity]. simpl in Hof.
    rewrite <- Hof. apply revapp_value. discriminate.
  - right. exists d'. split; [|reflexivity]. simpl in Hof.
    rewrite <- Hof. apply revapp_value. discriminate.
  - right. exists d'. split; [|reflexivity]. simpl in Hof.
    rewrite <- Hof. apply revapp_value. discriminate.
  - right. exists d'. split; [|reflexivity]. simpl in Hof.
    rewrite <- Hof. apply revapp_value. discriminate.
  - right. exists d'. split; [|reflexivity]. simpl in Hof.
    rewrite <- Hof. apply revapp_value. discriminate.
  - right. exists d'. split; [|reflexivity]. simpl in Hof.
    rewrite <- Hof. apply revapp_value. discriminate.
Qed.

Local Close Scope N_scope.

Lemma length_lit s : length (lit s) = String.length s.
Proof. unfold lit. induction s as [|c s IH]; simpl; auto. Qed.

Lemma string_length_uint d :
  String.length (DecimalString.NilEmpty.string_of_uint d) =
  N.to_nat (DecimalPos.Unsigned.usize d).
Proof.
  induction d; simpl; rewrite ?N2Nat.inj_succ; auto.
Qed.

Lemma nilzero_nonnil d :
  d <> Decimal.Nil ->
  DecimalString.NilZero.string_of_uint d =
  DecimalString.NilEmpty.string_of_uint d.
Proof. destruct d; intros H; [contradiction|reflexivity..]. Qed.

(** A [size_t] value takes at most twenty decimal digits. *)
Lemma fmt_zu_length z :
  0 <= z < 2 ^ 64 -> (1 <= length (fmt_zu z) <= 20)%nat.
Proof.
  intros Hz. unfold fmt_zu. rewrite length_lit.
  assert (Hn : (Z.to_N z < 10 ^ 20)%N) by lia.
  destruct (to_uint_shape (Z.to_N z)) as [E|(d' & Hle & Hsz)].
  - rewrite E. simpl. lia.
  - assert (Hd : (DecimalPos.Unsigned.usize d' < 20)%N).
    { apply (N.pow_lt_mono_r_iff 10); [lia|]. lia. }
    rewrite nilzero_nonnil.
    + rewrite string_length_uint, Hsz. lia.
    + intros E. rewrite E in Hsz. simpl in Hsz. lia.
Qed.


Lemma stats_text_length g :
  counters_in_range g ->
  (254 <= length (stats_text g) <= 394)%nat.
Proof.
  intros (Ha & Hf & Hp & Hac & Hfc).
  pose proof (fmt_zu_length _ Ha) as B1.
  pose proof (fmt_zu_length _ Hf) as B2.
  pose proof (fmt_zu_length _ (size_sub_range (total_allocated g) (total_freed g)))
    as B3.
  pose proof (fmt_zu_length _ Hp) as B4.
  pose proof (fmt_zu_length _ Hac) as B5.
  pose proof (fmt_zu_length _ Hfc) as B6.
  pose proof (fmt_zu_length _ (size_sub_range (allocation_count g) (free_count g)))
    as B7.
  assert (B8 : length (fmt_d MEMM_HASH_TABLE_SIZE) = 4%nat) by reflexivity.
  unfold stats_text, memm_get_current_usage, memm_get_peak_usage,
    memm_get_allocation_count, memm_get_free_count.
  rewrite !length_app, !length_lit, B8.
  cbn [String.length nl length]. lia.
Qed.

(** ** Bounded formatting *)

(** Turns the boolean comparisons among the hypotheses into
    propositions. *)
Ltac zbool :=
  repeat match goal with
  | H : (_ >? _) = _ |- _ => rewrite Z.gtb_ltb in H
  | H : (_ >=? _) = _ |- _ => rewrite Z.geb_leb in H
  | H : (_ <? _) = true |- _ => apply Z.ltb_lt in H
  | H : (_ <? _) = false |- _ => apply Z.ltb_ge in H
  | H : (_ <=? _) = true |- _ => apply Z.leb_le in H
  | H : (_ <=? _) = false |- _ => apply Z.leb_gt in H
  | H : (_ =? _) = true |- _ => apply Z.eqb_eq in H
  | H : (_ =? _) = false |- _ => apply Z.eqb_neq in H
  end.

(** *** Values of type [int] *)

Lemma int_wrap_small z : - 2 ^ 31 <= z <= INT_MAX -> int_wrap z = z.
Proof.
  unfold int_wrap, INT_MAX. intros H. rewrite Z.mod_small; lia.
Qed.

Lemma int_add_wrap a b : int_add (int_wrap a) b = int_wrap (a + b).
Proof.
  unfold int_add, int_wrap. f_equal.
  replace ((a + 2 ^ 31) mod 2 ^ 32 - 2 ^ 31 + b + 2 ^ 31)
    with ((a + 2 ^ 31) mod 2 ^ 32 + b) by lia.
  rewrite Zplus_mod_idemp_l. f_equal. lia.
Qed.

Lemma renders_true out : renders out = true <-> Z.of_nat (length out) <= INT_MAX.
Proof. unfold renders. apply Z.leb_le. Qed.

Lemma renders_false out : renders out = false <-> INT_MAX < Z.of_nat (length out).
Proof. unfold renders. apply Z.leb_gt. Qed.

(** *** Stores into the buffer *)

Lemma list_inserts_spec {A} (i : nat) (k l : list A) :
  (i + length k <= length l)%nat ->
  list_inserts i k l = take i l ++ k ++ drop (i + length k) l.
Proof.
  intros H.
  rewrite <- (take_drop i l) at 1.
  assert (Hi : length (take i l) = i) by (rewrite length_take; lia).
  replace i with (length (take i l) + 0)%nat at 1 by lia.
  rewrite list_inserts_app_r. f_equal.
  set (rest := drop i l).
  assert (Hrest : (length k <= length rest)%nat)
    by (subst rest; rewrite length_drop; lia).
  rewrite <- (take_drop (length k) rest) at 1.
  rewrite list_inserts_0_r by (rewrite length_take; lia).
  f_equal. subst rest. rewrite drop_drop. reflexivity.
Qed.

(** A text and its null stored behind a text [E] that is in place. *)
Lemma store_text (b E piece : list ascii) :
  take (length E) b = E ->
  (length E + length piece + 1 <= length b)%nat ->
  list_inserts (length E) (piece ++ [NUL]) b =
  (E ++ piece) ++ NUL :: drop (S (length (E ++ piece))) b.
Proof.
  intros HE Hlen.
  rewrite list_inserts_spec by (rewrite length_app; simpl; lia).
  rewrite HE, <- !app_assoc. cbn [app]. do 3 f_equal.
  rewrite !length_app. cbn [length]. f_equal. lia.
Qed.

(** Any bytes stored behind a text [E] that is in place. *)
Lemma store_bytes (b E G : list ascii) :
  take (length E) b = E ->
  (length E + length G <= length b)%nat ->
  list_inserts (length E) G b = E ++ G ++ drop (length E + length G) b.
Proof.
  intros HE Hlen. rewrite list_inserts_spec by lia. rewrite HE. reflexivity.
Qed.

Lemma bytes_facts (b E G : list ascii) (k : nat) :
  (length E + length G <= length b)%nat ->
  (length E + length G <= k)%nat ->
  let b' := E ++ G ++ drop (length E + length G) b in
  take (length E) b' = E /\ length b' = length b /\ drop k b' = drop k b.
Proof.
  intros Hlen Hk. cbv zeta. split; [apply take_app_length|]. split.
  - rewrite !length_app, length_drop. lia.
  - rewrite app_assoc. rewrite drop_app_ge by (rewrite length_app; lia).
    rewrite drop_drop, length_app. f_equal. lia.
Qed.

(** What is known of a buffer that holds [X], a null, and behind it the
    bytes of [b]. *)
Lemma text_facts (X b : list ascii) (k : nat) :
  (S (length X) <= length b)%nat ->
  (S (length X) <= k)%nat ->
  let b' := X ++ NUL :: drop (S (length X)) b in
  take (length X) b' = X /\ b' !! length X = Some NUL /\
  length b' = length b /\ drop k b' = drop k b.
Proof.
  intros Hlen Hk. cbv zeta.
  split; [apply take_app_length|].
  split; [apply list_lookup_middle; reflexivity|]. split.
  - rewrite length_app. simpl. rewrite length_drop. lia.
  - rewrite drop_app_ge by lia.
    replace (k - length X)%nat with (S (k - length X - 1)) by lia.
    simpl. rewrite drop_drop. f_equal. lia.
Qed.

Lemma snprintf_ok (L : Libc) buffer cursor n out :
  renders out = true -> 1 <= n ->
  snprintf L buffer cursor n out =
  (list_inserts (Z.to_nat cursor) (take (Z.to_nat (n - 1)) out ++ [NUL]) buffer,
   Z.of_nat (length out)).
Proof.
  intros Hr Hn. unfold snprintf. rewrite Hr.
  destruct (n =? 0) eqn:E0; zbool; [lia|reflexivity].
Qed.

Lemma snprintf_failed (L : Libc) buffer cursor n out :
  renders out = false ->
  snprintf L buffer cursor n out =
  (list_inserts (Z.to_nat cursor)
                (take (Z.to_nat n) (snprintf_overflow L n out)) buffer,
   -1).
Proof. intros Hr. unfold snprintf. rewrite Hr. reflexivity. Qed.

Lemma rendered_length text cap b0 :
  1 <= cap <= Z.of_nat (length b0) ->
  length (rendered text cap b0) = length b0.
Proof.
  intros H. unfold rendered.
  rewrite length_app. simpl. rewrite length_drop.
  assert ((length (take (Z.to_nat (cap - 1)) text) <= Z.to_nat (cap - 1))%nat)
    by (rewrite length_take; lia).
  lia.
Qed.

Lemma rendered_terminated text cap b0 :
  1 <= cap ->
  rendered text cap b0 !! length (take (Z.to_nat (cap - 1)) text) = Some NUL /\
  Z.of_nat (length (take (Z.to_nat (cap - 1)) text)) < cap.
Proof.
  intros H. unfold rendered. split.
  - apply list_lookup_middle. reflexivity.
  - rewrite length_take. lia.
Qed.

Lemma rendered_beyond text cap b0 :
  1 <= cap <= Z.of_nat (length b0) ->
  drop (Z.to_nat cap) (rendered text cap b0) = drop (Z.to_nat cap) b0.
Proof.
  intros H. unfold rendered.
  set (cut := take (Z.to_nat (cap - 1)) text).
  assert (Hcut : (length cut <= Z.to_nat (cap - 1))%nat)
    by (subst cut; rewrite length_take; lia).
  rewrite drop_app_ge by lia.
  replace (Z.to_nat cap - length cut)%nat with (S (Z.to_nat cap - length cut - 1)) by lia.
  simpl. rewrite drop_drop. f_equal. lia.
Qed.

Lemma rendered_holds_text text cap b0 :
  1 <= cap <= Z.of_nat (length b0) ->
  holds_text text cap b0 (rendered text cap b0).
Proof.
  intros H. unfold holds_text. cbv zeta.
  split; [unfold rendered; apply take_app_length|].
  split; [apply rendered_terminated; lia|].
  split; [apply rendered_length, H|apply rendered_beyond, H].
Qed.

(** The first write of a report, at the start of the buffer. *)
Lemma snprintf_first (L : Libc) (b0 out : list ascii) (cap : Z) :
  1 <= cap <= Z.of_nat (length b0) ->
  renders out = true ->
  snprintf L b0 0 cap out = (rendered out cap b0, Z.of_nat (length out)).
Proof.
  intros H Hr. rewrite snprintf_ok by (auto; lia). f_equal.
  assert (Hp : (length (take (Z.to_nat (cap - 1)) out) <= Z.to_nat (cap - 1))%nat)
    by (rewrite length_take; lia).
  change (Z.to_nat 0) with (length (@nil ascii)).
  rewrite store_text; [|reflexivity|simpl; lia].
  reflexivity.
Qed.

Lemma store_nul_rendered text cap b0 :
  1 <= cap <= Z.of_nat (length b0) ->
  cap <= Z.of_nat (length text) ->
  store_nul (rendered text cap b0) (cap - 1) = rendered text cap b0.
Proof.
  intros H Hlong. unfold store_nul. apply list_insert_id.
  destruct (rendered_terminated text cap b0) as [Hnul _]; [lia|].
  rewrite length_take in Hnul.
  replace (Z.to_nat (cap - 1) `min` length text)%nat with (Z.to_nat (cap - 1)) in Hnul
    by lia.
  exact Hnul.
Qed.

(** *** The statistics *)

(** [memm_get_stats_string] on a buffer of capacity at least one, when
    [snprintf] renders the statistics. *)
Lemma stats_string_spec (L : Libc) g b0 cap :
  1 <= cap <= Z.of_nat (length b0) ->
  renders (stats_text g) = true ->
  memm_get_stats_string L g (Some b0) cap =
  (Some (rendered (stats_text g) cap b0),
   Z.of_nat (length (take (Z.to_nat (cap - 1)) (stats_text g)))).
Proof.
  intros H Hr. unfold memm_get_stats_string.
  destruct (cap <=? 0) eqn:E0; zbool; [lia|].
  rewrite (snprintf_first L b0 (stats_text g) cap H Hr).
  apply renders_true in Hr.
  destruct (Z.of_nat (length (stats_text g)) <? 0) eqn:E1; zbool; [lia|].
  rewrite length_take.
  destruct (Z.of_nat (length (stats_text g)) >=? cap) eqn:E2; zbool.
  - rewrite store_nul_rendered by lia.
    rewrite int_wrap_small by lia. f_equal. lia.
  - f_equal. lia.
Qed.

(** The same when [snprintf] fails: the buffer is left holding the empty
    string and [-1] is returned. *)
Lemma stats_string_failed (L : Libc) g b0 cap :
  1 <= cap <= Z.of_nat (length b0) ->
  renders (stats_text g) = false ->
  exists b',
    memm_get_stats_string L g (Some b0) cap = (Some b', -1) /\
    b' !! 0%nat = Some NUL /\
    length b' = length b0 /\
    drop (Z.to_nat cap) b' = drop (Z.to_nat cap) b0.
Proof.
  intros H Hr. unfold memm_get_stats_string.
  destruct (cap <=? 0) eqn:E0; zbool; [lia|].
  rewrite snprintf_failed by exact Hr. cbn [Z.ltb Z.compare].
  set (G := take (Z.to_nat cap) (snprintf_overflow L cap (stats_text g))).
  assert (HG : (length G <= Z.to_nat cap)%nat)
    by (subst G; rewrite length_take; lia).
  change (Z.to_nat 0) with (length (@nil ascii)).
  rewrite store_bytes; [|reflexivity|simpl; lia].
  destruct (bytes_facts b0 [] G (Z.to_nat cap)) as (_ & Hl & Hd);
    [simpl; lia|simpl; lia|].
  cbn [length Nat.add app] in *.
  eexists. split; [reflexivity|]. unfold store_nul.
  change (Z.to_nat 0) with 0%nat. split.
  - apply list_lookup_insert_eq. rewrite Hl. lia.
  - split; [rewrite length_insert; exact Hl|].
    rewrite drop_insert_lt by lia. exact Hd.
Qed.

(** ** The listing loops *)

(** While there is room the text sent so far is in the buffer whole. *)
Lemma lstate_holds_room clean b0 cap E s :
  lstate_holds clean b0 cap E s -> ls_remaining s > 1 ->
  take (Z.to_nat (cap - 1)) E = E /\ Z.of_nat (length E) < cap - 1.
Proof.
  intros (_ & _ & _ & _ & _ & _ & Hr & _) Hroom. rewrite Hr in Hroom.
  rewrite length_take in Hroom.
  assert (Hlt : (length E < Z.to_nat (cap - 1))%nat) by lia.
  split; [apply take_ge; lia|lia].
Qed.

(** Once the buffer is full, more text changes nothing. *)
Lemma lstate_holds_full clean b0 cap E s more :
  1 <= cap ->
  lstate_holds clean b0 cap E s -> ls_remaining s <= 1 ->
  lstate_holds clean b0 cap (E ++ more) s.
Proof.
  intros Hcap H Hfull. unfold lstate_holds in *. cbv zeta in *.
  assert (Hr : ls_remaining s =
               cap - Z.of_nat (length (take (Z.to_nat (cap - 1)) E))) by apply H.
  rewrite Hr in Hfull. rewrite length_take in Hfull.
  rewrite take_app_le by lia.
  exact H.
Qed.

Lemma lstate_holds_weaken clean c b0 cap E s :
  lstate_holds clean b0 cap E s -> lstate_holds (clean && c) b0 cap E s.
Proof.
  intros (H1 & H2 & H3 & H4 & H5 & H6). unfold lstate_holds. cbv zeta.
  repeat (split; [assumption|]). split; [|exact H6].
  intros Hc. apply andb_prop in Hc. apply H5, Hc.
Qed.

(** One formatted write at the cursor that [snprintf] renders. *)
Lemma snprintf_append (L : Libc) clean b0 cap E out s :
  1 <= cap <= Z.of_nat (length b0) ->
  lstate_holds clean b0 cap E s ->
  ls_remaining s > 1 ->
  renders out = true ->
  let cut' := take (Z.to_nat (cap - 1)) (E ++ out) in
  exists b',
    snprintf L (ls_buffer s) (ls_cursor s) (ls_remaining s) out =
      (b', Z.of_nat (length out)) /\
    take (length cut') b' = cut' /\
    b' !! length cut' = Some NUL /\
    length b' = length b0 /\
    drop (Z.to_nat cap) b' = drop (Z.to_nat cap) b0 /\
    (clean = true -> b' = cut' ++ NUL :: drop (S (length cut')) b0) /\
    Z.of_nat (length cut') =
      ls_cursor s + Z.min (Z.of_nat (length out)) (ls_remaining s - 1).
Proof.
  intros Hcap H Hroom Hren cut'.
  destruct (lstate_holds_room _ _ _ _ _ H Hroom) as [HE Hlen].
  destruct H as (Hp & Hl & Hd & _ & Hclean & Hc & Hr & _).
  cbv zeta in *. rewrite HE in Hp, Hclean, Hc, Hr.
  set (piece := take (Z.to_nat (ls_remaining s - 1)) out).
  assert (Hcut : cut' = E ++ piece).
  { subst cut' piece. rewrite take_app, HE. f_equal. f_equal. lia. }
  assert (Hpiece : (length piece <= Z.to_nat (ls_remaining s - 1))%nat)
    by (subst piece; rewrite length_take; lia).
  assert (Hfit : (S (length (E ++ piece)) <= length (ls_buffer s))%nat)
    by (rewrite length_app; lia).
  rewrite snprintf_ok by (auto; lia). fold piece.
  rewrite Hc, Nat2Z.id, store_text by (auto; rewrite length_app in Hfit; lia).
  rewrite <- Hcut in *.
  destruct (text_facts cut' (ls_buffer s) (Z.to_nat cap))
    as (F1 & F2 & F3 & F4); [exact Hfit|rewrite Hcut, length_app; lia|].
  eexists. split; [reflexivity|].
  split; [exact F1|]. split; [exact F2|]. split; [congruence|].
  split; [congruence|]. split.
  - intros C. f_equal. f_equal. rewrite (Hclean C).
    destruct (text_facts E b0 (S (length cut'))) as (_ & _ & _ & F);
      [lia|rewrite Hcut, length_app; lia|].
    exact F.
  - rewrite Hcut, length_app. subst piece. rewrite length_take. lia.
Qed.

(** One formatted write at the cursor that fails: the text in the buffer
    is as it was, and the bytes from the cursor on are lost. *)
Lemma snprintf_break (L : Libc) clean b0 cap E out s :
  1 <= cap <= Z.of_nat (length b0) ->
  lstate_holds clean b0 cap E s ->
  ls_remaining s > 1 ->
  renders out = false ->
  exists b',
    snprintf L (ls_buffer s) (ls_cursor s) (ls_remaining s) out = (b', -1) /\
    lstate_holds false b0 cap E
      (mk_lstate b' (ls_cursor s) (ls_remaining s) (ls_total_written s)
                 (ls_total_count s) (ls_total_bytes s)).
Proof.
  intros Hcap H Hroom Hren.
  destruct (lstate_holds_room _ _ _ _ _ H Hroom) as [HE Hlen].
  destruct H as (Hp & Hl & Hd & _ & _ & Hc & Hr & Ht).
  cbv zeta in *. rewrite HE in Hp, Hc, Hr, Ht.
  rewrite snprintf_failed by exact Hren.
  set (G := take (Z.to_nat (ls_remaining s))
                 (snprintf_overflow L (ls_remaining s) out)).
  assert (HG : (length G <= Z.to_nat (ls_remaining s))%nat)
    by (subst G; rewrite length_take; lia).
  rewrite Hc, Nat2Z.id, store_bytes by (auto; lia).
  destruct (bytes_facts (ls_buffer s) E G (Z.to_nat cap)) as (F1 & F2 & F3);
    [lia|lia|].
  eexists. split; [reflexivity|].
  unfold lstate_holds. cbv zeta.
  cbn [ls_buffer ls_cursor ls_remaining ls_total_written].
  rewrite HE.
  split; [exact F1|]. split; [congruence|]. split; [congruence|].
  split; [right; exact Hroom|]. split; [discriminate|]. auto.
Qed.

Lemma listing_chain_holds (L : Libc) T b0 cap chain :
  1 <= cap <= Z.of_nat (length b0) -> cap < SIZE_MOD ->
  forall clean E s,
    lstate_holds clean b0 cap E s ->
    let s' := listing_chain L T chain s in
    lstate_holds (clean && forallb (fun a => renders (lst_line T a)) chain)
                 b0 cap
                 (E ++ concat (map (lst_line T) (listed_chain T chain))) s' /\
    (ls_remaining s' > 1 ->
     ls_total_count s' =
       fold_left (fun n _ => size_add n 1) (listed_chain T chain)
                 (ls_total_count s) /\
     ls_total_bytes s' =
       fold_left (fun n a => size_add n (alloc_size a)) (listed_chain T chain)
                 (ls_total_bytes s)).
Proof.
  intros Hcap Hsz.
  induction chain as [|a next IH]; intros clean E s H;
    cbn [listing_chain listed_chain forallb].
  - cbv zeta. cbn [map concat fold_left]. rewrite app_nil_r, andb_true_r. auto.
  - destruct (ls_remaining s >? 1) eqn:Hroom; zbool.
    + destruct (renders (lst_line T a)) eqn:Hren.
      * destruct (snprintf_append L clean b0 cap E (lst_line T a) s Hcap H)
          as (b' & Hw & F1 & F2 & F3 & F4 & F5 & Hcut); [lia|exact Hren|].
        rewrite Hw. cbv beta iota.
        apply renders_true in Hren.
        destruct (Z.of_nat (length (lst_line T a)) <? 0) eqn:Hneg; zbool; [lia|].
        set (written := if Z.of_nat (length (lst_line T a)) >=? ls_remaining s
                        then int_wrap (ls_remaining s - 1)
                        else Z.of_nat (length (lst_line T a))).
        assert (Hwritten : written =
                  Z.min (Z.of_nat (length (lst_line T a))) (ls_remaining s - 1)).
        { subst written.
          destruct (Z.of_nat (length (lst_line T a)) >=? ls_remaining s) eqn:C;
            zbool; [rewrite int_wrap_small by lia|]; lia. }
        match goal with
        | |- context [listing_chain L T next ?st] => set (s1 := st)
        end.
        assert (H1 : lstate_holds clean b0 cap (E ++ lst_line T a) s1).
        { rewrite <- Hwritten in Hcut.
          destruct H as (_ & _ & _ & _ & _ & Hc & Hr & Ht).
          unfold lstate_holds. cbv zeta. subst s1.
          cbn [ls_buffer ls_cursor ls_remaining ls_total_written].
          split; [exact F1|]. split; [exact F3|]. split; [exact F4|].
          split; [left; exact F2|]. split; [exact F5|].
          split; [lia|]. split.
          - unfold size_sub. rewrite Z.mod_small; lia.
          - rewrite Ht, int_add_wrap. f_equal. lia. }
        specialize (IH clean (E ++ lst_line T a) s1 H1). cbv zeta in IH.
        cbv zeta. cbn [map concat fold_left andb].
        rewrite <- app_assoc in IH. exact IH.
      * destruct (snprintf_break L clean b0 cap E (lst_line T a) s Hcap H)
          as (b' & Hw & Hh); [lia|exact Hren|].
        rewrite Hw. cbv beta iota. cbn [Z.ltb Z.compare].
        cbv zeta. cbn [map concat fold_left andb].
        rewrite app_nil_r, andb_false_r. split; [exact Hh|]. auto.
    + cbv zeta. split.
      * apply lstate_holds_weaken, lstate_holds_full; auto; lia.
      * intros; lia.
Qed.

Lemma listing_table_full (L : Libc) T table s :
  ls_remaining s <= 1 -> listing_table L T table s = s.
Proof.
  intros H. destruct table as [|chain rest]; simpl; [reflexivity|].
  destruct (ls_remaining s >? 1) eqn:C; zbool; [lia|reflexivity].
Qed.

Lemma listing_table_holds (L : Libc) T b0 cap table :
  1 <= cap <= Z.of_nat (length b0) -> cap < SIZE_MOD ->
  forall clean E s,
    lstate_holds clean b0 cap E s ->
    let s' := listing_table L T table s in
    let records := concat (map (listed_chain T) table) in
    lstate_holds
      (clean && forallb (fun a => renders (lst_line T a)) (concat table))
      b0 cap (E ++ concat (map (lst_line T) records)) s' /\
    (ls_remaining s' > 1 ->
     ls_total_count s' =
       fold_left (fun n _ => size_add n 1) records (ls_total_count s) /\
     ls_total_bytes s' =
       fold_left (fun n a => size_add n (alloc_size a)) records
                 (ls_total_bytes s)).
Proof.
  intros Hcap Hsz.
  induction table as [|chain rest IH]; intros clean E s H;
    cbn [listing_table concat map].
  - cbv zeta. cbn [map concat fold_left forallb].
    rewrite app_nil_r, andb_true_r. auto.
  - destruct (ls_remaining s >? 1) eqn:Hroom; zbool.
    + destruct (listing_chain_holds L T b0 cap chain Hcap Hsz clean E s H)
        as [H1 C1].
      specialize (IH _ _ _ H1). cbv zeta in IH. destruct IH as [H2 C2].
      cbv zeta. rewrite forallb_app, andb_assoc, map_app, concat_app, app_assoc.
      split; [exact H2|].
      intros Hroom'.
      destruct (Z_le_gt_dec (ls_remaining (listing_chain L T chain s)) 1)
        as [Hfull|Hgt].
      { rewrite listing_table_full in Hroom' by exact Hfull. lia. }
      destruct (C1 Hgt) as [Ec Eb]. destruct (C2 Hroom') as [Ec' Eb'].
      rewrite !fold_left_app, <- Ec, <- Eb. auto.
    + cbv zeta. split.
      * apply lstate_holds_weaken, lstate_holds_full; auto; lia.
      * intros; lia.
Qed.

(** The closing line. *)
Lemma listing_summary_holds (L : Libc) clean b0 cap E out s :
  1 <= cap <= Z.of_nat (length b0) ->
  lstate_holds clean b0 cap E s ->
  ls_remaining s > 1 ->
  renders out = true ->
  let s' := listing_summary L out s in
  holds_text (E ++ out) cap b0 (ls_buffer s') /\
  (clean = true -> ls_buffer s' = rendered (E ++ out) cap b0) /\
  ls_total_written s' =
    int_wrap (Z.of_nat (length (take (Z.to_nat (cap - 1)) (E ++ out)))) /\
  ls_remaining s' = ls_remaining s.
Proof.
  intros Hcap H Hroom Hren. cbv zeta. unfold listing_summary.
  destruct (snprintf_append L clean b0 cap E out s Hcap H Hroom Hren)
    as (b' & Hw & F1 & F2 & F3 & F4 & F5 & Hcut).
  rewrite Hw. cbv beta iota.
  destruct (lstate_holds_room _ _ _ _ _ H Hroom) as [HE _].
  assert (Ht : ls_total_written s = int_wrap (ls_cursor s)).
  { destruct H as (_ & _ & _ & _ & _ & Hc & _ & Ht). cbv zeta in *. congruence. }
  apply renders_true in Hren.
  assert (Hrem : ls_remaining s <= cap).
  { destruct H as (_ & _ & _ & _ & _ & _ & Hr & _). cbv zeta in Hr. lia. }
  destruct (Z.of_nat (length out) >? 0) eqn:Hpos; zbool;
    cbn [ls_buffer ls_total_written ls_remaining];
    (split; [unfold holds_text; cbv zeta; auto|]);
    (split; [exact F5|]); (split; [|reflexivity]).
  - rewrite Ht, int_add_wrap. f_equal. rewrite Hcut.
    destruct (Z.of_nat (length out) >=? ls_remaining s) eqn:C; zbool;
      [rewrite int_wrap_small by lia|]; lia.
  - rewrite Ht. f_equal. lia.
Qed.

Lemma fold_count_range (records : list memm_allocation) a :
  is_size_t a -> is_size_t (fold_left (fun n _ => size_add n 1) records a).
Proof.
  revert a. induction records as [|r records IH]; intros a Ha; simpl; auto.
  apply IH, size_add_range.
Qed.

Lemma fold_bytes_range (records : list memm_allocation) a :
  is_size_t a ->
  is_size_t (fold_left (fun n r => size_add n (alloc_size r)) records a).
Proof.
  revert a. induction records as [|r records IH]; intros a Ha; simpl; auto.
  apply IH, size_add_range.
Qed.

Lemma is_size_t_zero : is_size_t 0.
Proof. unfold is_size_t. split; [lia|reflexivity]. Qed.

(** A listing report on a buffer of capacity at least one: the buffer
    receives the text of the listing cut to the capacity and a null, and
    the value returned is the number of characters of the text that are
    in the buffer, as an [int].  When every record has a line that
    [snprintf] renders, the bytes behind the null are untouched. *)
Lemma listing_report_spec (L : Libc) T g b0 cap :
  frame_renders T ->
  1 <= cap <= Z.of_nat (length b0) -> cap < SIZE_MOD ->
  exists b',
    listing_report L T g (Some b0) cap =
      (Some b',
       int_wrap (Z.of_nat (length (take (Z.to_nat (cap - 1)) (listing_text T g))))) /\
    holds_text (listing_text T g) cap b0 b' /\
    (all_render T g = true -> b' = rendered (listing_text T g) cap b0).
Proof.
  intros (Rh & Rn & Rt) Hcap Hsz. unfold listing_report.
  destruct (cap =? 0) eqn:E0; zbool; [lia|].
  rewrite (snprintf_first L b0 (lst_header T) cap Hcap Rh).
  pose proof (proj1 (renders_true _) Rh) as Hh.
  destruct (Z.of_nat (length (lst_header T)) <? 0) eqn:E1; zbool; [lia|].
  destruct (Z.of_nat (length (lst_header T)) >=? cap) eqn:E2; zbool.
  - (* not even the header fits *)
    rewrite store_nul_rendered by lia.
    assert (Hcut : take (Z.to_nat (cap - 1)) (listing_text T g) =
                   take (Z.to_nat (cap - 1)) (lst_header T)).
    { unfold listing_text, listing_of. apply take_app_le. lia. }
    assert (Hr : rendered (lst_header T) cap b0 =
                 rendered (listing_text T g) cap b0).
    { unfold rendered. rewrite Hcut. reflexivity. }
    rewrite Hr, Hcut, length_take.
    eexists. split; [f_equal; f_equal; lia|].
    split; [apply rendered_holds_text, Hcap|reflexivity].
  - set (s0 := mk_lstate (rendered (lst_header T) cap b0)
                         (Z.of_nat (length (lst_header T)))
                         (size_sub cap (Z.of_nat (length (lst_header T))))
                         (int_add 0 (Z.of_nat (length (lst_header T)))) 0 0).
    assert (Hhd : take (Z.to_nat (cap - 1)) (lst_header T) = lst_header T)
      by (apply take_ge; lia).
    assert (H0 : lstate_holds true b0 cap (lst_header T) s0).
    { destruct (rendered_holds_text (lst_header T) cap b0 Hcap)
        as (G1 & G2 & G3 & G4).
      unfold lstate_holds. cbv zeta. subst s0.
      cbn [ls_buffer ls_cursor ls_remaining ls_total_written].
      cbv zeta in G1, G2. rewrite Hhd in *.
      split; [exact G1|]. split; [exact G3|]. split; [exact G4|].
      split; [left; exact G2|].
      split; [intros _; unfold rendered; rewrite Hhd; reflexivity|].
      split; [reflexivity|]. split.
      - unfold size_sub. apply Z.mod_small. lia.
      - unfold int_add. f_equal. }
    destruct (listing_table_holds L T b0 cap (hash_table g) Hcap Hsz _ _ _ H0)
      as [H1 C1].
    cbv zeta in H1, C1. cbn [andb] in H1.
    fold (all_render T g) in H1. fold (listed T g) in H1, C1.
    set (s1 := listing_table L T (hash_table g) s0) in *.
    set (E1' := lst_header T ++ concat (map (lst_line T) (listed T g))) in *.
    assert (Hrem : ls_remaining s1 >= 1).
    { destruct H1 as (_ & _ & _ & _ & _ & _ & Hrem & _). cbv zeta in Hrem.
      rewrite Hrem, length_take. lia. }
    assert (Htext : listing_text T g =
                    E1' ++ (if listing_count (listed T g) =? 0
                            then lst_none T
                            else lst_total T (listing_count (listed T g))
                                             (listing_bytes (listed T g)))).
    { unfold listing_text, listing_of. subst E1'. rewrite <- app_assoc.
      reflexivity. }
    destruct (ls_remaining s1 >? 1) eqn:Hroom; zbool.
    + destruct C1 as [Ec Eb]; [lia|].
      subst s0. cbn [ls_total_count ls_total_bytes] in Ec, Eb.
      fold (listing_count (listed T g)) in Ec.
      fold (listing_bytes (listed T g)) in Eb.
      rewrite Htext, Ec, Eb.
      destruct (listing_count (listed T g) =? 0) eqn:Hzero; cbn [andb].
      * destruct (listing_summary_holds L _ b0 cap E1' (lst_none T) s1 Hcap H1)
          as (Sh & Sb & St & Sr); [lia|exact Rn|].
        rewrite Sr, St.
        destruct (ls_remaining s1 =? 0) eqn:Z0; zbool; [lia|]. cbn [andb].
        eexists. split; [reflexivity|]. split; [exact Sh|exact Sb].
      * assert (Rt' : renders (lst_total T (listing_count (listed T g))
                                         (listing_bytes (listed T g))) = true).
        { apply Rt; [apply fold_count_range|apply fold_bytes_range];
            apply is_size_t_zero. }
        destruct (listing_summary_holds L _ b0 cap E1'
                    (lst_total T (listing_count (listed T g))
                                 (listing_bytes (listed T g)))
                    s1 Hcap H1) as (Sh & Sb & St & Sr); [lia|exact Rt'|].
        rewrite Sr, St.
        destruct (ls_remaining s1 =? 0) eqn:Z0; zbool; [lia|]. cbn [andb].
        eexists. split; [reflexivity|]. split; [exact Sh|exact Sb].
    + rewrite andb_false_r.
      destruct (ls_remaining s1 =? 0) eqn:Z0; zbool; [lia|]. cbn [andb].
      rewrite Htext.
      match goal with
      | |- context [E1' ++ ?m] =>
          pose proof (lstate_holds_full _ b0 cap E1' s1 m ltac:(lia) H1 ltac:(lia))
            as (F1 & F2 & F3 & F4 & F5 & _ & _ & Ft)
      end.
      cbv zeta in F1, F4, F5, Ft. rewrite Ft.
      eexists. split; [reflexivity|]. split.
      * unfold holds_text. cbv zeta.
        split; [exact F1|]. split; [|auto].
        destruct F4 as [F4|F4]; [exact F4|lia].
      * exact F5.
Qed.

(** When every record has a line that [snprintf] renders, the text of the
    listing is the one the specification describes. *)
Lemma listed_chain_all T chain :
  forallb (fun a => renders (lst_line T a)) chain = true ->
  listed_chain T chain = chain.
Proof.
  induction chain as [|a next IH]; simpl; [reflexivity|].
  intros H. apply andb_prop in H. destruct H as [Ha Hn].
  rewrite Ha, IH by exact Hn. reflexivity.
Qed.

Lemma listed_all T g :
  all_render T g = true -> listed T g = concat (hash_table g).
Proof.
  unfold all_render, listed. induction (hash_table g) as [|chain rest IH];
    simpl; [reflexivity|].
  rewrite forallb_app. intros H. apply andb_prop in H. destruct H as [Hc Hr].
  rewrite listed_chain_all, IH by assumption. reflexivity.
Qed.

Lemma listing_text_all_render T g :
  all_render T g = true -> listing_text T g = full_listing_text T g.
Proof.
  intros H. unfold listing_text, full_listing_text.
  rewrite listed_all by exact H. reflexivity.
Qed.

(** ** The three reports *)

Lemma fmt_zu_renders_bound z :
  is_size_t z -> Z.of_nat (length (fmt_zu z)) <= 20.
Proof. intros H. pose proof (fmt_zu_length z H). lia. Qed.

Lemma allocations_frame (L : Libc) : frame_renders (allocations_listing L).
Proof.
  split; [reflexivity|]. split; [reflexivity|].
  intros n b Hn Hb. apply renders_true.
  pose proof (fmt_zu_renders_bound n Hn). pose proof (fmt_zu_renders_bound b Hb).
  cbn [lst_total allocations_listing].
  rewrite !length_app, !length_lit. cbn [String.length nl length].
  unfold INT_MAX. lia.
Qed.

Lemma leaks_frame (L : Libc) : frame_renders (leaks_listing L).
Proof.
  split; [reflexivity|]. split; [reflexivity|].
  intros n b Hn Hb. apply renders_true.
  pose proof (fmt_zu_renders_bound n Hn). pose proof (fmt_zu_renders_bound b Hb).
  cbn [lst_total leaks_listing].
  rewrite !length_app, !length_lit. cbn [String.length nl length].
  unfold INT_MAX. lia.
Qed.

(** With counters that are [size_t] values the statistics are rendered. *)
Lemma stats_renders g : counters_in_range g -> renders (stats_text g) = true.
Proof.
  intros H. apply renders_true. pose proof (stats_text_length g H).
  unfold INT_MAX. lia.
Qed.

(** A buffer that holds a text leaves the buffer null-terminated. *)
Lemma holds_text_terminated text cap b0 b' returned :
  1 <= cap ->
  holds_text text cap b0 b' ->
  returned = int_wrap (Z.of_nat (length (take (Z.to_nat (cap - 1)) text))) ->
  null_terminated b' cap /\
  length b' = length b0 /\
  drop (Z.to_nat cap) b' = drop (Z.to_nat cap) b0 /\
  (cap <= INT_MAX -> 0 <= returned < cap /\ b' !! Z.to_nat returned = Some NUL).
Proof.
  intros Hcap (H1 & H2 & H3 & H4) Hret. cbv zeta in *.
  assert (Hlen : Z.of_nat (length (take (Z.to_nat (cap - 1)) text)) < cap)
    by (rewrite length_take; lia).
  split; [eexists; split; [exact Hlen|exact H2]|].
  split; [exact H3|]. split; [exact H4|].
  intros Hint. rewrite int_wrap_small in Hret by lia. subst returned.
  split; [lia|]. rewrite Nat2Z.id. exact H2.
Qed.

Lemma listing_leaves_terminated (L : Libc) T g buffer buffer_size :
  frame_renders T ->
  1 <= buffer_size <= Z.of_nat (length buffer) ->
  buffer_size < SIZE_MOD ->
  leaves_terminated (listing_report L T) g buffer buffer_size.
Proof.
  intros HT Hcap Hsz. unfold leaves_terminated.
  destruct (listing_report_spec L T g buffer buffer_size HT Hcap Hsz)
    as (b' & E & Hh & _).
  rewrite E. cbn [fst snd].
  destruct (holds_text_terminated _ _ _ _ _ (proj1 Hcap) Hh eq_refl)
    as (T1 & T2 & T3 & T4).
  exists b'. split; [reflexivity|]. split; [exact T1|].
  split; [exact T2|]. split; [exact T3|].
  intros Hint. cbv zeta. right. apply T4, Hint.
Qed.

Lemma stats_leaves_terminated (L : Libc) g buffer buffer_size :
  1 <= buffer_size <= Z.of_nat (length buffer) ->
  leaves_terminated (memm_get_stats_string L) g buffer buffer_size.
Proof.
  intros Hcap. unfold leaves_terminated.
  destruct (renders (stats_text g)) eqn:Hr.
  - rewrite stats_string_spec by assumption. cbn [fst snd].
    apply renders_true in Hr.
    destruct (holds_text_terminated (stats_text g) buffer_size buffer
                (rendered (stats_text g) buffer_size buffer)
                (Z.of_nat (length (take (Z.to_nat (buffer_size - 1)) (stats_text g))))
                (proj1 Hcap) (rendered_holds_text _ _ _ Hcap))
      as (T1 & T2 & T3 & T4).
    { rewrite int_wrap_small; [reflexivity|]. rewrite length_take. lia. }
    eexists. split; [reflexivity|]. split; [exact T1|].
    split; [exact T2|]. split; [exact T3|].
    intros Hint. cbv zeta. right. apply T4, Hint.
  - destruct (stats_string_failed L g buffer buffer_size Hcap Hr)
      as (b' & E & N0 & Hl & Hd).
    rewrite E. cbn [fst snd].
    exists b'. split; [reflexivity|].
    split; [exists 0%nat; split; [lia|exact N0]|].
    split; [exact Hl|]. split; [exact Hd|].
    intros _. cbv zeta. left. split; [reflexivity|exact N0].
Qed.

Lemma holds_text_truncated text cap b0 b' :
  1 <= cap -> cap <= Z.of_nat (length text) ->
  holds_text text cap b0 b' ->
  take (Z.to_nat (cap - 1)) b' = take (Z.to_nat (cap - 1)) text /\
  b' !! Z.to_nat (cap - 1) = Some NUL /\
  length (take (Z.to_nat (cap - 1)) text) = Z.to_nat (cap - 1).
Proof.
  intros Hcap Hshort (H1 & H2 & _). cbv zeta in *.
  assert (Hlen : length (take (Z.to_nat (cap - 1)) text) = Z.to_nat (cap - 1))
    by (rewrite length_take; lia).
  rewrite Hlen in H1, H2. auto.
Qed.

Lemma stats_truncates (L : Libc) g buffer buffer_size :
  renders (stats_text g) = true ->
  1 <= buffer_size <= Z.of_nat (length buffer) ->
  buffer_size <= INT_MAX ->
  buffer_size <= Z.of_nat (length (stats_text g)) ->
  truncates (memm_get_stats_string L) (stats_text g) g buffer buffer_size.
Proof.
  intros Hr Hcap Hint Hshort. unfold truncates.
  destruct (holds_text_truncated _ _ _ _ (proj1 Hcap) Hshort
              (rendered_holds_text (stats_text g) buffer_size buffer Hcap))
    as (T1 & T2 & T3).
  exists (rendered (stats_text g) buffer_size buffer).
  rewrite stats_string_spec by assumption. rewrite T3.
  split; [f_equal; lia|]. auto.
Qed.

Lemma listing_truncates (L : Libc) T g buffer buffer_size :
  frame_renders T ->
  1 <= buffer_size <= Z.of_nat (length buffer) ->
  buffer_size <= INT_MAX ->
  buffer_size <= Z.of_nat (length (listing_text T g)) ->
  truncates (listing_report L T) (listing_text T g) g buffer buffer_size.
Proof.
  intros HT Hcap Hint Hshort. unfold truncates.
  assert (Hsz : buffer_size < SIZE_MOD)
    by (apply Z.le_lt_trans with INT_MAX; [exact Hint|reflexivity]).
  destruct (listing_report_spec L T g buffer buffer_size HT Hcap Hsz)
    as (b' & E & Hh & _).
  destruct (holds_text_truncated _ _ _ _ (proj1 Hcap) Hshort Hh)
    as (T1 & T2 & T3).
  exists b'. rewrite E, T3.
  split; [f_equal; rewrite int_wrap_small by (unfold INT_MAX in *; lia); lia|].
  auto.
Qed.

(** When the capacity is enough, the buffer receives the whole text and
    its terminating null, and the length of the text is returned. *)
Lemma holds_text_fits text cap b0 b' :
  Z.of_nat (length text) < cap ->
  holds_text text cap b0 b' ->
  take (S (length text)) b' = text ++ [NUL].
Proof.
  intros Hfit (H1 & H2 & _). cbv zeta in *.
  assert (Ht : take (Z.to_nat (cap - 1)) text = text) by (apply take_ge; lia).
  rewrite Ht in H1, H2.
  rewrite (take_S_r _ _ _ H2), H1. reflexivity.
Qed.

(** C1.  For every registry state and every buffer of capacity at least
    one, each of the three report functions leaves the buffer
    null-terminated within its capacity and stores nothing behind the
    capacity, whether or not [snprintf] renders every text; when the
    capacity is a value of type [int], the null is at the index that is
    returned (at the start of the buffer when [-1] is returned).  For a
    null buffer or a capacity of zero each returns the negative sentinel
    [-1] and the buffer is as it was. *)
Theorem reports_leave_the_buffer_terminated
    (L : Libc) (g : memm_t) (buffer : list ascii) (buffer_size : Z) :
  1 <= buffer_size <= Z.of_nat (length buffer) ->
  buffer_size < SIZE_MOD ->
  leaves_terminated (memm_get_stats_string L) g buffer buffer_size /\
  leaves_terminated (memm_get_allocations_string L) g buffer buffer_size /\
  leaves_terminated (memm_get_leaks_string L) g buffer buffer_size /\
  refuses (memm_get_stats_string L) g buffer /\
  refuses (memm_get_allocations_string L) g buffer /\
  refuses (memm_get_leaks_string L) g buffer.
Proof.
  intros Hcap Hsz.
  split; [apply stats_leaves_terminated, Hcap|].
  split; [apply listing_leaves_terminated; auto using allocations_frame|].
  split; [apply listing_leaves_terminated; auto using leaks_frame|].
  repeat split; reflexivity.
Qed.

(** C7.  Let the capacity be at least one and at most [INT_MAX].  When
    the capacity is too small for the whole report (the text and its
    terminating null), each of the three report functions returns exactly
    the capacity minus one, and the buffer holds the first
    capacity-minus-one characters of the report followed by a null; for
    the statistics this supposes counters that are [size_t] values, as
    the members of [memm_t] are.  The report of a listing is the header,
    one line for each listed record and the closing line; every live
    record is listed when [snprintf] renders the line of each, and then
    the report is the one the specification describes.  A null buffer or
    a capacity of zero gives a negative value. *)
Theorem truncated_reports_return_capacity_minus_one
    (L : Libc) (g : memm_t) (buffer : list ascii) (buffer_size : Z) :
  1 <= buffer_size <= Z.of_nat (length buffer) ->
  buffer_size <= INT_MAX ->
  (counters_in_range g ->
   buffer_size <= Z.of_nat (length (stats_text g)) ->
   truncates (memm_get_stats_string L) (stats_text g) g buffer buffer_size) /\
  (buffer_size <= Z.of_nat (length (listing_text (allocations_listing L) g)) ->
   truncates (memm_get_allocations_string L)
             (listing_text (allocations_listing L) g) g buffer buffer_size) /\
  (buffer_size <= Z.of_nat (length (listing_text (leaks_listing L) g)) ->
   truncates (memm_get_leaks_string L)
             (listing_text (leaks_listing L) g) g buffer buffer_size) /\
  (all_render (allocations_listing L) g = true ->
   listing_text (allocations_listing L) g =
   full_listing_text (allocations_listing L) g) /\
  (all_render (leaks_listing L) g = true ->
   listing_text (leaks_listing L) g = full_listing_text (leaks_listing L) g) /\
  (forall n,
     snd (memm_get_stats_string L g None n) < 0 /\
     snd (memm_get_allocations_string L g None n) < 0 /\
     snd (memm_get_leaks_string L g None n) < 0) /\
  snd (memm_get_stats_string L g (Some buffer) 0) < 0 /\
  snd (memm_get_allocations_string L g (Some buffer) 0) < 0 /\
  snd (memm_get_leaks_string L g (Some buffer) 0) < 0.
Proof.
  intros Hcap Hint.
  split; [intros Hg H; apply (stats_truncates L g buffer buffer_size
                                (stats_renders g Hg) Hcap Hint H)|].
  split; [intros H; apply (listing_truncates L _ g buffer buffer_size
                             (allocations_frame L) Hcap Hint H)|].
  split; [intros H; apply (listing_truncates L _ g buffer buffer_size
                             (leaks_frame L) Hcap Hint H)|].
  split; [apply listing_text_all_render|].
  split; [apply listing_text_all_render|].
  repeat split; reflexivity.
Qed.

(** ** Runs keep the invariants *)

Lemma run_counters_ok (L : Libc) (cs : list call) (w : world L) :
  forallb call_sizes_ok cs = true ->
  counters_ok (g_memm w) -> counters_ok (g_memm (run L cs w)).
Proof.
  revert w. induction cs as [|c cs IH]; intros w Hcs Hok; simpl; [exact Hok|].
  simpl in Hcs. apply andb_prop in Hcs. destruct Hcs as [Hc Hcs].
  apply IH; [exact Hcs|]. apply step_counters_ok; assumption.
Qed.

(** Every state reached from the zeroed one satisfies the bucket
    invariant. *)
Lemma run_table_ok (L : Libc) (cs : list call) (w0 : world L) :
  g_memm w0 = memm_zero ->
  forallb call_sizes_ok cs = true ->
  table_ok (g_memm (run L cs w0)).
Proof.
  intros H0 Hcs. apply co_table, run_counters_ok; [exact Hcs|].
  rewrite H0. apply counters_ok_zero.
Qed.

Lemma boot_run_table_ok (script : list Z) (cs : list call) :
  forallb call_sizes_ok cs = true ->
  table_ok (g_memm (run scripted cs (boot script))).
Proof. apply run_table_ok. reflexivity. Qed.

(** Every state reached from one whose counters are [size_t] values has
    counters that are [size_t] values. *)
Lemma register_counters_in_range (L : Libc) (w : world L) ptr size file line :
  counters_in_range (g_memm w) ->
  counters_in_range (g_memm (memm_register_allocation L ptr size file line w)).
Proof.
  intros H.
  destruct (register_cases L w ptr size file line)
    as [[_ ->]|[(_ & _ & -> & _)|(_ & _ & now & _ & Ha & Hf & Hp & Hac & Hfc & _)]];
    auto.
  destruct H as (Ra & Rf & Rp & Rac & Rfc).
  unfold counters_in_range. rewrite Hp, Ha, Hf, Hac, Hfc.
  split; [apply size_add_range|]. split; [exact Rf|].
  split; [|split; [apply size_add_range|exact Rfc]].
  pose proof (size_sub_range (size_add (total_allocated (g_memm w)) size)
                             (total_freed (g_memm w))) as R.
  unfold is_size_t in *. lia.
Qed.

Lemma unregister_counters_in_range (L : Libc) (w : world L) ptr file line :
  counters_in_range (g_memm w) ->
  counters_in_range (g_memm (snd (memm_unregister_allocation L ptr file line w))).
Proof.
  intros H.
  destruct (unregister_cases L w ptr file line)
    as [(_ & _ & ->)|[(_ & _ & _ & ->)
       |(_ & r & chain' & _ & _ & _ & Ha & Hf & Hp & Hac & Hfc & _)]]; auto.
  destruct H as (Ra & Rf & Rp & Rac & Rfc).
  unfold counters_in_range. rewrite Ha, Hf, Hp, Hac, Hfc.
  split; [exact Ra|]. split; [apply size_add_range|].
  split; [exact Rp|]. split; [exact Rac|apply size_add_range].
Qed.

Lemma run_counters_in_range (L : Libc) (cs : list call) (w : world L) :
  counters_in_range (g_memm w) -> counters_in_range (g_memm (run L cs w)).
Proof.
  revert w. induction cs as [|c cs IH]; intros w H; simpl; [exact H|].
  apply IH.
  destruct (step_shape L c w) as (w1 & w2 & H1 & H2 & H3).
  assert (P1 : counters_in_range (g_memm w1)).
  { destruct H1 as [->|(ptr & file & line & ->)]; auto.
    apply unregister_counters_in_range, H. }
  rewrite <- H2 in P1.
  destruct H3 as [->|(ptr & size & file & line & _ & ->)]; auto.
  apply register_counters_in_range, P1.
Qed.

Lemma counters_in_range_zero : counters_in_range memm_zero.
Proof. unfold counters_in_range, is_size_t. simpl. repeat split; try lia; reflexivity. Qed.

(** ** The scenario of the specification *)

Example example_counters :
  let g := g_memm example_world in
  allocation_count g = 3 /\ free_count g = 1 /\
  memm_get_current_usage g = 40 /\ peak_memory g = 60 /\
  map alloc_size (iterate g) = [30; 10] /\
  live_bytes g = 40.
Proof. vm_compute. repeat split; reflexivity. Qed.

Example example_leaks_report :
  memm_get_leaks_string scripted (g_memm example_world)
    (Some (replicate 145 "x"%char)) 145 =
  (Some (lit "=== MEMORY LEAK REPORT ===" ++ nl ++
         lit "  LEAK:     30 bytes at 0x3000 (c.c:3)" ++ nl ++
         lit "  LEAK:     10 bytes at 0x1000 (a.c:1)" ++ nl ++
         lit "  TOTAL LEAKS: 2 allocations, 40 bytes" ++ nl ++ [NUL]),
   144).
Proof. vm_compute. reflexivity. Qed.

Example example_stats_fit_exactly :
  snd (memm_get_stats_string scripted (g_memm example_world)
         (Some (replicate 266 "x"%char)) 266) = 265 /\
  snd (memm_get_stats_string scripted (g_memm example_world)
         (Some (replicate 265 "x"%char)) 265) = 264.
Proof. vm_compute. split; reflexivity. Qed.

(** ** The theorems at concrete inputs *)

Lemma reports_leave_the_buffer_terminated_witness :
  1 <= 64 <= Z.of_nat (length sixty_four_bytes) /\
  64 < SIZE_MOD /\
  leaves_terminated (memm_get_stats_string scripted) (g_memm example_world)
                    sixty_four_bytes 64 /\
  leaves_terminated (memm_get_allocations_string scripted)
                    (g_memm example_world) sixty_four_bytes 64 /\
  leaves_terminated (memm_get_leaks_string scripted) (g_memm example_world)
                    sixty_four_bytes 64.
Proof.
  assert (H1 : 1 <= 64 <= Z.of_nat (length sixty_four_bytes))
    by (unfold sixty_four_bytes; rewrite length_replicate; lia).
  assert (H2 : 64 < SIZE_MOD) by reflexivity.
  split; [exact H1|]. split; [exact H2|].
  destruct (reports_leave_the_buffer_terminated scripted (g_memm example_world)
              sixty_four_bytes 64 H1 H2) as (S & A & T & _).
  split; [exact S|]. split; [exact A|exact T].
Defined.

Lemma peak_memory_monotone_and_covers_usage_witness :
  g_memm (boot example_script) = memm_zero /\
  forallb call_sizes_ok example_calls = true /\
  live_bytes_fit example_calls (boot example_script) = true /\
  memm_get_current_usage (g_memm example_world) <=
  peak_memory (g_memm example_world).
Proof.
  assert (H1 : g_memm (boot example_script) = memm_zero) by reflexivity.
  assert (H2 : forallb call_sizes_ok example_calls = true) by reflexivity.
  assert (H3 : live_bytes_fit example_calls (boot example_script) = true)
    by (vm_compute; reflexivity).
  split; [exact H1|]. split; [exact H2|]. split; [exact H3|].
  apply (peak_memory_monotone_and_covers_usage scripted (boot example_script)
           example_calls H1 H2) with (cs2 := []).
  - exact H3.
  - symmetry. apply app_nil_r.
Defined.

Lemma resize_unregisters_then_registers_witness :
  4096 <> NULL /\
  table_ok (g_memm resizable_world) /\
  List.filter (fun r => alloc_ptr r =? 4096) (iterate (g_memm resizable_world)) =
    [one_block_record] /\
  fst (memm_realloc scripted 4096 10 "b.c" 2 resizable_world) = 8192 /\
  total_freed (g_memm (snd (memm_realloc scripted 4096 10 "b.c" 2 resizable_world))) =
    size_add (total_freed (g_memm resizable_world)) 100.
Proof.
  assert (H1 : 4096 <> NULL) by discriminate.
  assert (H2 : table_ok (g_memm resizable_world))
    by (apply boot_run_table_ok; reflexivity).
  assert (H3 : List.filter (fun r => alloc_ptr r =? 4096)
                 (iterate (g_memm resizable_world)) = [one_block_record])
    by (vm_compute; reflexivity).
  split; [exact H1|]. split; [exact H2|]. split; [exact H3|].
  destruct (resize_unregisters_then_registers scripted resizable_world 4096 10
              "b.c" 2 one_block_record H1 H2 H3) as (E & Hf & _).
  split; [exact E|exact Hf].
Defined.

Lemma release_untracked_forwards_once_witness :
  8192 <> NULL /\
  tracked (g_memm example_world) 8192 = false /\
  memm_unregister_allocation scripted 8192 "d.c" 5 example_world =
    (false, example_world) /\
  calls (memm_free scripted 8192 "d.c" 5 example_world) =
    calls example_world ++ [CallFree 8192].
Proof.
  assert (H1 : 8192 <> NULL) by discriminate.
  assert (H2 : tracked (g_memm example_world) 8192 = false)
    by (vm_compute; reflexivity).
  split; [exact H1|]. split; [exact H2|].
  destruct (release_untracked_forwards_once scripted example_world 8192 "d.c" 5
              H1 H2) as (U & _ & _ & _ & _ & _ & _ & C & _).
  split; [exact U|exact C].
Defined.

Lemma allocate_then_release_round_trip_witness :
  length (hash_table (g_memm (boot [4096; 65536]))) =
    Z.to_nat MEMM_HASH_TABLE_SIZE /\
  fst (memm_malloc scripted 16 "a.c" 1 (boot [4096; 65536])) <> NULL /\
  tracked (g_memm (boot [4096; 65536]))
          (fst (memm_malloc scripted 16 "a.c" 1 (boot [4096; 65536]))) = false /\
  tracked
    (g_memm (memm_free scripted
               (fst (memm_malloc scripted 16 "a.c" 1 (boot [4096; 65536])))
               "a.c" 2
               (snd (memm_malloc scripted 16 "a.c" 1 (boot [4096; 65536])))))
    (fst (memm_malloc scripted 16 "a.c" 1 (boot [4096; 65536]))) = false.
Proof.
  assert (H1 : length (hash_table (g_memm (boot [4096; 65536]))) =
               Z.to_nat MEMM_HASH_TABLE_SIZE) by apply table_ok_zero.
  assert (H2 : fst (memm_malloc scripted 16 "a.c" 1 (boot [4096; 65536])) <> NULL)
    by (vm_compute; discriminate).
  assert (H3 : tracked (g_memm (boot [4096; 65536]))
                 (fst (memm_malloc scripted 16 "a.c" 1 (boot [4096; 65536]))) = false)
    by (vm_compute; reflexivity).
  split; [exact H1|]. split; [exact H2|]. split; [exact H3|].
  apply (allocate_then_release_round_trip scripted (boot [4096; 65536]) 16
           "a.c" 1 "a.c" 2 H1 H2 H3).
Defined.

Lemma allocate_failure_registers_nothing_witness :
  fst (real_malloc scripted 16 (heap (boot []))) = NULL /\
  fst (memm_malloc scripted 16 "a.c" 1 (boot [])) = NULL /\
  g_memm (snd (memm_malloc scripted 16 "a.c" 1 (boot []))) = g_memm (boot []).
Proof.
  assert (H1 : fst (real_malloc scripted 16 (heap (boot []))) = NULL)
    by reflexivity.
  split; [exact H1|].
  destruct (allocate_failure_registers_nothing scripted (boot []) 16 "a.c" 1 H1)
    as (R & G & _).
  split; [exact R|exact G].
Defined.

Lemma truncated_reports_return_capacity_minus_one_witness :
  counters_in_range (g_memm example_world) /\
  1 <= 64 <= Z.of_nat (length sixty_four_bytes) /\
  64 <= INT_MAX /\
  64 <= Z.of_nat (length (listing_text (allocations_listing scripted)
                                       (g_memm example_world))) /\
  64 <= Z.of_nat (length (stats_text (g_memm example_world))) /\
  truncates (memm_get_stats_string scripted) (stats_text (g_memm example_world))
            (g_memm example_world) sixty_four_bytes 64 /\
  truncates (memm_get_allocations_string scripted)
            (listing_text (allocations_listing scripted) (g_memm example_world))
            (g_memm example_world) sixty_four_bytes 64.
Proof.
  assert (H0 : counters_in_range (g_memm example_world))
    by (unfold counters_in_range, is_size_t; vm_compute;
        repeat split; (reflexivity || discriminate)).
  assert (H1 : 1 <= 64 <= Z.of_nat (length sixty_four_bytes))
    by (unfold sixty_four_bytes; rewrite length_replicate; lia).
  assert (H2 : 64 <= INT_MAX) by discriminate.
  assert (H3 : 64 <= Z.of_nat (length (listing_text (allocations_listing scripted)
                                                    (g_memm example_world))))
    by (vm_compute; discriminate).
  split; [exact H0|]. split; [exact H1|]. split; [exact H2|]. split; [exact H3|].
  assert (H4 : 64 <= Z.of_nat (length (stats_text (g_memm example_world))))
    by (vm_compute; discriminate).
  split; [exact H4|].
  destruct (truncated_reports_return_capacity_minus_one scripted
              (g_memm example_world) sixty_four_bytes 64 H1 H2)
    as (S & A & _).
  split; [exact (S H0 H4)|exact (A H3)].
Defined.

Lemma records_reside_in_their_hash_bucket_witness :
  table_ok (g_memm resizable_world) /\
  4096 <> NULL /\
  fst (real_malloc scripted sizeof_memm_allocation (heap resizable_world))
    <> NULL /\
  unlink 4096 (bucket (g_memm resizable_world) (memm_hash_ptr 4096)) =
    Some (one_block_record, []) /\
  table_ok (g_memm (memm_register_allocation scripted 4096 16 "e.c" 5
                      resizable_world)) /\
  table_ok (g_memm (snd (memm_unregister_allocation scripted 4096 "e.c" 5
                           resizable_world))) /\
  (exists node,
     alloc_ptr node = 4096 /\ alloc_size node = 16 /\
     bucket (g_memm (memm_register_allocation scripted 4096 16 "e.c" 5
                       resizable_world)) (memm_hash_ptr 4096) =
       node :: bucket (g_memm resizable_world) (memm_hash_ptr 4096)) /\
  fst (memm_unregister_allocation scripted 4096 "e.c" 5 resizable_world) = true /\
  bucket (g_memm (snd (memm_unregister_allocation scripted 4096 "e.c" 5
                         resizable_world))) (memm_hash_ptr 4096) = [].
Proof.
  assert (H1 : table_ok (g_memm resizable_world))
    by (apply boot_run_table_ok; reflexivity).
  assert (H2 : 4096 <> NULL) by discriminate.
  assert (H3 : fst (real_malloc scripted sizeof_memm_allocation
                      (heap resizable_world)) <> NULL)
    by (vm_compute; discriminate).
  assert (H4 : unlink 4096 (bucket (g_memm resizable_world) (memm_hash_ptr 4096)) =
               Some (one_block_record, []))
    by (vm_compute; reflexivity).
  split; [exact H1|]. split; [exact H2|]. split; [exact H3|]. split; [exact H4|].
  destruct (records_reside_in_their_hash_bucket scripted resizable_world 4096 16
              "e.c" 5 H1) as (_ & _ & _ & _ & R & U & _ & I & S).
  split; [exact R|]. split; [exact U|]. split; [exact (I H2 H3)|].
  specialize (S H2). rewrite H4 in S. exact S.
Defined.

Lemma freed_never_exceeds_allocated_without_wrap_witness :
  g_memm (boot example_script) = memm_zero /\
  forallb call_sizes_ok example_calls = true /\
  allocated_never_wraps scripted example_calls (boot example_script) = true /\
  total_freed (g_memm example_world) <= total_allocated (g_memm example_world).
Proof.
  assert (H1 : g_memm (boot example_script) = memm_zero) by reflexivity.
  assert (H2 : forallb call_sizes_ok example_calls = true) by reflexivity.
  assert (H3 : allocated_never_wraps scripted example_calls (boot example_script)
               = true) by (vm_compute; reflexivity).
  split; [exact H1|]. split; [exact H2|]. split; [exact H3|].
  apply (freed_never_exceeds_allocated_without_wrap scripted (boot example_script)
           example_calls H1 H2 H3 example_calls []).
  symmetry. apply app_nil_r.
Defined.

(** ** Where the unamended statements fail *)

(** C2 as first stated fails: from the zeroed state, after a block of
    [2^62] bytes and a block of [3 * 2^62] bytes are allocated and the
    first is released, [current_usage] is [3 * 2^62] and [peak_memory] is
    [2^62]. *)
Lemma peak_below_usage_counterexample :
  let w := run scripted overlap_calls (boot overlap_script) in
  g_memm (boot overlap_script) = memm_zero /\
  forallb call_sizes_ok overlap_calls = true /\
  peak_memory (g_memm w) = 2 ^ 62 /\
  memm_get_current_usage (g_memm w) = 3 * 2 ^ 62 /\
  ~ (memm_get_current_usage (g_memm w) <= peak_memory (g_memm w)).
Proof.
  vm_compute. repeat split; try reflexivity. intros H. apply H. reflexivity.
Qed.

(** C9 as first stated fails: after three blocks of [2^62] bytes have been
    allocated and released in turn, a fourth allocation of [2^62] bytes
    takes [total_allocated] round to [0] while [total_freed] is
    [3 * 2^62]. *)
Lemma freed_exceeds_allocated_counterexample :
  let w := run scripted churn_calls (boot churn_script) in
  g_memm (boot churn_script) = memm_zero /\
  forallb call_sizes_ok churn_calls = true /\
  total_allocated (g_memm w) = 0 /\
  total_freed (g_memm w) = 3 * 2 ^ 62 /\
  ~ (total_freed (g_memm w) <= total_allocated (g_memm w)) /\
  memm_get_current_usage (g_memm w) <>
    total_allocated (g_memm w) - total_freed (g_memm w).
Proof.
  vm_compute. repeat split; try reflexivity.
  - intros H. apply H. reflexivity.
  - discriminate.
Qed.

(** C3 as first stated fails.  First: the address holds one record of 100
    bytes, the library resizes it to 10 bytes at address 8192, and the
    registry cannot get a node for the new record; [total_allocated] does
    not move and 8192 is not registered.  Second: with [total_allocated]
    at [2^64 - 1], a successful resize to 10 bytes that is registered
    leaves [total_allocated] at 9, which is not 10 more.  Third: the
    address holds two records (the later one shadows the earlier), the
    library fails to resize, and the registry still holds a record for
    the address. *)
Lemma resize_counterexample :
  (let w := one_block_world in
   let result := memm_realloc scripted 4096 10 "b.c" 2 w in
   List.filter (fun r => alloc_ptr r =? 4096) (iterate (g_memm w)) =
     [one_block_record] /\
   fst result = 8192 /\
   total_allocated (g_memm (snd result)) = total_allocated (g_memm w) /\
   total_allocated (g_memm (snd result)) <> total_allocated (g_memm w) + 10 /\
   tracked (g_memm (snd result)) 8192 = false) /\
  (let w := brim_world in
   let result := memm_realloc scripted 4096 10 "b.c" 2 w in
   map alloc_size (List.filter (fun r => alloc_ptr r =? 4096) (iterate (g_memm w))) =
     [2 ^ 62 - 1] /\
   fst result = 8192 /\
   tracked (g_memm (snd result)) 8192 = true /\
   total_allocated (g_memm w) = 2 ^ 64 - 1 /\
   total_allocated (g_memm (snd result)) = 9 /\
   total_allocated (g_memm (snd result)) <> total_allocated (g_memm w) + 10) /\
  (let w := shadowed_world in
   let result := memm_realloc scripted 4096 10 "c.c" 3 w in
   map alloc_size (List.filter (fun r => alloc_ptr r =? 4096) (iterate (g_memm w))) =
     [32; 16] /\
   fst result = NULL /\
   tracked (g_memm (snd result)) 4096 = true).
Proof.
  vm_compute. repeat split; try reflexivity; discriminate.
Qed.

(** C5 as first stated fails.  First: when the registry already holds a
    record for the address that [memm_malloc] returns, the release that
    follows unlinks the new record and the address is still met by a
    traversal.  Second: when, in addition, the registry cannot get a node
    for the new record, the release unlinks the old record, and
    [allocation_count - free_count] is one less than before the pair. *)
Lemma round_trip_counterexample :
  (let w := stale_world in
   let ptr := fst (memm_malloc scripted 32 "b.c" 1 w) in
   let w' := memm_free scripted ptr "b.c" 2 (snd (memm_malloc scripted 32 "b.c" 1 w)) in
   ptr = 4096 /\ tracked (g_memm w') ptr = true) /\
  (let w := stale_world_no_node in
   let ptr := fst (memm_malloc scripted 32 "b.c" 1 w) in
   let w' := memm_free scripted ptr "b.c" 2 (snd (memm_malloc scripted 32 "b.c" 1 w)) in
   ptr = 4096 /\
   size_sub (allocation_count (g_memm w)) (free_count (g_memm w)) = 1 /\
   size_sub (allocation_count (g_memm w')) (free_count (g_memm w')) = 0).
Proof.
  vm_compute. repeat split; reflexivity.
Qed.

(** C7 as first stated fails.  A record whose call site has a file name
    of [2^31] characters has a line that [snprintf] cannot render: the
    call returns [-1], the loop over the chain is left and the record is
    not listed.  With that record alone in the registry, the report the
    specification describes (header, the line of the record, the totals)
    has more than [INT_MAX] characters, so a capacity of 64 is
    insufficient for it; [memm_get_allocations_string] nevertheless
    returns 52, not 63: the buffer holds the header and the line that
    says that there is no allocation. *)
Lemma overlong_line_is_dropped (file : string) :
  INT_MAX < Z.of_nat (length (lit file)) ->
  let g := g_memm (run scripted [Malloc 16 file 1] (boot [4096; 65536])) in
  let text := lit "=== CURRENT ALLOCATIONS ===" ++ nl ++
              lit "  No active allocations" ++ nl in
  iterate g = [mk_allocation 65536 4096 16 file 1 1700000000] /\
  64 <= Z.of_nat (length (full_listing_text (allocations_listing scripted) g)) /\
  listing_text (allocations_listing scripted) g = text /\
  exists b',
    memm_get_allocations_string scripted g (Some sixty_four_bytes) 64 =
      (Some b', 52) /\
    take 53 b' = text ++ [NUL].
Proof.
  intros Hlong. cbv zeta.
  set (g := g_memm (run scripted [Malloc 16 file 1] (boot [4096; 65536]))).
  set (r := mk_allocation 65536 4096 16 file 1 1700000000).
  set (T := allocations_listing scripted).
  assert (Ht : hash_table g = [r] :: replicate 2047 [])
    by (vm_compute; reflexivity).
  assert (Hi : concat (hash_table g) = [r])
    by (rewrite Ht; vm_compute; reflexivity).
  assert (Hline : INT_MAX < Z.of_nat (length (lst_line T r))).
  { subst T r. cbn [lst_line allocations_listing alloc_file].
    rewrite !length_app. lia. }
  assert (Hr : renders (lst_line T r) = false) by (apply renders_false, Hline).
  assert (Hl : listed T g = []).
  { unfold listed. rewrite Ht. cbn [map listed_chain]. rewrite Hr.
    vm_compute. reflexivity. }
  assert (Htext : listing_text T g =
                  lit "=== CURRENT ALLOCATIONS ===" ++ nl ++
                  lit "  No active allocations" ++ nl).
  { unfold listing_text. rewrite Hl. vm_compute. reflexivity. }
  split; [exact Hi|]. split.
  { unfold full_listing_text, listing_of. rewrite Hi. cbn [map concat].
    rewrite !length_app. unfold INT_MAX in Hline. lia. }
  split; [exact Htext|].
  destruct (listing_report_spec scripted T g sixty_four_bytes 64
              (allocations_frame scripted))
    as (b' & E & Hh & _);
    [unfold sixty_four_bytes; rewrite length_replicate; lia|reflexivity|].
  exists b'. split.
  - unfold memm_get_allocations_string. fold T. rewrite E, Htext.
    vm_compute. reflexivity.
  - rewrite Htext in Hh.
    assert (Hfit : Z.of_nat (length (lit "=== CURRENT ALLOCATIONS ===" ++ nl ++
                                     lit "  No active allocations" ++ nl)) < 64)
      by (vm_compute; reflexivity).
    exact (holds_text_fits _ 64 sixty_four_bytes b' Hfit Hh).
Qed.

Lemma overlong_file_length : INT_MAX < Z.of_nat (length (lit overlong_file)).
Proof.
  unfold lit, overlong_file.
  rewrite list_ascii_of_string_of_list_ascii, length_replicate.
  rewrite Z2Nat.id by (apply Z.pow_nonneg; discriminate).
  reflexivity.
Qed.

Lemma truncation_counterexample :
  let g := g_memm (run scripted [Malloc 16 overlong_file 1] (boot [4096; 65536])) in
  let text := lit "=== CURRENT ALLOCATIONS ===" ++ nl ++
              lit "  No active allocations" ++ nl in
  iterate g = [mk_allocation 65536 4096 16 overlong_file 1 1700000000] /\
  64 <= Z.of_nat (length (full_listing_text (allocations_listing scripted) g)) /\
  listing_text (allocations_listing scripted) g = text /\
  exists b',
    memm_get_allocations_string scripted g (Some sixty_four_bytes) 64 =
      (Some b', 52) /\
    take 53 b' = text ++ [NUL].
Proof. exact (overlong_line_is_dropped overlong_file overlong_file_length). Qed.

(** ** Start and shutdown *)

Lemma memm_init_zero (L : Libc) (w : world L) :
  g_memm (memm_init L w) = memm_zero /\ iterate (g_memm (memm_init L w)) = [].
Proof. split; [reflexivity|]. vm_compute. reflexivity. Qed.

Lemma memm_shutdown_empties (L : Libc) (w : world L) :
  iterate (g_memm (memm_shutdown L w)) = [] /\
  length (hash_table (g_memm (memm_shutdown L w))) =
    length (hash_table (g_memm w)) /\
  calls (memm_shutdown L w) =
    calls w ++ map (fun r => CallFree (alloc_node r)) (iterate (g_memm w)).
Proof.
  unfold memm_shutdown.
  assert (F : forall records (w0 : world L),
            g_memm (fold_left (fun w' r => free L (alloc_node r) w') records w0) =
              g_memm w0 /\
            calls (fold_left (fun w' r => free L (alloc_node r) w') records w0) =
              calls w0 ++ map (fun r => CallFree (alloc_node r)) records).
  { induction records as [|r records IH]; intros w0; simpl.
    - rewrite app_nil_r. auto.
    - destruct (IH (free L (alloc_node r) w0)) as [G C].
      rewrite G, C. simpl. rewrite <- app_assoc. auto. }
  destruct (F (iterate (g_memm w)) w) as [G C].
  cbn [g_memm with_memm hash_table calls]. rewrite G, C.
  split; [|split; [apply length_map|reflexivity]].
  unfold iterate. cbn [hash_table].
  induction (hash_table (g_memm w)) as [|chain table IH]; simpl; auto.
Qed.

(** * Further properties of the registry and of the tracked calls *)

(** ** Helpers *)

Lemma memm_free_unfold (L : Libc) (w : world L) ptr file line :
  memm_free L ptr file line w =
  free L ptr (snd (memm_unregister_allocation L ptr file line w)).
Proof.
  unfold memm_free.
  destruct (memm_unregister_allocation L ptr file line w) as [[|] w1];
    reflexivity.
Qed.

Lemma records_of_app g1 ptr l1 l2 :
  iterate g1 = l1 ++ l2 ->
  records_of g1 ptr =
  List.filter (fun r => alloc_ptr r =? ptr) l1 ++
  List.filter (fun r => alloc_ptr r =? ptr) l2.
Proof. intros E. unfold records_of. rewrite E. apply List.filter_app. Qed.

Lemma tracked_records_of g ptr :
  tracked g ptr = false <-> records_of g ptr = [].
Proof. unfold tracked, records_of. symmetry. apply filter_nil_existsb. Qed.

(** In a table that satisfies the bucket invariant, a tracked address is
    found by the scan of its bucket. *)
Lemma tracked_unlink g ptr :
  table_ok g -> tracked g ptr = true ->
  exists to_free chain',
    unlink ptr (bucket g (memm_hash_ptr ptr)) = Some (to_free, chain').
Proof.
  intros Hok Ht. apply tracked_true in Ht. destruct Ht as (r & Hr & Hp).
  destruct (unlink ptr (bucket g (memm_hash_ptr ptr))) as [[to_free chain']|] eqn:U.
  - eauto.
  - exfalso. apply unlink_None in U. rewrite List.Forall_forall in U.
    apply (U r); auto. apply tracked_in_bucket; auto.
Qed.

(** The records before the bucket of [ptr] in traversal order are records
    of other addresses. *)
Lemma earlier_buckets_other g ptr :
  table_ok g ->
  Forall (fun r => alloc_ptr r <> ptr)
         (concat (take (Z.to_nat (memm_hash_ptr ptr)) (hash_table g))).
Proof.
  intros [_ Hin]. apply List.Forall_forall. intros r Hr Hp.
  apply in_concat in Hr. destruct Hr as (chain & Hchain & Hr).
  apply list_elem_of_In, list_elem_of_lookup in Hchain.
  destruct Hchain as [i Hi]. apply lookup_take_Some in Hi.
  destruct Hi as [Hi Hlt].
  pose proof (Hin _ _ _ Hi Hr) as Hh. rewrite Hp in Hh.
  pose proof (memm_hash_ptr_range ptr). lia.
Qed.

(** What a successful unregistration removes is the first record the
    traversal meets for [ptr]. *)
Lemma unregister_first_record g g' ptr to_free chain' :
  table_ok g ->
  unlink ptr (bucket g (memm_hash_ptr ptr)) = Some (to_free, chain') ->
  hash_table g' = <[Z.to_nat (memm_hash_ptr ptr) := chain']> (hash_table g) ->
  exists pre post,
    iterate g = pre ++ to_free :: post /\ iterate g' = pre ++ post /\
    alloc_ptr to_free = ptr /\ Forall (fun r => alloc_ptr r <> ptr) pre.
Proof.
  intros Hok U Ht.
  pose proof (bucket_unlink_Some g ptr _ _ U) as Hb.
  destruct (unlink_Some _ _ _ _ U) as (before & after & Hc & Hc' & Hp & Hbefore).
  exists (concat (take (Z.to_nat (memm_hash_ptr ptr)) (hash_table g)) ++ before),
         (after ++ concat (drop (S (Z.to_nat (memm_hash_ptr ptr))) (hash_table g))).
  unfold iterate. split; [|split; [|split]].
  - rewrite <- (take_drop_middle _ _ _ Hb) at 1.
    rewrite concat_app. simpl. rewrite Hc, <- !app_assoc. reflexivity.
  - rewrite Ht, insert_take_drop by (eapply lookup_lt_Some; eauto).
    rewrite concat_app. simpl. rewrite Hc', <- !app_assoc. reflexivity.
  - exact Hp.
  - apply Forall_app. split; [apply earlier_buckets_other, Hok|exact Hbefore].
Qed.

(** A successful registration, spelled out. *)
Lemma register_success (L : Libc) (w : world L) ptr size file line :
  length (hash_table (g_memm w)) = Z.to_nat MEMM_HASH_TABLE_SIZE ->
  ptr <> NULL ->
  fst (real_malloc L sizeof_memm_allocation (heap w)) <> NULL ->
  let g := g_memm w in
  let w' := memm_register_allocation L ptr size file line w in
  let g' := g_memm w' in
  exists now pre post,
    let node := mk_allocation
                  (fst (real_malloc L sizeof_memm_allocation (heap w)))
                  ptr size file line now in
    hash_table g' =
      <[Z.to_nat (memm_hash_ptr ptr) := node :: bucket g (memm_hash_ptr ptr)]>
        (hash_table g) /\
    bucket g' (memm_hash_ptr ptr) = node :: bucket g (memm_hash_ptr ptr) /\
    iterate g = pre ++ post /\ iterate g' = pre ++ node :: post /\
    total_allocated g' = size_add (total_allocated g) size /\
    total_freed g' = total_freed g /\
    peak_memory g' =
      Z.max (peak_memory g) (size_sub (total_allocated g') (total_freed g)) /\
    allocation_count g' = size_add (allocation_count g) 1 /\
    free_count g' = free_count g /\
    calls w' = calls w ++
      [CallMalloc sizeof_memm_allocation
                  (fst (real_malloc L sizeof_memm_allocation (heap w)))].
Proof.
  intros Hlen Hp Hnode. cbv zeta.
  destruct (register_cases L w ptr size file line)
    as [[E _]|[(_ & E & _)|(_ & _ & now & Ht & Ha & Hf & Hpk & Hac & Hfc & Hc)]];
    [contradiction|contradiction|].
  destruct (register_iterate _ _ _ _ Hlen Ht) as (pre & post & E & E').
  exists now, pre, post.
  split; [exact Ht|]. split.
  { unfold bucket at 1. rewrite Ht.
    rewrite list_lookup_insert_eq by (apply hash_index_lt, Hlen). reflexivity. }
  repeat split; assumption.
Qed.

(** ** Release of a tracked address *)

Lemma memm_free_tracked
    (L : Libc) (w : world L) (ptr : Z) (file : string) (line : Z) :
  ptr <> NULL ->
  table_ok (g_memm w) ->
  tracked (g_memm w) ptr = true ->
  let g := g_memm w in
  let w' := memm_free L ptr file line w in
  let g' := g_memm w' in
  exists to_free pre post,
    iterate g = pre ++ to_free :: post /\
    iterate g' = pre ++ post /\
    alloc_ptr to_free = ptr /\
    Forall (fun r => alloc_ptr r <> ptr) pre /\
    fst (memm_unregister_allocation L ptr file line w) = true /\
    total_freed g' = size_add (total_freed g) (alloc_size to_free) /\
    free_count g' = size_add (free_count g) 1 /\
    total_allocated g' = total_allocated g /\
    peak_memory g' = peak_memory g /\
    allocation_count g' = allocation_count g /\
    calls w' = calls w ++ [CallFree (alloc_node to_free); CallFree ptr] /\
    heap w' = real_free L ptr (real_free L (alloc_node to_free) (heap w)).
Proof.
  intros Hp Hok Ht. cbv zeta. rewrite memm_free_unfold.
  destruct (tracked_unlink _ _ Hok Ht) as (r0 & c0 & U0).
  destruct (unregister_cases L w ptr file line)
    as [(E & _)|[(_ & U & _)
       |(_ & r & chain' & U & Hfound & Htab & Ha & Hf & Hpk & Hac & Hfc & Hc & Hh)]].
  - contradiction.
  - rewrite U in U0. discriminate.
  - destruct (unregister_first_record _ _ _ _ _ Hok U Htab)
      as (pre & post & E & E' & Hr & Hpre).
    exists r, pre, post. cbn [free g_memm calls heap].
    rewrite Hc, Hh, <- app_assoc.
    repeat split; assumption.
Qed.


(** X1.  For a non-null address that the registry tracks, [memm_free] unlinks
    the first record the traversal meets for it, releases the node of
    that record and then the block itself (two calls to the library, in
    that order), adds the size of the record to [total_freed] and one to
    [free_count], and leaves the other counters and all other records,
    in their order, as they were. *)
Theorem release_tracked_unlinks_first_record
    (L : Libc) (w : world L) (ptr : Z) (file : string) (line : Z) :
  ptr <> NULL ->
  table_ok (g_memm w) ->
  tracked (g_memm w) ptr = true ->
  let g := g_memm w in
  let w' := memm_free L ptr file line w in
  let g' := g_memm w' in
  exists to_free pre post,
    iterate g = pre ++ to_free :: post /\
    iterate g' = pre ++ post /\
    alloc_ptr to_free = ptr /\
    Forall (fun r => alloc_ptr r <> ptr) pre /\
    fst (memm_unregister_allocation L ptr file line w) = true /\
    total_freed g' = size_add (total_freed g) (alloc_size to_free) /\
    free_count g' = size_add (free_count g) 1 /\
    total_allocated g' = total_allocated g /\
    peak_memory g' = peak_memory g /\
    allocation_count g' = allocation_count g /\
    calls w' = calls w ++ [CallFree (alloc_node to_free); CallFree ptr] /\
    heap w' = real_free L ptr (real_free L (alloc_node to_free) (heap w)).
Proof. apply memm_free_tracked. Qed.

(** ** Releasing twice *)

(** X2.  When the registry holds exactly one record for a non-null address,
    the first [memm_free] removes it and a second [memm_free] of the same
    address finds nothing: the registry and the counters stay as the
    first release left them, and the release is forwarded to the library
    a second time all the same. *)
Theorem second_release_is_untracked_but_forwarded
    (L : Libc) (w : world L) (ptr : Z) (file : string) (line : Z)
    (file' : string) (line' : Z) (old : memm_allocation) :
  ptr <> NULL ->
  table_ok (g_memm w) ->
  records_of (g_memm w) ptr = [old] ->
  let w1 := memm_free L ptr file line w in
  let w2 := memm_free L ptr file' line' w1 in
  tracked (g_memm w1) ptr = false /\
  total_freed (g_memm w1) = size_add (total_freed (g_memm w)) (alloc_size old) /\
  memm_unregister_allocation L ptr file' line' w1 = (false, w1) /\
  g_memm w2 = g_memm w1 /\
  calls w2 = calls w ++ [CallFree (alloc_node old); CallFree ptr; CallFree ptr].
Proof.
  intros Hp Hok Hold. cbv zeta.
  assert (Ht : tracked (g_memm w) ptr = true).
  { destruct (tracked (g_memm w) ptr) eqn:T; [reflexivity|].
    apply tracked_records_of in T. rewrite T in Hold. discriminate. }
  destruct (memm_free_tracked L w ptr file line Hp Hok Ht)
    as (r & pre & post & E & E' & Hr & _ & _ & Hf & _ & _ & _ & _ & Hc & _).
  unfold records_of in Hold. rewrite E in Hold.
  destruct (filter_single _ _ _ _ _ Hold) as (Fpre & Fpost & ->).
  { apply Z.eqb_eq, Hr. }
  assert (T1 : tracked (g_memm (memm_free L ptr file line w)) ptr = false).
  { apply tracked_records_of. unfold records_of.
    rewrite E', List.filter_app, Fpre, Fpost. reflexivity. }
  assert (U : memm_unregister_allocation L ptr file' line'
                (memm_free L ptr file line w) =
              (false, memm_free L ptr file line w)).
  { unfold memm_unregister_allocation.
    rewrite (proj2 (Z.eqb_neq _ _) Hp), (untracked_unlink _ _ T1). reflexivity. }
  split; [exact T1|]. split; [exact Hf|]. split; [exact U|].
  rewrite (memm_free_unfold L (memm_free L ptr file line w)), U.
  cbn [snd free g_memm calls]. split; [reflexivity|].
  rewrite Hc, <- app_assoc. reflexivity.
Qed.

(** ** Register, then unregister *)

(** X3.  Unregistering an address right after it was registered unlinks the
    record that was just made, also when the address already had records
    (the latest registration is the first to go): the table is what it
    was before the registration, the node that was obtained is released,
    and both byte counters and both call counters have moved by the size
    and by one. *)
Theorem unregister_undoes_latest_register
    (L : Libc) (w : world L) (ptr size : Z) (file : string) (line : Z)
    (file' : string) (line' : Z) :
  length (hash_table (g_memm w)) = Z.to_nat MEMM_HASH_TABLE_SIZE ->
  ptr <> NULL ->
  fst (real_malloc L sizeof_memm_allocation (heap w)) <> NULL ->
  let g := g_memm w in
  let node := fst (real_malloc L sizeof_memm_allocation (heap w)) in
  let w1 := memm_register_allocation L ptr size file line w in
  let w2 := snd (memm_unregister_allocation L ptr file' line' w1) in
  fst (memm_unregister_allocation L ptr file' line' w1) = true /\
  hash_table (g_memm w2) = hash_table g /\
  total_allocated (g_memm w2) = size_add (total_allocated g) size /\
  total_freed (g_memm w2) = size_add (total_freed g) size /\
  allocation_count (g_memm w2) = size_add (allocation_count g) 1 /\
  free_count (g_memm w2) = size_add (free_count g) 1 /\
  calls w2 = calls w ++ [CallMalloc sizeof_memm_allocation node; CallFree node].
Proof.
  intros Hlen Hp Hnode. cbv zeta.
  destruct (register_success L w ptr size file line Hlen Hp Hnode)
    as (now & pre & post & Ht & Hb & _ & _ & Ha & Hf & _ & Hac & Hfc & Hc).
  cbv zeta in *.
  set (w1 := memm_register_allocation L ptr size file line w) in *.
  destruct (unregister_cases L w1 ptr file' line')
    as [(E & _)|[(_ & U & _)
       |(_ & r & chain' & U & Hfound & Ht' & Ha' & Hf' & _ & Hac' & Hfc' & Hc' & _)]].
  - contradiction.
  - rewrite Hb in U. simpl in U. rewrite Z.eqb_refl in U. discriminate.
  - rewrite Hb in U. simpl in U. rewrite Z.eqb_refl in U.
    inversion U; subst r chain'. clear U.
    split; [exact Hfound|]. split.
    { rewrite Ht', Ht, list_insert_insert_eq.
      apply list_insert_id, bucket_Some, Hlen. }
    rewrite Ha', Hf', Hac', Hfc', Hc', Ha, Hf, Hac, Hfc, Hc, <- app_assoc.
    repeat split; reflexivity.
Qed.

(** ** Other addresses *)

Lemma register_records_of_other (L : Libc) (w : world L) ptr size file line q :
  length (hash_table (g_memm w)) = Z.to_nat MEMM_HASH_TABLE_SIZE ->
  q <> ptr ->
  records_of (g_memm (memm_register_allocation L ptr size file line w)) q =
  records_of (g_memm w) q.
Proof.
  intros Hlen Hq.
  destruct (register_cases L w ptr size file line)
    as [[_ ->]|[(_ & _ & -> & _)|(_ & _ & now & Ht & _)]]; auto.
  destruct (register_iterate _ _ _ _ Hlen Ht) as (pre & post & E & E').
  unfold records_of. rewrite E, E', !List.filter_app. simpl.
  destruct (ptr =? q) eqn:C; [apply Z.eqb_eq in C; congruence|reflexivity].
Qed.

Lemma unregister_records_of_other (L : Libc) (w : world L) ptr file line q :
  q <> ptr ->
  records_of (g_memm (snd (memm_unregister_allocation L ptr file line w))) q =
  records_of (g_memm w) q.
Proof.
  intros Hq.
  destruct (unregister_cases L w ptr file line)
    as [(_ & _ & ->)|[(_ & _ & _ & ->)|(_ & r & chain' & U & _ & Ht & _)]]; auto.
  destruct (unregister_iterate _ _ _ _ _ U Ht) as (pre & post & E & E' & Hr).
  unfold records_of. rewrite E, E', !List.filter_app. simpl.
  destruct (alloc_ptr r =? q) eqn:C; [apply Z.eqb_eq in C; congruence|reflexivity].
Qed.

(** X4.  No tracked call changes the records of an address that is neither its
    argument nor its result, whether or not that address shares a bucket
    with them: the records of such an address, and their order, are the
    same after [memm_malloc], [memm_calloc], [memm_realloc] and
    [memm_free] as before. *)
Theorem tracked_calls_leave_other_addresses_alone
    (L : Libc) (w : world L) (c : call) (q : Z) :
  length (hash_table (g_memm w)) = Z.to_nat MEMM_HASH_TABLE_SIZE ->
  match c with
  | Malloc size file line => q <> fst (memm_malloc L size file line w)
  | Calloc num size file line => q <> fst (memm_calloc L num size file line w)
  | Realloc ptr size file line =>
      q <> ptr /\ q <> fst (memm_realloc L ptr size file line w)
  | Free ptr file line => q <> ptr
  end ->
  records_of (g_memm (step L c w)) q = records_of (g_memm w) q.
Proof.
  intros Hlen Hq.
  destruct c as [size file line|num size file line
                |ptr size file line|ptr file line]; simpl.
  - unfold memm_malloc in *. pose proof (malloc_g_memm L w size) as Hg.
    destruct (malloc L size w) as [p w1]. simpl in Hg.
    destruct (p =? NULL); simpl in *; [rewrite Hg; reflexivity|].
    rewrite register_records_of_other; rewrite ?Hg; auto.
  - unfold memm_calloc in *. pose proof (calloc_g_memm L w num size) as Hg.
    destruct (calloc L num size w) as [p w1]. simpl in Hg.
    destruct (p =? NULL); simpl in *; [rewrite Hg; reflexivity|].
    rewrite register_records_of_other; rewrite ?Hg; auto.
  - destruct Hq as [Hq1 Hq2]. unfold memm_realloc in *.
    set (w1 := if ptr =? NULL then w
               else snd (memm_unregister_allocation L ptr file line w)) in *.
    assert (H1 : records_of (g_memm w1) q = records_of (g_memm w) q /\
                 length (hash_table (g_memm w1)) = Z.to_nat MEMM_HASH_TABLE_SIZE).
    { subst w1. destruct (ptr =? NULL); [auto|]. split.
      - apply unregister_records_of_other, Hq1.
      - destruct (unregister_cases L w ptr file line)
          as [(_ & _ & ->)|[(_ & _ & _ & ->)|(_ & r & chain' & _ & _ & Ht & _)]];
          auto.
        rewrite Ht, length_insert. exact Hlen. }
    destruct H1 as [H1 Hlen1].
    pose proof (realloc_g_memm L w1 ptr size) as Hg.
    destruct (realloc L ptr size w1) as [p w2]. simpl in Hg.
    destruct (p =? NULL); simpl in *; [rewrite Hg; exact H1|].
    rewrite register_records_of_other; rewrite ?Hg; auto.
  - rewrite memm_free_unfold. cbn [free g_memm].
    apply unregister_records_of_other, Hq.
Qed.

(** ** The tracked calls, spelled out *)

Lemma memm_malloc_unfold (L : Libc) (w : world L) size file line :
  let p := fst (real_malloc L size (heap w)) in
  let w1 := mk_world (g_memm w) (snd (real_malloc L size (heap w)))
                     (calls w ++ [CallMalloc size p]) in
  memm_malloc L size file line w =
  (p, if p =? NULL then w1
      else memm_register_allocation L p size file line w1).
Proof.
  cbv zeta. unfold memm_malloc, malloc.
  destruct (real_malloc L size (heap w)) as [p h]. simpl.
  destruct (p =? NULL); reflexivity.
Qed.

Lemma memm_calloc_unfold (L : Libc) (w : world L) num size file line :
  let p := fst (real_calloc L num size (heap w)) in
  let w1 := mk_world (g_memm w) (snd (real_calloc L num size (heap w)))
                     (calls w ++ [CallCalloc num size p]) in
  memm_calloc L num size file line w =
  (p, if p =? NULL then w1
      else memm_register_allocation L p (size_mul num size) file line w1).
Proof.
  cbv zeta. unfold memm_calloc, calloc.
  destruct (real_calloc L num size (heap w)) as [p h]. simpl.
  destruct (p =? NULL); reflexivity.
Qed.

Lemma memm_realloc_unfold (L : Libc) (w : world L) ptr size file line :
  let w0 := if ptr =? NULL then w
            else snd (memm_unregister_allocation L ptr file line w) in
  let p := fst (real_realloc L ptr size (heap w0)) in
  let w1 := mk_world (g_memm w0) (snd (real_realloc L ptr size (heap w0)))
                     (calls w0 ++ [CallRealloc ptr size p]) in
  memm_realloc L ptr size file line w =
  (p, if p =? NULL then w1
      else memm_register_allocation L p size file line w1).
Proof.
  cbv zeta. unfold memm_realloc, realloc.
  destruct (real_realloc L ptr size
              (heap (if ptr =? NULL then w
                     else snd (memm_unregister_allocation L ptr file line w))))
    as [p h]. simpl.
  destruct (p =? NULL); reflexivity.
Qed.

(** ** A successful allocation *)

(** X5.  When the library's [malloc] succeeds and the registry obtains a node,
    [memm_malloc] returns the library's address and puts a record for it,
    with the size and the call site it was given, at the head of the
    bucket of that address; the address is tracked from then on;
    [total_allocated] grows by the size and [allocation_count] by one (in
    [size_t]); [peak_memory] becomes the larger of its old value and the
    new usage; [total_freed] and [free_count] do not move; the library
    sees the two requests and nothing else. *)
Theorem allocate_success_registers_at_head
    (L : Libc) (w : world L) (size : Z) (file : string) (line : Z) :
  length (hash_table (g_memm w)) = Z.to_nat MEMM_HASH_TABLE_SIZE ->
  fst (real_malloc L size (heap w)) <> NULL ->
  fst (real_malloc L sizeof_memm_allocation
         (snd (real_malloc L size (heap w)))) <> NULL ->
  let ptr := fst (real_malloc L size (heap w)) in
  let node := fst (real_malloc L sizeof_memm_allocation
                     (snd (real_malloc L size (heap w)))) in
  let g := g_memm w in
  let w' := snd (memm_malloc L size file line w) in
  let g' := g_memm w' in
  fst (memm_malloc L size file line w) = ptr /\
  (exists now,
     bucket g' (memm_hash_ptr ptr) =
       mk_allocation node ptr size file line now :: bucket g (memm_hash_ptr ptr)) /\
  tracked g' ptr = true /\
  total_allocated g' = size_add (total_allocated g) size /\
  allocation_count g' = size_add (allocation_count g) 1 /\
  peak_memory g' =
    Z.max (peak_memory g) (size_sub (total_allocated g') (total_freed g)) /\
  total_freed g' = total_freed g /\
  free_count g' = free_count g /\
  calls w' = calls w ++ [CallMalloc size ptr;
                         CallMalloc sizeof_memm_allocation node].
Proof.
  intros Hlen Hp Hnode. cbv zeta.
  pose proof (memm_malloc_unfold L w size file line) as E. cbv zeta in E.
  rewrite E. clear E. cbn [fst snd].
  rewrite (proj2 (Z.eqb_neq _ _) Hp).
  match goal with
  | |- context [memm_register_allocation L _ _ _ _ ?w0] => set (w1 := w0)
  end.
  destruct (register_success L w1 (fst (real_malloc L size (heap w))) size file line
              Hlen Hp Hnode)
    as (now & pre & post & _ & Hb & _ & E' & Ha & Hf & Hpk & Hac & Hfc & Hc).
  cbv zeta in *. cbn [g_memm heap calls w1] in *.
  split; [reflexivity|]. split; [exists now; exact Hb|]. split.
  { apply tracked_true. eexists. split; [rewrite E'; apply in_elt|reflexivity]. }
  rewrite Hc, <- app_assoc. repeat split; assumption.
Qed.

(** ** Zero-allocation *)

(** X6.  [memm_calloc] returns what the library's [calloc] returns.  When that
    is null, the registry and the counters are untouched and no node is
    requested.  When it is not and the registry obtains a node, the
    record that is put at the head of the bucket has for size the product
    [num * size] computed in [size_t], that is modulo [2^64] (the product
    itself when it fits), and [total_allocated] grows by that much. *)
Theorem zero_allocate_registers_the_size_t_product
    (L : Libc) (w : world L) (num size : Z) (file : string) (line : Z) :
  length (hash_table (g_memm w)) = Z.to_nat MEMM_HASH_TABLE_SIZE ->
  let ptr := fst (real_calloc L num size (heap w)) in
  let node := fst (real_malloc L sizeof_memm_allocation
                     (snd (real_calloc L num size (heap w)))) in
  let g := g_memm w in
  let w' := snd (memm_calloc L num size file line w) in
  let g' := g_memm w' in
  fst (memm_calloc L num size file line w) = ptr /\
  (ptr = NULL ->
   g' = g /\ calls w' = calls w ++ [CallCalloc num size NULL]) /\
  (ptr <> NULL -> node <> NULL ->
   (exists now,
      bucket g' (memm_hash_ptr ptr) =
        mk_allocation node ptr ((num * size) mod 2 ^ 64) file line now
          :: bucket g (memm_hash_ptr ptr)) /\
   total_allocated g' = size_add (total_allocated g) ((num * size) mod 2 ^ 64) /\
   (0 <= num * size < 2 ^ 64 -> (num * size) mod 2 ^ 64 = num * size) /\
   allocation_count g' = size_add (allocation_count g) 1 /\
   calls w' = calls w ++ [CallCalloc num size ptr;
                          CallMalloc sizeof_memm_allocation node]).
Proof.
  intros Hlen. cbv zeta.
  pose proof (memm_calloc_unfold L w num size file line) as E. cbv zeta in E.
  rewrite E. clear E. cbn [fst snd].
  split; [reflexivity|]. split.
  - intros Hp. rewrite Hp. simpl. auto.
  - intros Hp Hnode. rewrite (proj2 (Z.eqb_neq _ _) Hp).
    match goal with
    | |- context [memm_register_allocation L _ _ _ _ ?w0] => set (w1 := w0)
    end.
    destruct (register_success L w1 (fst (real_calloc L num size (heap w)))
                (size_mul num size) file line Hlen Hp Hnode)
      as (now & pre & post & _ & Hb & _ & _ & Ha & _ & _ & Hac & _ & Hc).
    cbv zeta in *. cbn [g_memm heap calls w1] in *.
    split; [exists now; exact Hb|]. split; [exact Ha|].
    split; [intros H; apply Z.mod_small, H|]. split; [exact Hac|].
    rewrite Hc, <- app_assoc. reflexivity.
Qed.

(** ** Resize *)

(** X7.  For a null address, and for a non-null address that the registry does
    not track, [memm_realloc] releases nothing and counts nothing as
    freed: it forwards the request to the library, returns what the
    library returns, and registers the result like [memm_malloc] does.
    In particular [memm_realloc(NULL, n)] acts on the registry as
    [memm_malloc(n)]. *)
Theorem resize_of_null_or_untracked_only_registers
    (L : Libc) (w : world L) (ptr size : Z) (file : string) (line : Z) :
  length (hash_table (g_memm w)) = Z.to_nat MEMM_HASH_TABLE_SIZE ->
  ptr = NULL \/ tracked (g_memm w) ptr = false ->
  let new_ptr := fst (real_realloc L ptr size (heap w)) in
  let node := fst (real_malloc L sizeof_memm_allocation
                     (snd (real_realloc L ptr size (heap w)))) in
  let g := g_memm w in
  let w' := snd (memm_realloc L ptr size file line w) in
  let g' := g_memm w' in
  fst (memm_realloc L ptr size file line w) = new_ptr /\
  total_freed g' = total_freed g /\
  free_count g' = free_count g /\
  (new_ptr = NULL ->
   g' = g /\ calls w' = calls w ++ [CallRealloc ptr size NULL]) /\
  (new_ptr <> NULL -> node <> NULL ->
   (exists now,
      bucket g' (memm_hash_ptr new_ptr) =
        mk_allocation node new_ptr size file line now
          :: bucket g (memm_hash_ptr new_ptr)) /\
   total_allocated g' = size_add (total_allocated g) size /\
   allocation_count g' = size_add (allocation_count g) 1 /\
   calls w' = calls w ++ [CallRealloc ptr size new_ptr;
                          CallMalloc sizeof_memm_allocation node]).
Proof.
  intros Hlen Hun. cbv zeta.
  pose proof (memm_realloc_unfold L w ptr size file line) as E. cbv zeta in E.
  assert (E0 : (if ptr =? NULL then w
                else snd (memm_unregister_allocation L ptr file line w)) = w).
  { destruct (ptr =? NULL) eqn:C; [reflexivity|]. apply Z.eqb_neq in C.
    destruct Hun as [Hn|Hu]; [contradiction|].
    unfold memm_unregister_allocation.
    rewrite (proj2 (Z.eqb_neq _ _) C), (untracked_unlink _ _ Hu). reflexivity. }
  rewrite E0 in E. rewrite E. clear E E0. cbn [fst snd].
  split; [reflexivity|].
  destruct (fst (real_realloc L ptr size (heap w)) =? NULL) eqn:C.
  - apply Z.eqb_eq in C. cbn [g_memm calls].
    split; [reflexivity|]. split; [reflexivity|]. split.
    + intros _. rewrite C. auto.
    + intros H. contradiction.
  - apply Z.eqb_neq in C.
    match goal with
    | |- context [memm_register_allocation L _ _ _ _ ?w0] => set (w1 := w0)
    end.
    destruct (register_cases L w1 (fst (real_realloc L ptr size (heap w)))
                size file line)
      as [[E _]|[(_ & Hn & Eg & _)|(_ & Hn & now & Ht & Ha & Hf & _ & Hac & Hfc & Hc)]];
      [contradiction| |].
    + rewrite Eg. cbn [g_memm w1].
      split; [reflexivity|]. split; [reflexivity|].
      split; [intros H; contradiction|]. intros _ H. contradiction.
    + cbn [g_memm heap calls w1] in *.
      split; [exact Hf|]. split; [exact Hfc|].
      split; [intros H; contradiction|]. intros _ _.
      split.
      { exists now. unfold bucket at 1. rewrite Ht.
        rewrite list_lookup_insert_eq by (apply hash_index_lt, Hlen).
        reflexivity. }
      split; [exact Ha|]. split; [exact Hac|].
      rewrite Hc, <- app_assoc. reflexivity.
Qed.

(** The unregistration of an address that has exactly one record. *)
Lemma unregister_single (L : Libc) (w : world L) ptr file line old :
  ptr <> NULL ->
  table_ok (g_memm w) ->
  records_of (g_memm w) ptr = [old] ->
  let w1 := snd (memm_unregister_allocation L ptr file line w) in
  table_ok (g_memm w1) /\
  records_of (g_memm w1) ptr = [] /\
  total_allocated (g_memm w1) = total_allocated (g_memm w) /\
  total_freed (g_memm w1) = size_add (total_freed (g_memm w)) (alloc_size old) /\
  allocation_count (g_memm w1) = allocation_count (g_memm w) /\
  free_count (g_memm w1) = size_add (free_count (g_memm w)) 1 /\
  calls w1 = calls w ++ [CallFree (alloc_node old)] /\
  heap w1 = real_free L (alloc_node old) (heap w).
Proof.
  intros Hp Hok Hold. cbv zeta.
  split; [apply unregister_table_ok, Hok|].
  assert (Ht : tracked (g_memm w) ptr = true).
  { destruct (tracked (g_memm w) ptr) eqn:T; [reflexivity|].
    apply tracked_records_of in T. rewrite T in Hold. discriminate. }
  destruct (tracked_unlink _ _ Hok Ht) as (r0 & c0 & U0).
  destruct (unregister_cases L w ptr file line)
    as [(E & _)|[(_ & U & _)
       |(_ & r & chain' & U & _ & Htab & Ha & Hf & _ & Hac & Hfc & Hc & Hh)]].
  - contradiction.
  - rewrite U in U0. discriminate.
  - destruct (unregister_iterate _ _ _ _ _ U Htab) as (pre & post & E & E' & Hr).
    unfold records_of in Hold. rewrite E in Hold.
    destruct (filter_single _ _ _ _ _ Hold) as (Fpre & Fpost & ->).
    { apply Z.eqb_eq, Hr. }
    split.
    { unfold records_of. rewrite E', List.filter_app, Fpre, Fpost. reflexivity. }
    repeat split; assumption.
Qed.

(** The records of an address after one more is put at the head of its
    bucket. *)
Lemma register_first_record g g' ptr node :
  table_ok g ->
  alloc_ptr node = ptr ->
  hash_table g' =
    <[Z.to_nat (memm_hash_ptr ptr) := node :: bucket g (memm_hash_ptr ptr)]>
      (hash_table g) ->
  records_of g' ptr = node :: records_of g ptr.
Proof.
  intros Hok Hp Ht.
  pose proof (bucket_Some g ptr (proj1 Hok)) as Hb.
  assert (Hpre : List.filter (fun r => alloc_ptr r =? ptr)
                   (concat (take (Z.to_nat (memm_hash_ptr ptr)) (hash_table g)))
                 = []).
  { apply filter_nil_existsb, not_true_is_false. intros Hex.
    apply existsb_exists in Hex. destruct Hex as (r & Hin & Hr).
    apply Z.eqb_eq in Hr.
    pose proof (earlier_buckets_other g ptr Hok) as F.
    rewrite List.Forall_forall in F. exact (F r Hin Hr). }
  unfold records_of, iterate.
  rewrite Ht, insert_take_drop by (eapply lookup_lt_Some; eauto).
  rewrite <- (take_drop_middle _ _ _ Hb) at 3.
  rewrite !concat_app. cbn [concat].
  rewrite !List.filter_app, Hpre. cbn [List.filter app].
  rewrite Hp, Z.eqb_refl. reflexivity.
Qed.

(** X8.  After a resize that the library grants and the registry records, of
    an address that had exactly one record, the records of the returned
    address are the new record, which carries the new size and the new
    call site, followed by the records the registry held for that address
    before unless it is the old address.  So the returned address has
    exactly one record when it is the old address (a resize in place) or
    was not tracked; when the library returns an address for which the
    registry holds a stale record, the new record shadows it.  When the
    block moved, no record is left for the old address.  The sizes of the
    live records add up to what they did, less the old size, plus the new
    one. *)
Theorem resize_puts_the_new_record_first
    (L : Libc) (w : world L) (ptr size : Z) (file : string) (line : Z)
    (old : memm_allocation) :
  ptr <> NULL ->
  table_ok (g_memm w) ->
  records_of (g_memm w) ptr = [old] ->
  let resized :=
    real_realloc L ptr size (real_free L (alloc_node old) (heap w)) in
  let new_ptr := fst resized in
  let node := fst (real_malloc L sizeof_memm_allocation (snd resized)) in
  new_ptr <> NULL ->
  node <> NULL ->
  let g' := g_memm (snd (memm_realloc L ptr size file line w)) in
  let earlier :=
    if new_ptr =? ptr then [] else records_of (g_memm w) new_ptr in
  (exists now,
     records_of g' new_ptr =
       mk_allocation node new_ptr size file line now :: earlier /\
     (new_ptr = ptr \/ tracked (g_memm w) new_ptr = false ->
      records_of g' new_ptr = [mk_allocation node new_ptr size file line now])) /\
  (new_ptr <> ptr -> records_of g' ptr = []) /\
  live_bytes g' = live_bytes (g_memm w) - alloc_size old + size.
Proof.
  intros Hp Hok Hold resized new_ptr node Hnew Hnode. cbv zeta.
  destruct (unregister_single L w ptr file line old Hp Hok Hold)
    as (Hok1 & Hrec1 & _ & _ & _ & _ & Hc1 & Hh1).
  pose proof (memm_realloc_unfold L w ptr size file line) as E. cbv zeta in E.
  rewrite (proj2 (Z.eqb_neq _ _) Hp) in E.
  set (w1 := snd (memm_unregister_allocation L ptr file line w)) in *.
  rewrite Hh1 in E. fold resized in E. fold new_ptr in E.
  rewrite (proj2 (Z.eqb_neq _ _) Hnew) in E. rewrite E. clear E. cbn [snd].
  match goal with
  | |- context [memm_register_allocation L _ _ _ _ ?w0] => set (w2 := w0)
  end.
  destruct (register_success L w2 new_ptr size file line (proj1 Hok1) Hnew Hnode)
    as (now & pre & post & Htab & _ & Ei & Ei' & _).
  cbv zeta in *. cbn [g_memm heap w2] in *. fold node in Ei', Htab.
  assert (Hearlier : records_of (g_memm w1) new_ptr =
                     if new_ptr =? ptr then []
                     else records_of (g_memm w) new_ptr).
  { destruct (new_ptr =? ptr) eqn:C.
    - apply Z.eqb_eq in C. rewrite C. exact Hrec1.
    - apply Z.eqb_neq in C. unfold w1.
      apply unregister_records_of_other. exact C. }
  pose proof (register_first_record (g_memm w1) _ new_ptr
                (mk_allocation node new_ptr size file line now)
                Hok1 eq_refl Htab) as Hfirst.
  split; [|split].
  - exists now. rewrite Hfirst, Hearlier. split; [reflexivity|].
    intros [Heq|Hu].
    + rewrite (proj2 (Z.eqb_eq _ _) Heq). reflexivity.
    + destruct (new_ptr =? ptr); [reflexivity|].
      rewrite (proj1 (tracked_records_of _ _) Hu). reflexivity.
  - intros Hne. rewrite (records_of_app _ _ _ _ Ei) in Hrec1.
    apply app_eq_nil in Hrec1. destruct Hrec1 as [Gpre Gpost].
    unfold records_of. rewrite Ei', List.filter_app. simpl.
    destruct (new_ptr =? ptr) eqn:C; [apply Z.eqb_eq in C; contradiction|].
    rewrite Gpre, Gpost. reflexivity.
  - unfold live_bytes. rewrite Ei', sum_sizes_app, sum_sizes_cons. simpl.
    assert (Hl : sum_sizes (iterate (g_memm w1)) =
                 sum_sizes (iterate (g_memm w)) - alloc_size old).
    { assert (Ht : tracked (g_memm w) ptr = true).
      { destruct (tracked (g_memm w) ptr) eqn:T; [reflexivity|].
        apply tracked_records_of in T. rewrite T in Hold. discriminate. }
      destruct (tracked_unlink _ _ Hok Ht) as (r0 & c0 & U0).
      destruct (unregister_cases L w ptr file line)
        as [(E & _)|[(_ & U & _)|(_ & r & chain' & U & _ & Htab0 & _)]].
      - contradiction.
      - rewrite U in U0. discriminate.
      - destruct (unregister_iterate _ _ _ _ _ U Htab0)
          as (pre0 & post0 & E0 & E0' & Hr).
        unfold records_of in Hold. rewrite E0 in Hold.
        destruct (filter_single _ _ _ _ _ Hold) as (_ & _ & ->).
        { apply Z.eqb_eq, Hr. }
        fold w1 in E0'. rewrite E0, E0', !sum_sizes_app, sum_sizes_cons. lia. }
    rewrite Ei, sum_sizes_app in Hl. lia.
Qed.

(** X9.  After a resize that the library refuses, of an address that had
    exactly one record, the old block is no longer tracked although the
    library has not released it: its size has already been counted as
    freed, and the release of the old address that follows is an
    untracked one, which changes no counter and is forwarded to the
    library. *)
Theorem release_after_failed_resize_is_untracked
    (L : Libc) (w : world L) (ptr size : Z) (file : string) (line : Z)
    (file' : string) (line' : Z) (old : memm_allocation) :
  ptr <> NULL ->
  table_ok (g_memm w) ->
  records_of (g_memm w) ptr = [old] ->
  fst (real_realloc L ptr size (real_free L (alloc_node old) (heap w))) = NULL ->
  let w1 := snd (memm_realloc L ptr size file line w) in
  let w2 := memm_free L ptr file' line' w1 in
  fst (memm_realloc L ptr size file line w) = NULL /\
  tracked (g_memm w1) ptr = false /\
  total_freed (g_memm w1) = size_add (total_freed (g_memm w)) (alloc_size old) /\
  free_count (g_memm w1) = size_add (free_count (g_memm w)) 1 /\
  memm_unregister_allocation L ptr file' line' w1 = (false, w1) /\
  g_memm w2 = g_memm w1 /\
  calls w2 = calls w ++ [CallFree (alloc_node old);
                         CallRealloc ptr size NULL; CallFree ptr].
Proof.
  intros Hp Hok Hold Hfail. cbv zeta.
  destruct (unregister_single L w ptr file line old Hp Hok Hold)
    as (_ & Hrec1 & _ & Hf & _ & Hfc & Hc1 & Hh1).
  pose proof (memm_realloc_unfold L w ptr size file line) as E. cbv zeta in E.
  rewrite (proj2 (Z.eqb_neq _ _) Hp) in E.
  set (w0 := snd (memm_unregister_allocation L ptr file line w)) in *.
  rewrite Hh1, Hfail in E. simpl in E. rewrite E. clear E. cbn [fst snd].
  match goal with
  | |- context [memm_free L ptr file' line' ?w0] => set (w1 := w0)
  end.
  assert (T1 : tracked (g_memm w1) ptr = false)
    by (apply tracked_records_of; exact Hrec1).
  assert (U : memm_unregister_allocation L ptr file' line' w1 = (false, w1)).
  { unfold memm_unregister_allocation.
    rewrite (proj2 (Z.eqb_neq _ _) Hp), (untracked_unlink _ _ T1). reflexivity. }
  split; [reflexivity|]. split; [exact T1|].
  split; [exact Hf|]. split; [exact Hfc|]. split; [exact U|].
  rewrite memm_free_unfold, U. cbn [snd free g_memm calls w1].
  split; [reflexivity|]. rewrite Hc1, <- !app_assoc. reflexivity.
Qed.

(** ** What the counters mean along a run *)

Lemma register_record_count (L : Libc) (w : world L) ptr size file line :
  length (hash_table (g_memm w)) = Z.to_nat MEMM_HASH_TABLE_SIZE ->
  let g := g_memm w in
  let g' := g_memm (memm_register_allocation L ptr size file line w) in
  size_sub (allocation_count g) (free_count g) =
    Z.of_nat (length (iterate g)) mod SIZE_MOD ->
  size_sub (allocation_count g') (free_count g') =
    Z.of_nat (length (iterate g')) mod SIZE_MOD.
Proof.
  intros Hlen. cbv zeta. intros H.
  destruct (register_cases L w ptr size file line)
    as [[_ ->]|[(_ & _ & -> & _)|(_ & _ & now & Ht & _ & _ & _ & Hac & Hfc & _)]];
    auto.
  destruct (register_iterate _ _ _ _ Hlen Ht) as (pre & post & E & E').
  rewrite Hac, Hfc, size_sub_add_l, H, E, E', !length_app. simpl.
  rewrite Zplus_mod_idemp_l. f_equal. lia.
Qed.

Lemma unregister_record_count (L : Libc) (w : world L) ptr file line :
  let g := g_memm w in
  let g' := g_memm (snd (memm_unregister_allocation L ptr file line w)) in
  size_sub (allocation_count g) (free_count g) =
    Z.of_nat (length (iterate g)) mod SIZE_MOD ->
  size_sub (allocation_count g') (free_count g') =
    Z.of_nat (length (iterate g')) mod SIZE_MOD.
Proof.
  cbv zeta. intros H.
  destruct (unregister_cases L w ptr file line)
    as [(_ & _ & ->)|[(_ & _ & _ & ->)
       |(_ & r & chain' & U & _ & Ht & _ & _ & _ & Hac & Hfc & _)]]; auto.
  destruct (unregister_iterate _ _ _ _ _ U Ht) as (pre & post & E & E' & _).
  rewrite Hac, Hfc, size_sub_add_r, H, E, E', !length_app. simpl.
  rewrite Zminus_mod_idemp_l. f_equal. lia.
Qed.

Lemma run_record_count (L : Libc) (cs : list call) (w : world L) :
  forallb call_sizes_ok cs = true ->
  counters_ok (g_memm w) ->
  size_sub (allocation_count (g_memm w)) (free_count (g_memm w)) =
    Z.of_nat (length (iterate (g_memm w))) mod SIZE_MOD ->
  let g := g_memm (run L cs w) in
  size_sub (allocation_count g) (free_count g) =
    Z.of_nat (length (iterate g)) mod SIZE_MOD.
Proof.
  revert w. induction cs as [|c cs IH]; intros w Hcs Hok H; simpl; [exact H|].
  simpl in Hcs. apply andb_prop in Hcs. destruct Hcs as [Hc Hcs].
  apply IH; [exact Hcs|apply step_counters_ok; assumption|].
  destruct (step_shape L c w) as (w1 & w2 & H1 & H2 & H3).
  assert (P1 : counters_ok (g_memm w1) /\
               size_sub (allocation_count (g_memm w1)) (free_count (g_memm w1)) =
                 Z.of_nat (length (iterate (g_memm w1))) mod SIZE_MOD).
  { destruct H1 as [->|(ptr & file & line & ->)]; auto.
    split; [apply unregister_counters_ok, Hok|].
    apply unregister_record_count, H. }
  rewrite <- H2 in P1. destruct P1 as [Hok2 P2].
  destruct H3 as [->|(ptr & size & file & line & _ & ->)]; auto.
  apply register_record_count; [apply (co_table _ Hok2)|exact P2].
Qed.

(** X10.  After every sequence of tracked calls from the zeroed state, whether
    or not the cumulative counters have wrapped around, the current usage
    [total_allocated - total_freed] computed in [size_t] is the sum of
    the sizes of the live records modulo [2^64]: it is that sum exactly
    whenever the sum is below [2^64]. *)
Theorem current_usage_is_the_live_bytes
    (L : Libc) (w0 : world L) (cs : list call) :
  g_memm w0 = memm_zero ->
  forallb call_sizes_ok cs = true ->
  let g := g_memm (run L cs w0) in
  memm_get_current_usage g = live_bytes g mod 2 ^ 64 /\
  0 <= live_bytes g /\
  (live_bytes g < 2 ^ 64 -> memm_get_current_usage g = live_bytes g).
Proof.
  intros H0 Hcs. cbv zeta.
  assert (Hok : counters_ok (g_memm (run L cs w0))).
  { apply run_counters_ok; [exact Hcs|]. rewrite H0. apply counters_ok_zero. }
  pose proof (co_usage _ Hok) as Hu.
  pose proof (sum_sizes_nonneg _ (co_sizes _ Hok)) as Hpos.
  fold (live_bytes (g_memm (run L cs w0))) in Hpos.
  split; [exact Hu|]. split; [exact Hpos|].
  intros Hlt. unfold memm_get_current_usage. rewrite Hu.
  apply Z.mod_small. split; [exact Hpos|exact Hlt].
Qed.

(** X11.  After every sequence of tracked calls from the zeroed state, the
    figure the statistics report as potential leaks,
    [allocation_count - free_count] computed in [size_t], is the number
    of live records modulo [2^64]: it is that number exactly whenever
    there are fewer than [2^64] records. *)
Theorem potential_leaks_is_the_number_of_live_records
    (L : Libc) (w0 : world L) (cs : list call) :
  g_memm w0 = memm_zero ->
  forallb call_sizes_ok cs = true ->
  let g := g_memm (run L cs w0) in
  let leaks := size_sub (memm_get_allocation_count g) (memm_get_free_count g) in
  leaks = Z.of_nat (length (iterate g)) mod 2 ^ 64 /\
  (Z.of_nat (length (iterate g)) < 2 ^ 64 ->
   leaks = Z.of_nat (length (iterate g))).
Proof.
  intros H0 Hcs. cbv zeta.
  assert (H : size_sub (allocation_count (g_memm (run L cs w0)))
                       (free_count (g_memm (run L cs w0))) =
              Z.of_nat (length (iterate (g_memm (run L cs w0)))) mod SIZE_MOD).
  { apply run_record_count; [exact Hcs| |].
    - rewrite H0. apply counters_ok_zero.
    - rewrite H0. vm_compute. reflexivity. }
  unfold memm_get_allocation_count, memm_get_free_count.
  split; [exact H|]. intros Hlt. rewrite H. apply Z.mod_small.
  split; [lia|exact Hlt].
Qed.

(** ** Shutdown *)

Lemma concat_all_nil {A} (table : list (list A)) :
  concat (map (fun _ => @nil A) table) = [].
Proof. induction table as [|c t IH]; simpl; auto. Qed.

Lemma map_all_nil_replicate {A B} (table : list A) :
  map (fun _ => @nil B) table = replicate (length table) [].
Proof. induction table as [|c t IH]; simpl; [reflexivity|]. rewrite IH. reflexivity. Qed.

Lemma shutdown_frees_fold (L : Libc) (records : list memm_allocation) (w0 : world L) :
  let w1 := fold_left (fun w' r => free L (alloc_node r) w') records w0 in
  g_memm w1 = g_memm w0 /\
  calls w1 = calls w0 ++ map (fun r => CallFree (alloc_node r)) records /\
  heap w1 = fold_left (fun h r => real_free L (alloc_node r) h) records (heap w0).
Proof.
  revert w0. induction records as [|r records IH]; intros w0; simpl.
  - rewrite app_nil_r. auto.
  - destruct (IH (free L (alloc_node r) w0)) as (G & C & H).
    rewrite G, C, H. simpl. rewrite <- app_assoc. auto.
Qed.

Lemma shutdown_iterate_nil (L : Libc) (w : world L) :
  iterate (g_memm (memm_shutdown L w)) = [].
Proof.
  unfold memm_shutdown. cbn [g_memm with_memm].
  unfold iterate. cbn [hash_table]. apply concat_all_nil.
Qed.

(** X12.  [memm_shutdown] releases the node of every live record exactly once,
    in traversal order, and releases nothing else (the tracked blocks
    themselves are not released); afterwards every bucket is empty, so no
    address is tracked, while the five counters are what they were: the
    statistics still show the usage and the potential leaks of the moment
    of the shutdown. *)
Theorem shutdown_releases_the_nodes_and_keeps_the_counters
    (L : Libc) (w : world L) :
  let w' := memm_shutdown L w in
  calls w' =
    calls w ++ map (fun r => CallFree (alloc_node r)) (iterate (g_memm w)) /\
  hash_table (g_memm w') = replicate (length (hash_table (g_memm w))) [] /\
  iterate (g_memm w') = [] /\
  (forall q, tracked (g_memm w') q = false) /\
  counters (g_memm w') = counters (g_memm w) /\
  memm_get_current_usage (g_memm w') = memm_get_current_usage (g_memm w).
Proof.
  cbv zeta. unfold memm_shutdown.
  destruct (shutdown_frees_fold L (iterate (g_memm w)) w) as (G & C & _).
  cbv zeta in G, C.
  cbn [g_memm with_memm hash_table calls]. rewrite G, C.
  split; [reflexivity|]. split; [apply map_all_nil_replicate|].
  assert (E : iterate
                (mk_memm (map (fun _ => []) (hash_table (g_memm w)))
                   (total_allocated (g_memm w)) (total_freed (g_memm w))
                   (peak_memory (g_memm w)) (allocation_count (g_memm w))
                   (free_count (g_memm w))) = []).
  { unfold iterate. cbn [hash_table]. apply concat_all_nil. }
  split; [exact E|]. split.
  - intros q. unfold tracked. rewrite E. reflexivity.
  - split; reflexivity.
Qed.

(** X13.  A second [memm_shutdown] finds nothing to release: it makes no call
    to the library and leaves the state as the first one left it, so no
    node is ever released twice. *)
Theorem shutdown_twice_releases_nothing_more (L : Libc) (w : world L) :
  memm_shutdown L (memm_shutdown L w) = memm_shutdown L w /\
  calls (memm_shutdown L (memm_shutdown L w)) = calls (memm_shutdown L w).
Proof.
  assert (E : memm_shutdown L (memm_shutdown L w) = memm_shutdown L w).
  { unfold memm_shutdown at 1.
    assert (I : iterate (g_memm (memm_shutdown L w)) = []).
    { apply shutdown_iterate_nil. }
    rewrite I. cbn [fold_left].
    unfold memm_shutdown. cbn [g_memm with_memm hash_table heap calls
      total_allocated total_freed peak_memory allocation_count free_count].
    f_equal. f_equal. rewrite map_map. reflexivity. }
  split; [exact E|]. rewrite E. reflexivity.
Qed.

(** ** Reports that fit *)

(** A listing report on a buffer that has room for the whole text. *)
Lemma listing_fits (L : Libc) T g b0 cap :
  frame_renders T ->
  1 <= cap <= Z.of_nat (length b0) ->
  cap <= INT_MAX ->
  let text := listing_text T g in
  Z.of_nat (length text) < cap ->
  exists b',
    listing_report L T g (Some b0) cap = (Some b', Z.of_nat (length text)) /\
    take (S (length text)) b' = text ++ [NUL] /\
    length b' = length b0 /\
    drop (Z.to_nat cap) b' = drop (Z.to_nat cap) b0 /\
    (all_render T g = true ->
     b' = text ++ NUL :: drop (S (length text)) b0).
Proof.
  intros HT Hcap Hint text Hfit.
  assert (Hsz : cap < SIZE_MOD)
    by (apply Z.le_lt_trans with INT_MAX; [exact Hint|reflexivity]).
  destruct (listing_report_spec L T g b0 cap HT Hcap Hsz) as (b' & E & Hh & Hx).
  fold text in E, Hh, Hx.
  assert (Ht : take (Z.to_nat (cap - 1)) text = text) by (apply take_ge; lia).
  rewrite Ht in E. rewrite int_wrap_small in E by (unfold INT_MAX in *; lia).
  exists b'. split; [exact E|].
  split; [apply (holds_text_fits _ cap b0), Hh; exact Hfit|].
  destruct Hh as (_ & _ & Hl & Hd).
  split; [exact Hl|]. split; [exact Hd|].
  intros Hall. rewrite (Hx Hall). unfold rendered. fold text.
  rewrite Ht. reflexivity.
Qed.

(** X14.  Let the capacity be at most [INT_MAX] and exceed the length of
    the text.  Then [memm_get_stats_string] stores the whole statistics
    and their terminating null, leaves the bytes behind the null as they
    were, and returns the length of the statistics; each of the two
    listing reports stores the whole text of the listing and its
    terminating null, changes neither the length of the buffer nor a
    byte behind the capacity, and returns the length of the text.  When
    [snprintf] renders the line of every record, the text of a listing is
    the one the specification describes, with a line for every live
    record, and the bytes behind the null are as they were. *)
Theorem reports_render_the_whole_text_when_it_fits
    (L : Libc) (g : memm_t) (buffer : list ascii) (buffer_size : Z) :
  1 <= buffer_size <= Z.of_nat (length buffer) ->
  buffer_size <= INT_MAX ->
  (Z.of_nat (length (stats_text g)) < buffer_size ->
   memm_get_stats_string L g (Some buffer) buffer_size =
   (Some (stats_text g ++ NUL :: drop (S (length (stats_text g))) buffer),
    Z.of_nat (length (stats_text g)))) /\
  (let text := listing_text (allocations_listing L) g in
   Z.of_nat (length text) < buffer_size ->
   stores_whole (memm_get_allocations_string L) text g buffer buffer_size /\
   (all_render (allocations_listing L) g = true ->
    text = full_listing_text (allocations_listing L) g /\
    memm_get_allocations_string L g (Some buffer) buffer_size =
    (Some (text ++ NUL :: drop (S (length text)) buffer),
     Z.of_nat (length text)))) /\
  (let text := listing_text (leaks_listing L) g in
   Z.of_nat (length text) < buffer_size ->
   stores_whole (memm_get_leaks_string L) text g buffer buffer_size /\
   (all_render (leaks_listing L) g = true ->
    text = full_listing_text (leaks_listing L) g /\
    memm_get_leaks_string L g (Some buffer) buffer_size =
    (Some (text ++ NUL :: drop (S (length text)) buffer),
     Z.of_nat (length text)))).
Proof.
  intros Hcap Hint. split; [|split].
  - intros Hfit.
    rewrite stats_string_spec;
      [|exact Hcap|apply renders_true; lia].
    unfold rendered. rewrite take_ge by lia. reflexivity.
  - intros text Hfit.
    destruct (listing_fits L _ g buffer buffer_size (allocations_frame L)
                Hcap Hint Hfit) as (b' & E & Ht & Hl & Hd & Hx).
    split; [exists b'; auto|].
    intros Hall. split; [apply listing_text_all_render, Hall|].
    unfold memm_get_allocations_string. rewrite E, (Hx Hall). reflexivity.
  - intros text Hfit.
    destruct (listing_fits L _ g buffer buffer_size (leaks_frame L)
                Hcap Hint Hfit) as (b' & E & Ht & Hl & Hd & Hx).
    split; [exists b'; auto|].
    intros Hall. split; [apply listing_text_all_render, Hall|].
    unfold memm_get_leaks_string. rewrite E, (Hx Hall). reflexivity.
Qed.

(** ** Hashing *)

(** X15.  For every pointer value the hash is an index of the table, so no
    bucket access is out of bounds; addresses that differ by a multiple
    of the table size share a bucket, and every address that is a
    multiple of the table size lands in bucket 0. *)
Theorem hash_is_a_bucket_index_and_ignores_high_bits (ptr k : Z) :
  0 <= memm_hash_ptr ptr < MEMM_HASH_TABLE_SIZE /\
  memm_hash_ptr (ptr + k * MEMM_HASH_TABLE_SIZE) = memm_hash_ptr ptr /\
  memm_hash_ptr (k * MEMM_HASH_TABLE_SIZE) = 0 /\
  (0 <= ptr < MEMM_HASH_TABLE_SIZE -> memm_hash_ptr ptr = ptr).
Proof.
  split; [apply memm_hash_ptr_range|]. rewrite !memm_hash_ptr_mod.
  split; [apply Z.mod_add; discriminate|].
  split; [apply Z.mod_mul; discriminate|].
  intros H. apply Z.mod_small, H.
Qed.


Lemma no_nul_app a b : no_nul (a ++ b) = no_nul a && no_nul b.
Proof. apply forallb_app. Qed.

Lemma no_nul_uint d : no_nul (lit (DecimalString.NilEmpty.string_of_uint d)) = true.
Proof. induction d; simpl; auto. Qed.

Lemma no_nul_nilzero d :
  no_nul (lit (DecimalString.NilZero.string_of_uint d)) = true.
Proof.
  destruct d; try apply no_nul_uint. reflexivity.
Qed.

Lemma no_nul_fmt_zu z : no_nul (fmt_zu z) = true.
Proof. apply no_nul_nilzero. Qed.

Lemma no_nul_fmt_d z : no_nul (fmt_d z) = true.
Proof.
  unfold fmt_d. destruct (Z.to_int z) as [d|d]; simpl.
  - apply no_nul_nilzero.
  - apply (no_nul_nilzero d).
Qed.

Lemma no_nul_fmt_6zu z : no_nul (fmt_6zu z) = true.
Proof.
  unfold fmt_6zu. rewrite no_nul_app, no_nul_fmt_zu, andb_true_r.
  induction (6 - length (fmt_zu z))%nat as [|n IH]; simpl; auto.
Qed.

Lemma no_nul_take n text : no_nul text = true -> no_nul (take n text) = true.
Proof.
  revert n. induction text as [|c text IH]; intros [|n] H; simpl in *; auto.
  apply andb_prop in H. destruct H as [H1 H2]. rewrite H1. simpl. auto.
Qed.

Lemma no_nul_concat (pieces : list (list ascii)) :
  Forall (fun p => no_nul p = true) pieces -> no_nul (concat pieces) = true.
Proof.
  induction 1 as [|p pieces Hp _ IH]; simpl; [reflexivity|].
  rewrite no_nul_app, Hp, IH. reflexivity.
Qed.

(** The C string of a buffer that holds a text without nulls followed by
    a null is that text. *)
Lemma c_string_app text rest :
  no_nul text = true -> c_string (text ++ NUL :: rest) = text.
Proof.
  induction text as [|c text IH]; intros H; simpl in *.
  - reflexivity.
  - apply andb_prop in H. destruct H as [H1 H2].
    destruct (Ascii.eqb c NUL); [discriminate|]. rewrite IH; auto.
Qed.

(** ** The print macros *)

(** What a print macro prints when the report has left [text] cut to the
    buffer. *)
Lemma print_report_holds (report : report_fn) text g _buf b' returned :
  report g (Some _buf) (Z.of_nat (length _buf)) = (Some b', returned) ->
  holds_text text (Z.of_nat (length _buf)) _buf b' ->
  returned = Z.of_nat (length (take (length _buf - 1) text)) ->
  0 < returned ->
  no_nul text = true ->
  print_report report g _buf = take (length _buf - 1) text.
Proof.
  intros E (H1 & H2 & _) Hret Hpos Hnul. cbv zeta in *.
  replace (Z.to_nat (Z.of_nat (length _buf) - 1)) with (length _buf - 1)%nat
    in H1, H2 by lia.
  unfold print_report. rewrite E.
  destruct (returned >? 0) eqn:C; zbool; [|lia].
  rewrite <- (take_drop_middle _ _ _ H2), H1.
  apply c_string_app, no_nul_take, Hnul.
Qed.

Lemma no_nul_stats g : no_nul (stats_text g) = true.
Proof.
  unfold stats_text.
  rewrite !no_nul_app, !no_nul_fmt_zu, no_nul_fmt_d. reflexivity.
Qed.

(** X16.  In every state reached from the zeroed one the statistics take fewer
    than 395 characters, so that [memm_get_stats_string] never cuts them
    in a buffer of 395 bytes or more: it returns their length, which is
    positive.  The buffer of the print macros ([MEMM_MAX_STRING_LENGTH],
    2048 by default) is large enough, and [memm_print_stats] prints the
    whole statistics whatever its buffer held before. *)
Theorem statistics_are_never_cut_in_395_bytes
    (L : Libc) (w0 : world L) (cs : list call) :
  g_memm w0 = memm_zero ->
  let g := g_memm (run L cs w0) in
  0 < Z.of_nat (length (stats_text g)) < 395 /\
  395 <= MEMM_MAX_STRING_LENGTH /\
  (forall buffer buffer_size,
     395 <= buffer_size <= Z.of_nat (length buffer) ->
     memm_get_stats_string L g (Some buffer) buffer_size =
     (Some (stats_text g ++ NUL :: drop (S (length (stats_text g))) buffer),
      Z.of_nat (length (stats_text g)))) /\
  (forall _buf,
     395 <= Z.of_nat (length _buf) < SIZE_MOD ->
     memm_print_stats L g _buf = stats_text g).
Proof.
  intros H0. cbv zeta.
  assert (Hr : counters_in_range (g_memm (run L cs w0))).
  { apply run_counters_in_range. rewrite H0. apply counters_in_range_zero. }
  pose proof (stats_text_length _ Hr) as Hl.
  pose proof (stats_renders _ Hr) as Hren.
  split; [lia|]. split; [discriminate|]. split.
  - intros buffer buffer_size Hcap.
    rewrite stats_string_spec by (auto; lia). unfold rendered.
    rewrite take_ge by lia. reflexivity.
  - intros _buf Hlen. unfold memm_print_stats.
    rewrite (print_report_holds _ (stats_text (g_memm (run L cs w0))) _ _
               (rendered (stats_text (g_memm (run L cs w0)))
                         (Z.of_nat (length _buf)) _buf)
               (Z.of_nat (length (take (length _buf - 1)
                                       (stats_text (g_memm (run L cs w0))))))).
    + apply take_ge. lia.
    + rewrite stats_string_spec by (auto; lia).
      replace (Z.to_nat (Z.of_nat (length _buf) - 1)) with (length _buf - 1)%nat
        by lia.
      reflexivity.
    + apply rendered_holds_text. lia.
    + reflexivity.
    + rewrite length_take. lia.
    + apply no_nul_stats.
Qed.

Lemma listed_chain_incl T chain r :
  In r (listed_chain T chain) -> In r chain.
Proof.
  induction chain as [|a next IH]; simpl; [auto|].
  destruct (renders (lst_line T a)); simpl; [|contradiction].
  intros [H|H]; auto.
Qed.

Lemma listed_incl T g r : In r (listed T g) -> In r (iterate g).
Proof.
  unfold listed, iterate. intros H.
  apply in_concat in H. destruct H as (l & Hl & Hr).
  apply in_map_iff in Hl. destruct Hl as (chain & <- & Hc).
  apply in_concat. exists chain. split; [exact Hc|].
  apply (listed_chain_incl T), Hr.
Qed.

Lemma no_nul_listing_of (T : listing) (records : list memm_allocation) :
  no_nul (lst_header T) = true ->
  (forall r, In r records -> no_nul (lst_line T r) = true) ->
  no_nul (lst_none T) = true ->
  (forall n b, no_nul (lst_total T n b) = true) ->
  no_nul (listing_of T records) = true.
Proof.
  intros Hh Hl Hn Ht. unfold listing_of.
  rewrite !no_nul_app, Hh. simpl. apply andb_true_intro. split.
  - apply no_nul_concat, List.Forall_forall. intros p Hp.
    apply in_map_iff in Hp. destruct Hp as (r & <- & Hr). apply Hl, Hr.
  - destruct (listing_count records =? 0); auto.
Qed.

(** What a print macro prints of a listing. *)
Lemma print_listing (L : Libc) (T : listing) g _buf :
  frame_renders T ->
  (0 < length (lst_header T))%nat ->
  2 <= Z.of_nat (length _buf) <= INT_MAX ->
  no_nul (listing_text T g) = true ->
  print_report (listing_report L T) g _buf =
  take (length _buf - 1) (listing_text T g).
Proof.
  intros HT Hhead Hlen Hnul.
  assert (Hsz : Z.of_nat (length _buf) < SIZE_MOD)
    by (apply Z.le_lt_trans with INT_MAX; [apply Hlen|reflexivity]).
  destruct (listing_report_spec L T g _buf (Z.of_nat (length _buf)) HT)
    as (b' & E & Hh & _); [lia|exact Hsz|].
  assert (Htext : (0 < length (listing_text T g))%nat)
    by (unfold listing_text, listing_of; rewrite length_app; lia).
  replace (Z.to_nat (Z.of_nat (length _buf) - 1)) with (length _buf - 1)%nat
    in E by lia.
  assert (Hcut : 0 < Z.of_nat (length (take (length _buf - 1) (listing_text T g)))
                 <= INT_MAX) by (rewrite length_take; lia).
  rewrite int_wrap_small in E by (unfold INT_MAX in *; lia).
  apply (print_report_holds _ _ _ _ _ _ E Hh eq_refl); [lia|exact Hnul].
Qed.

(** X17.  Let the buffer of the macros have at least two bytes and at
    most [INT_MAX], and let the call sites of the live records and the
    rendering of their addresses by [%p] hold no null character (as C
    strings do).  Then [memm_print_allocations] and [memm_print_leaks]
    print the text of the listing that the report function renders (the
    header, the lines of the records that are listed and the closing
    line) cut to the size of their buffer minus one, whatever the buffer
    held before: the whole text when it is shorter than the buffer, and
    otherwise its first characters without any sign that the rest is
    missing.  When [snprintf] renders the line of every record, that is
    the listing the specification describes. *)
Theorem print_macros_cut_the_listing_to_the_buffer
    (L : Libc) (g : memm_t) (_buf : list ascii) :
  2 <= Z.of_nat (length _buf) <= INT_MAX ->
  forallb (fun r => no_nul (print_ptr L (alloc_ptr r)) &&
                    no_nul (lit (alloc_file r))) (iterate g) = true ->
  memm_print_allocations L g _buf =
    take (length _buf - 1) (listing_text (allocations_listing L) g) /\
  memm_print_leaks L g _buf =
    take (length _buf - 1) (listing_text (leaks_listing L) g) /\
  (Z.of_nat (length (listing_text (allocations_listing L) g))
     < Z.of_nat (length _buf) ->
   memm_print_allocations L g _buf = listing_text (allocations_listing L) g) /\
  (Z.of_nat (length (listing_text (leaks_listing L) g))
     < Z.of_nat (length _buf) ->
   memm_print_leaks L g _buf = listing_text (leaks_listing L) g) /\
  (all_render (allocations_listing L) g = true ->
   listing_text (allocations_listing L) g =
   full_listing_text (allocations_listing L) g) /\
  (all_render (leaks_listing L) g = true ->
   listing_text (leaks_listing L) g = full_listing_text (leaks_listing L) g).
Proof.
  intros Hlen Hrec.
  assert (Hptr : forall r, In r (iterate g) ->
                           no_nul (print_ptr L (alloc_ptr r)) = true).
  { intros r Hr. apply (proj1 (forallb_forall _ _) Hrec) in Hr.
    apply andb_prop in Hr. apply Hr. }
  assert (Hfile : forall r, In r (iterate g) ->
                            no_nul (lit (alloc_file r)) = true).
  { intros r Hr. apply (proj1 (forallb_forall _ _) Hrec) in Hr.
    apply andb_prop in Hr. apply Hr. }
  assert (A : memm_print_allocations L g _buf =
              take (length _buf - 1) (listing_text (allocations_listing L) g)).
  { unfold memm_print_allocations, memm_get_allocations_string.
    apply print_listing;
      [apply allocations_frame|simpl; lia|exact Hlen|].
    apply no_nul_listing_of; try reflexivity.
    - intros r Hr. apply listed_incl in Hr.
      cbn [lst_line allocations_listing].
      rewrite !no_nul_app, (Hptr r Hr), no_nul_fmt_6zu, (Hfile r Hr), no_nul_fmt_d.
      reflexivity.
    - intros n b. cbn [lst_total allocations_listing].
      rewrite !no_nul_app, !no_nul_fmt_zu. reflexivity. }
  assert (B : memm_print_leaks L g _buf =
              take (length _buf - 1) (listing_text (leaks_listing L) g)).
  { unfold memm_print_leaks, memm_get_leaks_string.
    apply print_listing;
      [apply leaks_frame|simpl; lia|exact Hlen|].
    apply no_nul_listing_of; try reflexivity.
    - intros r Hr. apply listed_incl in Hr.
      cbn [lst_line leaks_listing].
      rewrite !no_nul_app, (Hptr r Hr), no_nul_fmt_6zu, (Hfile r Hr), no_nul_fmt_d.
      reflexivity.
    - intros n b. cbn [lst_total leaks_listing].
      rewrite !no_nul_app, !no_nul_fmt_zu. reflexivity. }
  split; [exact A|]. split; [exact B|].
  split; [intros H; rewrite A; apply take_ge; lia|].
  split; [intros H; rewrite B; apply take_ge; lia|].
  split; apply listing_text_all_render.
Qed.

(** ** The totals of the listings *)

Lemma listing_count_from (records : list memm_allocation) (a : Z) :
  fold_left (fun n _ => size_add n 1) records (a mod SIZE_MOD) =
  (a + Z.of_nat (length records)) mod SIZE_MOD.
Proof.
  revert a. induction records as [|r records IH]; intros a.
  - simpl. f_equal. lia.
  - cbn [fold_left length]. unfold size_add at 2.
    rewrite Zplus_mod_idemp_l, IH. f_equal. lia.
Qed.

Lemma listing_bytes_from (records : list memm_allocation) (a : Z) :
  fold_left (fun n r => size_add n (alloc_size r)) records (a mod SIZE_MOD) =
  (a + sum_sizes records) mod SIZE_MOD.
Proof.
  revert a. induction records as [|r records IH]; intros a.
  - simpl. f_equal. lia.
  - cbn [fold_left sum_sizes fold_right]. unfold size_add at 2.
    rewrite Zplus_mod_idemp_l, IH. f_equal.
    change (fold_right (fun r0 acc => alloc_size r0 + acc) 0 records)
      with (sum_sizes records). lia.
Qed.

(** X18.  In every state reached from the zeroed one in which [snprintf]
    renders the line of every record, [memm_get_allocations_string] and
    [memm_get_leaks_string], given a capacity of at most [INT_MAX] that
    exceeds the text, leave in the buffer the header, one line for each
    live record in traversal order, and a closing line whose figures are
    those of the statistics: the count of records is the potential leaks
    [allocation_count - free_count] and the bytes are the current usage,
    both in [size_t].  The closing line says that there is none exactly
    when the potential leaks are zero. *)
Theorem listing_totals_are_the_statistics
    (L : Libc) (w0 : world L) (cs : list call)
    (buffer : list ascii) (buffer_size : Z) :
  g_memm w0 = memm_zero ->
  forallb call_sizes_ok cs = true ->
  1 <= buffer_size <= Z.of_nat (length buffer) ->
  buffer_size <= INT_MAX ->
  let g := g_memm (run L cs w0) in
  let leaks := size_sub (memm_get_allocation_count g) (memm_get_free_count g) in
  let text T :=
    lst_header T ++ concat (map (lst_line T) (iterate g)) ++
    (if leaks =? 0 then lst_none T
     else lst_total T leaks (memm_get_current_usage g)) in
  (all_render (allocations_listing L) g = true ->
   Z.of_nat (length (text (allocations_listing L))) < buffer_size ->
   memm_get_allocations_string L g (Some buffer) buffer_size =
   (Some (text (allocations_listing L) ++
          NUL :: drop (S (length (text (allocations_listing L)))) buffer),
    Z.of_nat (length (text (allocations_listing L))))) /\
  (all_render (leaks_listing L) g = true ->
   Z.of_nat (length (text (leaks_listing L))) < buffer_size ->
   memm_get_leaks_string L g (Some buffer) buffer_size =
   (Some (text (leaks_listing L) ++
          NUL :: drop (S (length (text (leaks_listing L)))) buffer),
    Z.of_nat (length (text (leaks_listing L))))).
Proof.
  intros H0 Hcs Hcap Hint. cbv zeta.
  assert (Hok : counters_ok (g_memm (run L cs w0))).
  { apply run_counters_ok; [exact Hcs|]. rewrite H0. apply counters_ok_zero. }
  assert (Hn : size_sub (allocation_count (g_memm (run L cs w0)))
                        (free_count (g_memm (run L cs w0))) =
               Z.of_nat (length (iterate (g_memm (run L cs w0)))) mod SIZE_MOD).
  { apply run_record_count; [exact Hcs| |].
    - rewrite H0. apply counters_ok_zero.
    - rewrite H0. reflexivity. }
  assert (Ec : listing_count (iterate (g_memm (run L cs w0))) =
               size_sub (memm_get_allocation_count (g_memm (run L cs w0)))
                        (memm_get_free_count (g_memm (run L cs w0)))).
  { unfold memm_get_allocation_count, memm_get_free_count. rewrite Hn.
    unfold listing_count.
    change 0 with (0 mod SIZE_MOD) at 1. rewrite listing_count_from.
    f_equal. }
  assert (Eb : listing_bytes (iterate (g_memm (run L cs w0))) =
               memm_get_current_usage (g_memm (run L cs w0))).
  { unfold memm_get_current_usage. rewrite (co_usage _ Hok).
    unfold listing_bytes, live_bytes.
    change 0 with (0 mod SIZE_MOD) at 1. rewrite listing_bytes_from.
    f_equal. }
  assert (Htext : forall T,
            all_render T (g_memm (run L cs w0)) = true ->
            listing_text T (g_memm (run L cs w0)) =
            lst_header T ++
            concat (map (lst_line T) (iterate (g_memm (run L cs w0)))) ++
            (if size_sub (memm_get_allocation_count (g_memm (run L cs w0)))
                         (memm_get_free_count (g_memm (run L cs w0))) =? 0
             then lst_none T
             else lst_total T
                    (size_sub (memm_get_allocation_count (g_memm (run L cs w0)))
                              (memm_get_free_count (g_memm (run L cs w0))))
                    (memm_get_current_usage (g_memm (run L cs w0))))).
  { intros T Hall. unfold listing_text. rewrite (listed_all T _ Hall).
    fold (iterate (g_memm (run L cs w0))). unfold listing_of.
    rewrite Ec, Eb. reflexivity. }
  split; intros Hall Hfit.
  - rewrite <- (Htext _ Hall) in *.
    destruct (listing_fits L _ _ buffer buffer_size (allocations_frame L)
                Hcap Hint Hfit) as (b' & E & _ & _ & _ & Hx).
    unfold memm_get_allocations_string. rewrite E, (Hx Hall). reflexivity.
  - rewrite <- (Htext _ Hall) in *.
    destruct (listing_fits L _ _ buffer buffer_size (leaks_frame L)
                Hcap Hint Hfit) as (b' & E & _ & _ & _ & Hx).
    unfold memm_get_leaks_string. rewrite E, (Hx Hall). reflexivity.
Qed.

(** ** The further theorems at concrete inputs *)

Lemma release_tracked_unlinks_first_record_witness :
  4096 <> NULL /\
  table_ok (g_memm one_block_world) /\
  tracked (g_memm one_block_world) 4096 = true /\
  exists to_free,
    alloc_ptr to_free = 4096 /\
    calls (memm_free scripted 4096 "b.c" 2 one_block_world) =
      calls one_block_world ++ [CallFree (alloc_node to_free); CallFree 4096].
Proof.
  assert (H1 : 4096 <> NULL) by discriminate.
  assert (H2 : table_ok (g_memm one_block_world))
    by (apply boot_run_table_ok; reflexivity).
  assert (H3 : tracked (g_memm one_block_world) 4096 = true)
    by (vm_compute; reflexivity).
  split; [exact H1|]. split; [exact H2|]. split; [exact H3|].
  destruct (release_tracked_unlinks_first_record scripted one_block_world 4096
              "b.c" 2 H1 H2 H3)
    as (r & _ & _ & _ & _ & Hr & _ & _ & _ & _ & _ & _ & _ & Hc & _).
  exists r. split; [exact Hr|exact Hc].
Defined.

Lemma second_release_is_untracked_but_forwarded_witness :
  4096 <> NULL /\
  table_ok (g_memm one_block_world) /\
  records_of (g_memm one_block_world) 4096 = [one_block_record] /\
  calls (memm_free scripted 4096 "c.c" 3
           (memm_free scripted 4096 "b.c" 2 one_block_world)) =
    calls one_block_world ++
    [CallFree (alloc_node one_block_record); CallFree 4096; CallFree 4096].
Proof.
  assert (H1 : 4096 <> NULL) by discriminate.
  assert (H2 : table_ok (g_memm one_block_world))
    by (apply boot_run_table_ok; reflexivity).
  assert (H3 : records_of (g_memm one_block_world) 4096 = [one_block_record])
    by (vm_compute; reflexivity).
  split; [exact H1|]. split; [exact H2|]. split; [exact H3|].
  destruct (second_release_is_untracked_but_forwarded scripted one_block_world
              4096 "b.c" 2 "c.c" 3 one_block_record H1 H2 H3)
    as (_ & _ & _ & _ & C).
  exact C.
Defined.

Lemma unregister_undoes_latest_register_witness :
  length (hash_table (g_memm (boot [65536]))) = Z.to_nat MEMM_HASH_TABLE_SIZE /\
  4096 <> NULL /\
  fst (real_malloc scripted sizeof_memm_allocation (heap (boot [65536]))) <> NULL /\
  hash_table
    (g_memm (snd (memm_unregister_allocation scripted 4096 "a.c" 2
                    (memm_register_allocation scripted 4096 16 "a.c" 1
                       (boot [65536]))))) =
  hash_table (g_memm (boot [65536])).
Proof.
  assert (H1 : length (hash_table (g_memm (boot [65536]))) =
               Z.to_nat MEMM_HASH_TABLE_SIZE) by apply table_ok_zero.
  assert (H2 : 4096 <> NULL) by discriminate.
  assert (H3 : fst (real_malloc scripted sizeof_memm_allocation
                      (heap (boot [65536]))) <> NULL)
    by (vm_compute; discriminate).
  split; [exact H1|]. split; [exact H2|]. split; [exact H3|].
  destruct (unregister_undoes_latest_register scripted (boot [65536]) 4096 16
              "a.c" 1 "a.c" 2 H1 H2 H3) as (_ & T & _).
  exact T.
Defined.

Lemma tracked_calls_leave_other_addresses_alone_witness :
  length (hash_table (g_memm example_world)) = Z.to_nat MEMM_HASH_TABLE_SIZE /\
  (4096 <> 12288 /\
   4096 <> fst (memm_realloc scripted 12288 64 "e.c" 5 example_world)) /\
  records_of (g_memm (step scripted (Realloc 12288 64 "e.c" 5) example_world))
             4096 =
  records_of (g_memm example_world) 4096.
Proof.
  assert (H1 : length (hash_table (g_memm example_world)) =
               Z.to_nat MEMM_HASH_TABLE_SIZE)
    by (apply (boot_run_table_ok example_script example_calls); reflexivity).
  assert (H2 : 4096 <> 12288 /\
               4096 <> fst (memm_realloc scripted 12288 64 "e.c" 5 example_world))
    by (split; [discriminate|vm_compute; discriminate]).
  split; [exact H1|]. split; [exact H2|].
  exact (tracked_calls_leave_other_addresses_alone scripted example_world
           (Realloc 12288 64 "e.c" 5) 4096 H1 H2).
Defined.

Lemma allocate_success_registers_at_head_witness :
  length (hash_table (g_memm (boot [4096; 65536]))) =
    Z.to_nat MEMM_HASH_TABLE_SIZE /\
  fst (real_malloc scripted 16 (heap (boot [4096; 65536]))) <> NULL /\
  fst (real_malloc scripted sizeof_memm_allocation
         (snd (real_malloc scripted 16 (heap (boot [4096; 65536]))))) <> NULL /\
  tracked (g_memm (snd (memm_malloc scripted 16 "a.c" 1 (boot [4096; 65536]))))
          (fst (real_malloc scripted 16 (heap (boot [4096; 65536])))) = true.
Proof.
  assert (H1 : length (hash_table (g_memm (boot [4096; 65536]))) =
               Z.to_nat MEMM_HASH_TABLE_SIZE) by apply table_ok_zero.
  assert (H2 : fst (real_malloc scripted 16 (heap (boot [4096; 65536]))) <> NULL)
    by (vm_compute; discriminate).
  assert (H3 : fst (real_malloc scripted sizeof_memm_allocation
                      (snd (real_malloc scripted 16 (heap (boot [4096; 65536])))))
               <> NULL)
    by (vm_compute; discriminate).
  split; [exact H1|]. split; [exact H2|]. split; [exact H3|].
  destruct (allocate_success_registers_at_head scripted (boot [4096; 65536]) 16
              "a.c" 1 H1 H2 H3) as (_ & _ & T & _).
  exact T.
Defined.

Lemma zero_allocate_registers_the_size_t_product_witness :
  length (hash_table (g_memm (boot [4096; 65536]))) =
    Z.to_nat MEMM_HASH_TABLE_SIZE /\
  total_allocated
    (g_memm (snd (memm_calloc scripted (2 ^ 63) 2 "a.c" 1 (boot [4096; 65536])))) =
  size_add (total_allocated (g_memm (boot [4096; 65536])))
           ((2 ^ 63 * 2) mod 2 ^ 64).
Proof.
  assert (H1 : length (hash_table (g_memm (boot [4096; 65536]))) =
               Z.to_nat MEMM_HASH_TABLE_SIZE) by apply table_ok_zero.
  split; [exact H1|].
  destruct (zero_allocate_registers_the_size_t_product scripted
              (boot [4096; 65536]) (2 ^ 63) 2 "a.c" 1 H1) as (_ & _ & R).
  destruct R as (_ & T & _).
  - vm_compute. discriminate.
  - vm_compute. discriminate.
  - exact T.
Defined.

Lemma resize_of_null_or_untracked_only_registers_witness :
  length (hash_table (g_memm (boot [4096; 65536]))) =
    Z.to_nat MEMM_HASH_TABLE_SIZE /\
  (NULL = NULL \/ tracked (g_memm (boot [4096; 65536])) NULL = false) /\
  fst (memm_realloc scripted NULL 16 "a.c" 1 (boot [4096; 65536])) =
    fst (real_realloc scripted NULL 16 (heap (boot [4096; 65536]))) /\
  free_count (g_memm (snd (memm_realloc scripted NULL 16 "a.c" 1
                             (boot [4096; 65536])))) =
    free_count (g_memm (boot [4096; 65536])).
Proof.
  assert (H1 : length (hash_table (g_memm (boot [4096; 65536]))) =
               Z.to_nat MEMM_HASH_TABLE_SIZE) by apply table_ok_zero.
  assert (H2 : NULL = NULL \/ tracked (g_memm (boot [4096; 65536])) NULL = false)
    by (left; reflexivity).
  split; [exact H1|]. split; [exact H2|].
  destruct (resize_of_null_or_untracked_only_registers scripted
              (boot [4096; 65536]) NULL 16 "a.c" 1 H1 H2) as (R & _ & F & _).
  split; [exact R|exact F].
Defined.

Lemma resize_puts_the_new_record_first_witness :
  4096 <> NULL /\
  table_ok (g_memm stale_target_world) /\
  records_of (g_memm stale_target_world) 4096 = [stale_target_old] /\
  fst (real_realloc scripted 4096 10
         (real_free scripted (alloc_node stale_target_old)
            (heap stale_target_world))) <> NULL /\
  fst (real_malloc scripted sizeof_memm_allocation
         (snd (real_realloc scripted 4096 10
                 (real_free scripted (alloc_node stale_target_old)
                    (heap stale_target_world))))) <> NULL /\
  map alloc_size
      (records_of (g_memm (snd (memm_realloc scripted 4096 10 "b.c" 3
                                  stale_target_world))) 8192) = [10; 50] /\
  records_of (g_memm (snd (memm_realloc scripted 4096 10 "b.c" 3
                             stale_target_world))) 4096 = [] /\
  live_bytes (g_memm (snd (memm_realloc scripted 4096 10 "b.c" 3
                             stale_target_world))) =
    live_bytes (g_memm stale_target_world) - alloc_size stale_target_old + 10.
Proof.
  assert (H1 : 4096 <> NULL) by discriminate.
  assert (H2 : table_ok (g_memm stale_target_world))
    by (apply boot_run_table_ok; reflexivity).
  assert (H3 : records_of (g_memm stale_target_world) 4096 = [stale_target_old])
    by (vm_compute; reflexivity).
  assert (H4 : fst (real_realloc scripted 4096 10
                      (real_free scripted (alloc_node stale_target_old)
                         (heap stale_target_world))) <> NULL)
    by (vm_compute; discriminate).
  assert (H5 : fst (real_malloc scripted sizeof_memm_allocation
                      (snd (real_realloc scripted 4096 10
                              (real_free scripted (alloc_node stale_target_old)
                                 (heap stale_target_world))))) <> NULL)
    by (vm_compute; discriminate).
  split; [exact H1|]. split; [exact H2|]. split; [exact H3|].
  split; [exact H4|]. split; [exact H5|].
  destruct (resize_puts_the_new_record_first scripted stale_target_world
              4096 10 "b.c" 3 stale_target_old H1 H2 H3 H4 H5)
    as ((now & F & _) & M & B).
  assert (E : fst (real_realloc scripted 4096 10
                     (real_free scripted (alloc_node stale_target_old)
                        (heap stale_target_world))) = 8192)
    by (vm_compute; reflexivity).
  rewrite E in F, M.
  split; [rewrite F; vm_compute; reflexivity|].
  split; [apply M; discriminate|exact B].
Defined.

Lemma release_after_failed_resize_is_untracked_witness :
  12288 <> NULL /\
  table_ok (g_memm example_world) /\
  records_of (g_memm example_world) 12288 =
    [mk_allocation 100096 12288 30 "c.c" 3 1700000000] /\
  fst (real_realloc scripted 12288 64
         (real_free scripted 100096 (heap example_world))) = NULL /\
  fst (memm_realloc scripted 12288 64 "e.c" 5 example_world) = NULL /\
  tracked (g_memm (snd (memm_realloc scripted 12288 64 "e.c" 5 example_world)))
          12288 = false.
Proof.
  assert (H1 : 12288 <> NULL) by discriminate.
  assert (H2 : table_ok (g_memm example_world))
    by (apply boot_run_table_ok; reflexivity).
  assert (H3 : records_of (g_memm example_world) 12288 =
               [mk_allocation 100096 12288 30 "c.c" 3 1700000000])
    by (vm_compute; reflexivity).
  assert (H4 : fst (real_realloc scripted 12288 64
                      (real_free scripted 100096 (heap example_world))) = NULL)
    by (vm_compute; reflexivity).
  split; [exact H1|]. split; [exact H2|]. split; [exact H3|]. split; [exact H4|].
  destruct (release_after_failed_resize_is_untracked scripted example_world 12288
              64 "e.c" 5 "f.c" 6
              (mk_allocation 100096 12288 30 "c.c" 3 1700000000) H1 H2 H3 H4)
    as (R & T & _).
  split; [exact R|exact T].
Defined.

Lemma current_usage_is_the_live_bytes_witness :
  g_memm (boot example_script) = memm_zero /\
  forallb call_sizes_ok example_calls = true /\
  memm_get_current_usage (g_memm example_world) =
    live_bytes (g_memm example_world) mod 2 ^ 64.
Proof.
  assert (H1 : g_memm (boot example_script) = memm_zero) by reflexivity.
  assert (H2 : forallb call_sizes_ok example_calls = true) by reflexivity.
  split; [exact H1|]. split; [exact H2|].
  destruct (current_usage_is_the_live_bytes scripted (boot example_script)
              example_calls H1 H2) as (U & _).
  exact U.
Defined.

Lemma potential_leaks_is_the_number_of_live_records_witness :
  g_memm (boot example_script) = memm_zero /\
  forallb call_sizes_ok example_calls = true /\
  size_sub (memm_get_allocation_count (g_memm example_world))
           (memm_get_free_count (g_memm example_world)) =
    Z.of_nat (length (iterate (g_memm example_world))) mod 2 ^ 64.
Proof.
  assert (H1 : g_memm (boot example_script) = memm_zero) by reflexivity.
  assert (H2 : forallb call_sizes_ok example_calls = true) by reflexivity.
  split; [exact H1|]. split; [exact H2|].
  destruct (potential_leaks_is_the_number_of_live_records scripted
              (boot example_script) example_calls H1 H2) as (P & _).
  exact P.
Defined.

Lemma reports_render_the_whole_text_when_it_fits_witness :
  1 <= 2048 <= Z.of_nat (length (replicate 2048 "x"%char)) /\
  2048 <= INT_MAX /\
  Z.of_nat (length (stats_text (g_memm example_world))) < 2048 /\
  Z.of_nat (length (listing_text (leaks_listing scripted)
                                 (g_memm example_world))) < 2048 /\
  snd (memm_get_stats_string scripted (g_memm example_world)
         (Some (replicate 2048 "x"%char)) 2048) =
    Z.of_nat (length (stats_text (g_memm example_world))) /\
  stores_whole (memm_get_leaks_string scripted)
               (listing_text (leaks_listing scripted) (g_memm example_world))
               (g_memm example_world) (replicate 2048 "x"%char) 2048.
Proof.
  assert (H1 : 1 <= 2048 <= Z.of_nat (length (replicate 2048 "x"%char)))
    by (rewrite length_replicate; lia).
  assert (H2 : 2048 <= INT_MAX) by discriminate.
  assert (H3 : Z.of_nat (length (stats_text (g_memm example_world))) < 2048)
    by (vm_compute; reflexivity).
  assert (H4 : Z.of_nat (length (listing_text (leaks_listing scripted)
                                              (g_memm example_world))) < 2048)
    by (vm_compute; reflexivity).
  split; [exact H1|]. split; [exact H2|]. split; [exact H3|].
  split; [exact H4|].
  destruct (reports_render_the_whole_text_when_it_fits scripted
              (g_memm example_world) (replicate 2048 "x"%char) 2048 H1 H2)
    as (S & _ & K).
  split; [rewrite (S H3); reflexivity|].
  destruct (K H4) as (W & _). exact W.
Defined.

Lemma statistics_are_never_cut_in_395_bytes_witness :
  g_memm (boot example_script) = memm_zero /\
  0 < Z.of_nat (length (stats_text (g_memm example_world))) < 395.
Proof.
  assert (H1 : g_memm (boot example_script) = memm_zero) by reflexivity.
  split; [exact H1|].
  destruct (statistics_are_never_cut_in_395_bytes scripted
              (boot example_script) example_calls H1) as (B & _).
  exact B.
Defined.

Lemma print_macros_cut_the_listing_to_the_buffer_witness :
  2 <= Z.of_nat (length sixty_four_bytes) <= INT_MAX /\
  forallb (fun r => no_nul (print_ptr scripted (alloc_ptr r)) &&
                    no_nul (lit (alloc_file r)))
          (iterate (g_memm example_world)) = true /\
  memm_print_allocations scripted (g_memm example_world) sixty_four_bytes =
    take (length sixty_four_bytes - 1)
         (listing_text (allocations_listing scripted) (g_memm example_world)).
Proof.
  assert (H1 : 2 <= Z.of_nat (length sixty_four_bytes) <= INT_MAX)
    by (unfold sixty_four_bytes; rewrite length_replicate; split;
        discriminate).
  assert (H2 : forallb (fun r => no_nul (print_ptr scripted (alloc_ptr r)) &&
                                 no_nul (lit (alloc_file r)))
                       (iterate (g_memm example_world)) = true)
    by (vm_compute; reflexivity).
  split; [exact H1|]. split; [exact H2|].
  destruct (print_macros_cut_the_listing_to_the_buffer scripted
              (g_memm example_world) sixty_four_bytes H1 H2) as (A & _).
  exact A.
Defined.

Lemma listing_totals_are_the_statistics_witness :
  g_memm (boot example_script) = memm_zero /\
  forallb call_sizes_ok example_calls = true /\
  1 <= 2048 <= Z.of_nat (length (replicate 145 "x"%char ++
                                 replicate 1903 "y"%char)) /\
  2048 <= INT_MAX /\
  all_render (leaks_listing scripted) (g_memm example_world) = true /\
  fst (memm_get_leaks_string scripted (g_memm example_world)
         (Some (replicate 145 "x"%char ++ replicate 1903 "y"%char)) 2048) =
  Some (lit "=== MEMORY LEAK REPORT ===" ++ nl ++
        lit "  LEAK:     30 bytes at 0x3000 (c.c:3)" ++ nl ++
        lit "  LEAK:     10 bytes at 0x1000 (a.c:1)" ++ nl ++
        lit "  TOTAL LEAKS: 2 allocations, 40 bytes" ++ nl ++
        NUL :: replicate 1903 "y"%char).
Proof.
  assert (H1 : g_memm (boot example_script) = memm_zero) by reflexivity.
  assert (H2 : forallb call_sizes_ok example_calls = true) by reflexivity.
  assert (H3 : 1 <= 2048 <=
               Z.of_nat (length (replicate 145 "x"%char ++
                                 replicate 1903 "y"%char)))
    by (rewrite length_app, !length_replicate; lia).
  assert (H4 : 2048 <= INT_MAX) by discriminate.
  assert (H5 : all_render (leaks_listing scripted)
                 (g_memm (run scripted example_calls (boot example_script)))
               = true)
    by (vm_compute; reflexivity).
  split; [exact H1|]. split; [exact H2|].
  split; [exact H3|]. split; [exact H4|].
  split; [exact H5|].
  destruct (listing_totals_are_the_statistics scripted (boot example_script)
              example_calls
              (replicate 145 "x"%char ++ replicate 1903 "y"%char) 2048
              H1 H2 H3 H4) as (_ & B).
  unfold example_world. rewrite (B H5); [|vm_compute; reflexivity].
  vm_compute. reflexivity.
Defined.
